(** * Focus-mode server: a shallow embedding and its verification

    The development embeds the server of the focus-mode UI
    (the Express/socket.io program with [readConfig], [writeConfig],
    [buildGraph], [computeIncluded], [addDependents] and
    [checkGitChanges]) and its older variant kept under
    [focus-ui/server.js].

    Modelling conventions.
    - A JavaScript string is a [string]; a code unit is an [ascii], so the
      model covers strings whose code units are below 256.
    - A JavaScript number is used by the program only as an integer and is a
      [Z]; the embedding is exact for the safe integers (absolute value at
      most [MAX_SAFE_INTEGER]), where [String(n)] is the decimal numeral and
      [parseInt] reads it back exactly.
    - A JavaScript [Set] and the arrays obtained by spreading it are lists in
      insertion order without repetition.
    - A plain object used as a dictionary is an association list in
      insertion order, holding the own keys of the object.
    - The file system is passed explicitly: the configuration file is an
      [option string], the manifests are a function from project
      identifier to [option string].
    - [Server] and [Idea] are the program on the runs that raise no
      exception.  [Strict] writes out the two exceptions of the program:
      [fs.readFileSync] on a path that exists and cannot be read, and the
      call of [forEach] on what a lookup in [reverseDepMap] finds under a
      name inherited from [Object.prototype]. *)

From Stdlib Require Import ZArith List Bool Lia Ascii String.
Import ListNotations.
Open Scope list_scope.
Open Scope string_scope.

(** ** Characters and strings as the program uses them *)

Module Js.

Definition code (c : ascii) : nat := nat_of_ascii c.

(** [\d] of a regular expression without the unicode flag. *)
Definition isDigit (c : ascii) : bool :=
  (48 <=? code c)%nat && (code c <=? 57)%nat.

(** [\s], and the characters removed by [trim()]: tab, line feed, vertical
    tab, form feed, carriage return, space and no-break space. *)
Definition isSpace (c : ascii) : bool :=
  ((9 <=? code c)%nat && (code c <=? 13)%nat)
  || (code c =? 32)%nat || (code c =? 160)%nat.

Definition squote : ascii := "'"%char.
Definition dquote : ascii := "034"%char.
Definition isQuote (c : ascii) : bool :=
  Ascii.eqb c squote || Ascii.eqb c dquote.

(** [[^\]]]. *)
Definition notRBracket (c : ascii) : bool := negb (Ascii.eqb c "]"%char).

Definition isEmpty (s : string) : bool :=
  match s with EmptyString => true | String _ _ => false end.

(** Truthiness of a string: non-empty. *)
Definition truthy (s : string) : bool := negb (isEmpty s).

Fixpoint trimStart (s : string) : string :=
  match s with
  | String c s' => if isSpace c then trimStart s' else s
  | EmptyString => EmptyString
  end.

Fixpoint trimEnd (s : string) : string :=
  match s with
  | String c s' =>
      let r := trimEnd s' in
      if isEmpty r && isSpace c then EmptyString else String c r
  | EmptyString => EmptyString
  end.

(** [s.trim()]. *)
Definition trim (s : string) : string := trimEnd (trimStart s).

(** [s.split(sep)] for a one-character separator. *)
Fixpoint split (sep : ascii) (s : string) : list string :=
  match s with
  | EmptyString => [EmptyString]
  | String c s' =>
      if Ascii.eqb c sep then EmptyString :: split sep s'
      else match split sep s' with
           | h :: t => String c h :: t
           | [] => [String c EmptyString]
           end
  end.

(** [xs.join(sep)]. *)
Definition join (sep : string) (xs : list string) : string := concat sep xs.

(** [s.substring(n)]. *)
Fixpoint substringFrom (n : nat) (s : string) : string :=
  match n, s with
  | S k, String _ s' => substringFrom k s'
  | _, _ => s
  end.

(** [s.substring(0, n)]. *)
Fixpoint substringTo (n : nat) (s : string) : string :=
  match n, s with
  | S k, String c s' => String c (substringTo k s')
  | _, _ => EmptyString
  end.

Fixpoint repeatChar (c : ascii) (n : nat) : string :=
  match n with
  | O => EmptyString
  | S k => String c (repeatChar c k)
  end.

(** [s.padStart(n, c)] for a one-character filler. *)
Definition padStart (n : nat) (c : ascii) (s : string) : string :=
  repeatChar c (n - length s) ++ s.

(** [s.replace(/^['"]|['"]$/g, '')]: the first alternative removes a
    quote at position 0; the second removes a quote that is the last
    character of what follows. *)
Fixpoint dropLastQuote (s : string) : string :=
  match s with
  | EmptyString => EmptyString
  | String c EmptyString => if isQuote c then EmptyString else s
  | String c s' => String c (dropLastQuote s')
  end.

Definition unquote (s : string) : string :=
  match s with
  | String c s' => if isQuote c then dropLastQuote s' else dropLastQuote s
  | EmptyString => EmptyString
  end.

(** [set.has(x)] and [array.includes(x)] on strings. *)
Fixpoint mem (x : string) (xs : list string) : bool :=
  match xs with
  | [] => false
  | y :: ys => String.eqb x y || mem x ys
  end.

(** [set.add(x)]: insertion order, no repetition. *)
Definition setAdd (x : string) (xs : list string) : list string :=
  if mem x xs then xs else (xs ++ [x])%list.

(** [new Set(xs)] and a set filled by [forEach(x => set.add(x))]. *)
Definition setOf (xs : list string) : list string :=
  fold_left (fun s x => setAdd x s) xs [].

(** Largest integer below which every integer is a JavaScript number. *)
Definition MAX_SAFE_INTEGER : Z := (2 ^ 53 - 1)%Z.

Definition digitChar (d : Z) : ascii := ascii_of_nat (48 + Z.to_nat d).
Definition digitVal (c : ascii) : Z := Z.of_nat (code c - 48).

(** Decimal numeral of a non-negative integer, most significant digit
    first; [fuel] bounds the number of digits. *)
Fixpoint digitsOf (fuel : nat) (n : Z) (acc : string) : string :=
  match fuel with
  | O => acc
  | S f =>
      let acc' := String (digitChar (n mod 10)) acc in
      if (n <? 10)%Z then acc' else digitsOf f (n / 10) acc'
  end.

Definition natural (n : Z) : string :=
  digitsOf (S (Z.to_nat (Z.log2 n))) n EmptyString.

(** [String(n)] and the interpolation of [n] in a template literal, for
    an integer [n]. *)
Definition numberToString (n : Z) : string :=
  if (n <? 0)%Z then String "-"%char (natural (- n)) else natural n.

(** [parseInt(s)] on a string that starts with a digit: the value of the
    leading run of digits.  The value is the number the program gets
    when it is at most [MAX_SAFE_INTEGER]; above it the program gets a
    rounded number, and [Infinity] for runs of several hundred digits. *)
Fixpoint parseDigits (acc : Z) (s : string) : Z :=
  match s with
  | String c s' =>
      if isDigit c then parseDigits (acc * 10 + digitVal c) s' else acc
  | EmptyString => acc
  end.

Definition parseInt (s : string) : Z := parseDigits 0 s.

End Js.

(** ** Regular expressions of the program

    The patterns of the program are sequences of literal characters and
    greedy repetitions of a character class, with at most one capture
    group around a repetition.  [matchHere] is a backtracking matcher:
    a repetition first tries to take one more character and falls back to
    stopping where it is. *)

Module Regex.

Inductive item : Type :=
| Lit (c : ascii)
| Rep (cls : ascii -> bool) (least : nat) (captured : bool).

Definition regex : Type := list item.

(** The literal characters of [s], one item each. *)
Definition lit (s : string) : regex := map Lit (list_ascii_of_string s).

Section Repetition.
Context {R : Type}.
Variable cls : ascii -> bool.
Variable k : string -> string -> option R.

(** [rep least taken s]: [taken] has been consumed by the repetition,
    [least] more characters are required, [s] is what is left. *)
Fixpoint rep (least : nat) (taken s : string) : option R :=
  let stop := match least with O => k taken s | S _ => None end in
  match s with
  | String c s' =>
      if cls c then
        match rep (pred least) (taken ++ String c EmptyString) s' with
        | Some r => Some r
        | None => stop
        end
      else stop
  | EmptyString => stop
  end.
End Repetition.

(** Match [p] at the start of [s]; the result is the text of the capture
    group ([cap] when the group has not been met) and the unread rest. *)
Fixpoint matchHere (p : regex) (cap s : string) : option (string * string) :=
  match p with
  | [] => Some (cap, s)
  | Lit c :: p' =>
      match s with
      | String d s' => if Ascii.eqb c d then matchHere p' cap s' else None
      | EmptyString => None
      end
  | Rep cls least captured :: p' =>
      rep cls (fun taken rest =>
                 matchHere p' (if captured then taken else cap) rest)
          least EmptyString s
  end.

(** [s.match(p)] for a pattern without the global flag: the leftmost
    match. *)
Fixpoint search (p : regex) (s : string) : option (string * string) :=
  match matchHere p EmptyString s with
  | Some r => Some r
  | None =>
      match s with
      | String _ s' => search p s'
      | EmptyString => None
      end
  end.

(** [[...s.matchAll(p)]] for a global pattern, as the list of the capture
    groups: after a match the scan resumes where the match ended ([skip]
    counts the characters still to pass over), and one character further
    when nothing matched. *)
Fixpoint matchAll (p : regex) (skip : nat) (s : string) : list string :=
  match s with
  | EmptyString =>
      match skip, matchHere p EmptyString s with
      | O, Some (cap, _) => [cap]
      | _, _ => []
      end
  | String _ s' =>
      match skip with
      | S n => matchAll p n s'
      | O =>
          match matchHere p EmptyString s with
          | Some (cap, rest) =>
              cap :: matchAll p (length s - length rest - 1) s'
          | None => matchAll p 0 s'
          end
      end
  end.

(** The text matched at the start of [s] when [rest] is left. *)
Definition matched (s rest : string) : string :=
  Js.substringTo (length s - length rest) s.

End Regex.

(** ** Dictionaries: plain objects with string keys and array values *)

Module Dict.

Definition dict : Type := list (string * list string).

(** [d[k]], [None] for [undefined]. *)
Fixpoint get (k : string) (d : dict) : option (list string) :=
  match d with
  | [] => None
  | (k', v) :: d' => if String.eqb k k' then Some v else get k d'
  end.

(** [d[k] = v]: an existing key keeps its place, a new key goes last. *)
Fixpoint set (k : string) (v : list string) (d : dict) : dict :=
  match d with
  | [] => [(k, v)]
  | (k', v') :: d' =>
      if String.eqb k k' then (k', v) :: d' else (k', v') :: set k v d'
  end.

(** [d[k] || []]. *)
Definition getOr (k : string) (d : dict) : list string :=
  match get k d with Some v => v | None => [] end.

End Dict.

(** ** The server *)

Module Server.

Import Js Regex Dict.

Definition nl : string := String "010"%char EmptyString.

Record FocusConfig : Type := {
  focusedProjects : list string;
  downstreamHops : Z
}.

(** The pattern of the focused-list statement: the literal
    [ext.focusedProjects], blanks, [=], blanks, an opening bracket, a
    captured run of characters other than the closing bracket, and the
    closing bracket. *)
Definition focusedRe : regex :=
  (lit "ext.focusedProjects"
   ++ [Rep isSpace 0 false; Lit "="; Rep isSpace 0 false; Lit "[";
       Rep notRBracket 0 true; Lit "]"])%list.

(** The pattern of the hop statement: the literal [ext.downstreamHops],
    blanks, [=], blanks and a captured non-empty run of digits. *)
Definition hopsRe : regex :=
  (lit "ext.downstreamHops"
   ++ [Rep isSpace 0 false; Lit "="; Rep isSpace 0 false;
       Rep isDigit 1 true])%list.

(** The pattern of a dependency directive: the literal
    [focusedDep(':project-], a captured non-empty run of digits and a
    single quote. *)
Definition depRe : regex :=
  (lit "focusedDep(':project-" ++ [Rep isDigit 1 true; Lit "'"])%list.

(** The pattern of the leading path segment, tried at position 0 only:
    the literal [project-] and a non-empty run of digits. *)
Definition projectRe : regex := (lit "project-" ++ [Rep isDigit 1 false])%list.

(** [readConfig]; [file] is the content of [focus-config.gradle], [None]
    when the file does not exist.  A path that exists and cannot be read
    is in [Strict.readConfig]. *)
Definition readConfig (file : option string) : FocusConfig :=
  match file with
  | None => {| focusedProjects := []; downstreamHops := 1 |}
  | Some content =>
      let focusedMatch := search focusedRe content in
      let hopsMatch := search hopsRe content in
      let focused :=
        match focusedMatch with
        | Some (listStr, _) =>
            filter truthy
              (map (fun s => unquote (trim s)) (split ","%char listStr))
        | None => []
        end in
      let hops :=
        match hopsMatch with
        | Some (digits, _) => parseInt digits
        | None => 1%Z
        end in
      {| focusedProjects := focused; downstreamHops := hops |}
  end.

(** [writeConfig]: the text written to [focus-config.gradle]. *)
Definition writeConfig (focused : list string) (hops : Z) : string :=
  let focusedStr := join ", " (map (fun p => "'" ++ p ++ "'") focused) in
  "ext.focusedProjects = [" ++ focusedStr ++ "]" ++ nl
  ++ "ext.downstreamHops = " ++ numberToString hops.

(** [`project-${String(i).padStart(3, '0')}`] *)
Definition projectId (i : nat) : string :=
  "project-" ++ padStart 3 "0"%char (numberToString (Z.of_nat i)).

(** The registry filled by [for (let i = 1; i <= 100; i++)]. *)
Definition projects : list string := map projectId (seq 1 100).

Record Graph : Type := {
  depMap : dict;
  reverseDepMap : dict;
  nodes : list (string * string);
  edges : list (string * string)
}.

(** [if (!reverseDepMap[dep]) reverseDepMap[dep] = [];
     reverseDepMap[dep].push(proj)] *)
Definition pushReverse (dep proj : string) (r : dict) : dict :=
  let r1 := match get dep r with Some _ => r | None => set dep [] r end in
  set dep (getOr dep r1 ++ [proj])%list r1.

(** The identifiers named by the directives of one manifest. *)
Definition parseManifest (content : string) : list string :=
  map (fun m => "project-" ++ padStart 3 "0"%char m) (matchAll depRe 0 content).

(** The body of [projects.forEach] in [buildGraph]; [manifest proj] is the
    content of [proj/build.gradle], [None] when the file does not exist. *)
Definition visitProject (manifest : string -> option string)
    (st : dict * dict) (proj : string) : dict * dict :=
  match manifest proj with
  | Some content =>
      let deps := parseManifest content in
      (set proj deps (fst st),
       fold_left (fun r dep => pushReverse dep proj r) deps (snd st))
  | None => (set proj [] (fst st), snd st)
  end.

(** [buildGraph]: the two global maps and the returned nodes and edges. *)
Definition buildGraph (manifest : string -> option string) : Graph :=
  let maps := fold_left (visitProject manifest) projects ([], []) in
  {| depMap := fst maps;
     reverseDepMap := snd maps;
     nodes := map (fun proj => (proj, proj)) projects;
     edges := flat_map (fun e => map (fun to => (fst e, to)) (snd e))
                       (fst maps) |}.

(** [addDependents]; the state is the pair of the sets [included] and
    [visited], both mutated in place by the program.  [fuel] bounds the
    depth of the recursion.  [reverseDepMap[proj] || []] is read for a
    name that is an own key or is not defined at all; the names inherited
    from [Object.prototype] are in [Strict.addDependents]. *)
Fixpoint addDependents (reverse : dict) (fuel : nat) (proj : string)
    (hops : Z) (st : list string * list string)
    : list string * list string :=
  match fuel with
  | O => st
  | S fuel' =>
      if (hops <? 0)%Z || mem proj (snd st) then st
      else
        let visited := setAdd proj (snd st) in
        let dependents := getOr proj reverse in
        if (0 <? hops)%Z then
          fold_left
            (fun st dep =>
               if mem dep (fst st) then st
               else addDependents reverse fuel' dep (hops - 1)
                      (setAdd dep (fst st), snd st))
            dependents (fst st, visited)
        else (fst st, visited)
  end.

(** The recursion of [addDependents] is never deeper than [hops + 1]. *)
Definition fuelFor (hops : Z) : nat := S (Z.to_nat hops).

(** [computeIncluded] of the server with change notifications. *)
Definition computeIncluded (reverse : dict) (focused : list string)
    (hops : Z) : list string :=
  if (List.length focused =? 0)%nat then
    fold_left (fun included i => setAdd (projectId i) included) (seq 1 100) []
  else
    fold_left
      (fun included proj =>
         fst (addDependents reverse (fuelFor hops) proj hops
                (setAdd proj included, [])))
      focused [].

Inductive gitResult : Type :=
| GitError
| GitOutput (stdout : string).

Record ChangeEvent : Type := {
  changedProjects : list string;
  included : list string;
  excluded : list string
}.

(** The paths with a pending change in the output of
    [git status --porcelain]. *)
Definition currentChangesOf (stdout : string) : list string :=
  let lines := filter (fun line => truthy (trim line))
                      (split "010"%char (trim stdout)) in
  fold_left
    (fun current line =>
       let status := substringTo 2 line in
       let filePath := substringFrom 3 line in
       if truthy (trim status) then setAdd filePath current else current)
    lines [].

(** [[...currentChanges].filter(change => !lastKnownChanges.has(change))] *)
Definition newChangesOf (lastKnownChanges currentChanges : list string)
    : list string :=
  filter (fun change => negb (mem change lastKnownChanges)) currentChanges.

(** The text matched by the leading-segment pattern in [change]. *)
Definition projectOf (change : string) : option string :=
  match matchHere projectRe EmptyString change with
  | Some (_, rest) => Some (matched change rest)
  | None => None
  end.

Definition changedProjectsOf (newChanges : list string) : list string :=
  fold_left
    (fun changed change =>
       match projectOf change with
       | Some proj => setAdd proj changed
       | None => changed
       end)
    newChanges [].

(** One run of the callback of [checkGitChanges]: the new value of
    [lastKnownChanges] and the event emitted on [file-changes], if any. *)
Definition checkGitChanges (configFile : option string) (reverse : dict)
    (lastKnownChanges : list string) (result : gitResult)
    : list string * option ChangeEvent :=
  match result with
  | GitError => (lastKnownChanges, None)
  | GitOutput stdout =>
      let currentChanges := currentChangesOf stdout in
      let newChanges := newChangesOf lastKnownChanges currentChanges in
      let emitted :=
        if (0 <? List.length newChanges)%nat then
          let config := readConfig configFile in
          let included :=
            computeIncluded reverse (focusedProjects config)
                            (downstreamHops config) in
          let allProjects := projects in
          let excluded := filter (fun p => negb (mem p included)) allProjects in
          let changed := changedProjectsOf newChanges in
          let nonFocusedChanged :=
            filter (fun proj => negb (mem proj (focusedProjects config)))
                   changed in
          if (0 <? List.length nonFocusedChanged)%nat then
            Some {| changedProjects := nonFocusedChanged;
                    included := included;
                    excluded := excluded |}
          else None
        else None in
      (currentChanges, emitted)
  end.

End Server.

(** ** The older server, [focus-ui/server.js]

    It shares [readConfig], [writeConfig], [buildGraph] and
    [addDependents] with the server above and differs in
    [computeIncluded], which has no case for an empty focus. *)

Module Legacy.

Import Js Dict.

Definition computeIncluded (reverse : dict) (focused : list string)
    (hops : Z) : list string :=
  fold_left
    (fun included proj =>
       fst (Server.addDependents reverse (Server.fuelFor hops) proj hops
              (setAdd proj included, [])))
    focused [].

End Legacy.

(** ** The handler of [POST /api/applyIdea]

    The handler reads the configuration, computes the included set,
    keeps the registry projects that are not in it and writes one
    [excludeFolder] element for each into [focus-mode.iml].  The model
    gives the list of excluded projects and the text written; a failure
    of the file system, which the handler answers with status 500, is
    outside it. *)

Module Idea.

Import Js Dict Server.

Definition dq : string := String dquote EmptyString.

(** [allProjects.filter(p => !included.has(p))] *)
Definition excludedOf (included : list string) : list string :=
  filter (fun p => negb (mem p included)) projects.

(** The [excludeFolder] element of one project. *)
Definition excludeEntry (p : string) : string :=
  "<excludeFolder url=" ++ dq ++ "file://$MODULE_DIR$/../../" ++ p
  ++ dq ++ " />".

(** The template of the module file around the exclusions. *)
Definition imlContent (excludeXml : string) : string :=
  "<?xml version=" ++ dq ++ "1.0" ++ dq ++ " encoding=" ++ dq ++ "UTF-8"
  ++ dq ++ "?>" ++ nl
  ++ "<module type=" ++ dq ++ "JAVA_MODULE" ++ dq ++ " version=" ++ dq
  ++ "4" ++ dq ++ ">" ++ nl
  ++ "  <component name=" ++ dq ++ "AdditionalModuleElements" ++ dq ++ ">"
  ++ nl
  ++ "    <content url=" ++ dq ++ "file://$MODULE_DIR$/../.." ++ dq
  ++ " dumb=" ++ dq ++ "true" ++ dq ++ ">" ++ nl
  ++ excludeXml ++ nl
  ++ "    </content>" ++ nl
  ++ "  </component>" ++ nl
  ++ "</module>".

(** The projects the handler excludes. *)
Definition ideaExcluded (configFile : option string) (reverse : dict)
    : list string :=
  let config := readConfig configFile in
  let included :=
    computeIncluded reverse (focusedProjects config) (downstreamHops config) in
  excludedOf included.

(** The text the handler writes. *)
Definition applyIdea (configFile : option string) (reverse : dict) : string :=
  let excluded := ideaExcluded configFile reverse in
  let excludeXml := join nl (map excludeEntry excluded) in
  imlContent excludeXml.

End Idea.

(** ** The dashboard, [client/src/App.tsx]

    The derived data of the component that decide what is shown as
    included: [dependentsMap] and [includedProjects].  A [Map] is an
    association list in insertion order; a node is the pair of its id and
    its label, an edge the pair of its source and its target. *)

Module Client.

Import Js Dict.

(** [if (!map.has(edge.to)) map.set(edge.to, []);
     map.get(edge.to)?.push(edge.from)] *)
Definition addEdge (m : dict) (edge : string * string) : dict :=
  let m1 := match get (snd edge) m with
            | Some _ => m
            | None => set (snd edge) [] m
            end in
  match get (snd edge) m1 with
  | Some froms => set (snd edge) (froms ++ [fst edge])%list m1
  | None => m1
  end.

(** [dependentsMap]: who depends on a project. *)
Definition dependentsMap (nodes edges : list (string * string)) : dict :=
  let map := fold_left (fun m n => set (fst n) [] m) nodes [] in
  fold_left addEdge edges map.

(** The key [`${proj}-${hops}`] of the visited set. *)
Definition visitKey (proj : string) (hops : Z) : string :=
  proj ++ "-" ++ numberToString hops.

(** [addDependents] of the component; the state is the pair of the sets
    [included] and [visited], shared by all the focused projects.
    [fuel] bounds the depth of the recursion. *)
Fixpoint addDependents (dependents : dict) (fuel : nat) (proj : string)
    (hops : Z) (st : list string * list string)
    : list string * list string :=
  match fuel with
  | O => st
  | S fuel' =>
      if (hops <? 0)%Z || mem (visitKey proj hops) (snd st) then st
      else
        let visited := setAdd (visitKey proj hops) (snd st) in
        let included :=
          if negb (mem proj (fst st)) then setAdd proj (fst st)
          else fst st in
        let deps := getOr proj dependents in
        fold_left
          (fun st dep => addDependents dependents fuel' dep (hops - 1) st)
          deps (included, visited)
  end.

(** The recursion goes from [hops] down to [-1]. *)
Definition fuelFor (hops : Z) : nat := S (S (Z.to_nat hops)).

(** [includedProjects]; [focused] lists the members of the set
    [focusedProjects] in insertion order. *)
Definition includedProjects (nodes : list (string * string))
    (dependents : dict) (focused : list string) (hops : Z) : list string :=
  if (List.length focused =? 0)%nat then
    fold_left (fun included n => setAdd (fst n) included) nodes []
  else
    fst (fold_left
           (fun st proj =>
              addDependents dependents (fuelFor hops) proj hops
                (setAdd proj (fst st), snd st))
           focused ([], [])).

End Client.

(** ** What the specification calls reachability

    [WithinHops reverse n seed p]: [p] is reached from [seed] along at
    most [n] edges of the reverse adjacency. *)

Module Reach.

Import Dict.

Inductive WithinHops (reverse : dict) : nat -> string -> string -> Prop :=
| within_self : forall n p, WithinHops reverse n p p
| within_step : forall n p q r,
    In q (getOr p reverse) ->
    WithinHops reverse n q r ->
    WithinHops reverse (S n) p r.

End Reach.

(** ** Notions used to state the properties *)

Module Notions.

Import Js Regex Dict Server.

(** Every character of [s] is in the class [cls]. *)
Fixpoint every (cls : ascii -> bool) (s : string) : bool :=
  match s with
  | EmptyString => true
  | String c s' => cls c && every cls s'
  end.

(** The character [c] occurs in [s]. *)
Fixpoint occurs (c : ascii) (s : string) : bool :=
  match s with
  | EmptyString => false
  | String d s' => Ascii.eqb c d || occurs c s'
  end.

(** [Parses p cap m cap']: the pattern [p] matches the text [m] in full;
    [cap] is the capture before the match and [cap'] the capture after
    it. *)
Fixpoint Parses (p : regex) (cap m cap' : string) : Prop :=
  match p with
  | [] => m = EmptyString /\ cap' = cap
  | Lit c :: p' => exists m', m = String c m' /\ Parses p' cap m' cap'
  | Rep cls least captured :: p' =>
      exists u m',
        m = u ++ m' /\ every cls u = true /\ (least <= length u)%nat
        /\ Parses p' (if captured then u else cap) m' cap'
  end.

(** What is left after a match when [t] is appended to the subject. *)
Definition extend (t : string) (r : option (string * string))
    : option (string * string) :=
  match r with
  | Some (cap, rest) => Some (cap, rest ++ t)
  | None => None
  end.

(** The subject is exhausted, or its next character is outside [cls]. *)
Definition stops (cls : ascii -> bool) (s : string) : Prop :=
  match s with
  | EmptyString => True
  | String c _ => cls c = false
  end.

(** No item of the pattern accepts the character [c]. *)
Fixpoint foreign (c : ascii) (p : regex) : Prop :=
  match p with
  | [] => True
  | Lit d :: p' => d <> c /\ foreign c p'
  | Rep cls _ _ :: p' => cls c = false /\ foreign c p'
  end.

(** [content] holds a well-formed focused-list statement with the list
    text [body]. *)
Definition FocusedLiteral (content body : string) : Prop :=
  exists pre ws1 ws2 post,
    content = pre ++ "ext.focusedProjects" ++ ws1 ++ "=" ++ ws2
                  ++ "[" ++ body ++ "]" ++ post
    /\ every isSpace ws1 = true /\ every isSpace ws2 = true
    /\ every notRBracket body = true.

(** [content] holds a well-formed hop statement with the digits
    [digits]. *)
Definition HopLiteral (content digits : string) : Prop :=
  exists pre ws1 ws2 post,
    content = pre ++ "ext.downstreamHops" ++ ws1 ++ "=" ++ ws2
                  ++ digits ++ post
    /\ every isSpace ws1 = true /\ every isSpace ws2 = true
    /\ digits <> EmptyString /\ every isDigit digits = true.

(** Neither a quote, nor a comma, nor a bracket. *)
Definition plainChar (c : ascii) : bool :=
  negb (isQuote c || Ascii.eqb c ","%char
        || Ascii.eqb c "["%char || Ascii.eqb c "]"%char).

(** An identifier between single quotes, as [writeConfig] writes it. *)
Definition quoted (p : string) : string := "'" ++ p ++ "'".

(** The template of [writeConfig] with the text interpolated for the hop
    bound. *)
Definition configText (focused : list string) (hopText : string) : string :=
  "ext.focusedProjects = ["
  ++ join ", " (map quoted focused) ++ "]" ++ nl
  ++ "ext.downstreamHops = " ++ hopText.

(** The forward adjacency entry of a project: the identifiers named in
    its manifest, none when the manifest is absent. *)
Definition depsOf (manifest : string -> option string) (proj : string)
    : list string :=
  match manifest proj with
  | Some content => parseManifest content
  | None => []
  end.

(** Every member of a reverse adjacency list satisfies [S]. *)
Definition dependentsWithin (S : string -> Prop) (r : dict) : Prop :=
  forall k l x, In (k, l) r -> In x l -> S x.

End Notions.

(** ** Notions used for the walk of the dashboard *)

Module ClientNotions.

Import Js Dict Reach Client.

(** Everything within [h] edges of [q] is in [inc]. *)
Definition Covered (dependents : dict) (h : Z) (q : string)
    (inc : list string) : Prop :=
  forall n r, WithinHops dependents n q r -> (Z.of_nat n <= h)%Z -> In r inc.

(** Every visited key with at most [k] hops stands for a finished walk:
    what it had to add is in the included set. *)
Definition VisitedCovered (dependents : dict) (k : Z)
    (st : list string * list string) : Prop :=
  forall q h,
    (0 <= h <= k)%Z -> In (visitKey q h) (snd st) ->
    Covered dependents h q (fst st).

(** The keys with more than [k] hops of [st'] were already in [st]. *)
Definition HigherKeysKept (k : Z) (st st' : list string * list string)
    : Prop :=
  forall q h,
    (k < h)%Z -> In (visitKey q h) (snd st') -> In (visitKey q h) (snd st).

(** One step of the loop over the dependents of a project. *)
Definition walkStep (dependents : dict) (fuel : nat) (h : Z)
    (st : list string * list string) (dep : string)
    : list string * list string :=
  Client.addDependents dependents fuel dep h st.

(** What one walk guarantees, as a statement about every walk with the
    given fuel. *)
Definition WalkSpec (dependents : dict) (fuel : nat) : Prop :=
  forall p h st,
    (Z.to_nat (h + 1) < fuel)%nat ->
    VisitedCovered dependents h st ->
    let st' := Client.addDependents dependents fuel p h st in
    incl (fst st) (fst st') /\ incl (snd st) (snd st')
    /\ VisitedCovered dependents h st'
    /\ ((0 <= h)%Z -> Covered dependents h p (fst st'))
    /\ HigherKeysKept h st st'.

(** The sources of the edges into [to], in the order of the edges. *)
Definition sourcesInto (to : string) (edges : list (string * string))
    : list string :=
  map fst (filter (fun e => String.eqb (snd e) to) edges).

End ClientNotions.

(** ** The statements of the configuration file *)

Module ConfigNotions.

Import Js Regex Dict Server Notions.

Definition focusedKey : string := "ext.focusedProjects".
Definition hopsKey : string := "ext.downstreamHops".

(** The text [k] occurs in [s]. *)
Fixpoint contains (k s : string) : bool :=
  String.prefix k s
  || match s with
     | String _ s' => contains k s'
     | EmptyString => false
     end.

(** The non-empty ends of [s], longest first. *)
Fixpoint tails (s : string) : list string :=
  match s with
  | EmptyString => []
  | String _ s' => s :: tails s'
  end.

(** [listStr.split(',').map(s => s.trim().replace(/^['"]|['"]$/g, ''))
    .filter(s => s)]: the identifiers read from the text between the
    brackets. *)
Definition items (listStr : string) : list string :=
  filter truthy (map (fun s => unquote (trim s)) (split ","%char listStr)).

(** [s] starts with a hop statement whose number starts with the digits
    [digits]. *)
Definition HopStatementAt (s digits : string) : Prop :=
  exists ws1 ws2 post,
    s = hopsKey ++ ws1 ++ "=" ++ ws2 ++ digits ++ post
    /\ every isSpace ws1 = true /\ every isSpace ws2 = true
    /\ digits <> EmptyString /\ every isDigit digits = true.

(** No hop statement starts in [pre] when [s] follows it. *)
Definition noStatementBefore (pre s : string) : Prop :=
  forall a b digits,
    pre = a ++ b -> b <> EmptyString -> ~ HopStatementAt (b ++ s) digits.

End ConfigNotions.

(** ** Exceptions

    The functions of [Server] and [Idea] with the exceptions of the
    program written out.  A result is [Normal] when the function
    returns and [Throw] when an exception leaves it. *)

Module Strict.

Import Js Dict Server.

Inductive completion (A : Type) : Type :=
| Normal (a : A)
| Throw.

Arguments Normal {A} a.
Arguments Throw {A}.

Definition bind {A B : Type} (c : completion A) (f : A -> completion B)
    : completion B :=
  match c with
  | Normal a => f a
  | Throw => Throw
  end.

(** The path of [focus-config.gradle]: nothing there, something that
    [fs.existsSync] sees and [fs.readFileSync] cannot read (a directory,
    a file without read permission), or a file with its content. *)
Inductive configPath : Type :=
| Missing
| Unreadable
| Readable (content : string).

Definition onDisk (file : option string) : configPath :=
  match file with
  | Some content => Readable content
  | None => Missing
  end.

(** [readConfig]: [fs.readFileSync] throws on a path it cannot read. *)
Definition readConfig (path : configPath) : completion FocusConfig :=
  match path with
  | Missing => Normal (Server.readConfig None)
  | Unreadable => Throw
  | Readable content => Normal (Server.readConfig (Some content))
  end.

(** The names defined by [Object.prototype].  Under such a name a plain
    object without an own key of that name holds a function, or
    [Object.prototype] itself for [__proto__]: a value that is truthy and
    has no [forEach]. *)
Definition prototypeMembers : list string :=
  ["constructor"; "__defineGetter__"; "__defineSetter__"; "hasOwnProperty";
   "__lookupGetter__"; "__lookupSetter__"; "isPrototypeOf";
   "propertyIsEnumerable"; "toString"; "valueOf"; "__proto__";
   "toLocaleString"].

Definition plainName (p : string) : bool := negb (mem p prototypeMembers).

(** [reverseDepMap[proj] || []] as the receiver of [forEach]: the own
    value, the empty array for a name that is not defined, and [None]
    for an inherited member, on which [forEach] is not a function. *)
Definition dependentsOf (reverse : dict) (proj : string)
    : option (list string) :=
  match get proj reverse with
  | Some v => Some v
  | None => if mem proj prototypeMembers then None else Some []
  end.

(** [addDependents]: the call [dependents.forEach], made when [hops] is
    positive, throws when [dependents] is not an array. *)
Fixpoint addDependents (reverse : dict) (fuel : nat) (proj : string)
    (hops : Z) (st : list string * list string)
    : completion (list string * list string) :=
  match fuel with
  | O => Normal st
  | S fuel' =>
      if (hops <? 0)%Z || mem proj (snd st) then Normal st
      else
        let visited := setAdd proj (snd st) in
        if (0 <? hops)%Z then
          match dependentsOf reverse proj with
          | Some dependents =>
              fold_left
                (fun acc dep =>
                   bind acc (fun st =>
                     if mem dep (fst st) then Normal st
                     else addDependents reverse fuel' dep (hops - 1)
                            (setAdd dep (fst st), snd st)))
                dependents (Normal (fst st, visited))
          | None => Throw
          end
        else Normal (fst st, visited)
  end.

(** [computeIncluded] of the server with change notifications. *)
Definition computeIncluded (reverse : dict) (focused : list string)
    (hops : Z) : completion (list string) :=
  if (List.length focused =? 0)%nat then
    Normal
      (fold_left (fun included i => setAdd (projectId i) included)
                 (seq 1 100) [])
  else
    fold_left
      (fun acc proj =>
         bind acc (fun included =>
           bind (addDependents reverse (fuelFor hops) proj hops
                   (setAdd proj included, []))
                (fun st => Normal (fst st))))
      focused (Normal []).

(** One run of the callback of [checkGitChanges].  An exception leaves
    the callback before [lastKnownChanges] is assigned and before
    anything is emitted. *)
Definition checkGitChanges (path : configPath) (reverse : dict)
    (lastKnownChanges : list string) (result : gitResult)
    : completion (list string * option ChangeEvent) :=
  match result with
  | GitError => Normal (lastKnownChanges, None)
  | GitOutput stdout =>
      let currentChanges := currentChangesOf stdout in
      let newChanges := newChangesOf lastKnownChanges currentChanges in
      if (0 <? List.length newChanges)%nat then
        bind (readConfig path) (fun config =>
        bind (computeIncluded reverse (focusedProjects config)
                              (downstreamHops config)) (fun included =>
          let allProjects := projects in
          let excluded := filter (fun p => negb (mem p included)) allProjects in
          let changed := changedProjectsOf newChanges in
          let nonFocusedChanged :=
            filter (fun proj => negb (mem proj (focusedProjects config)))
                   changed in
          Normal
            (currentChanges,
             if (0 <? List.length nonFocusedChanged)%nat then
               Some {| changedProjects := nonFocusedChanged;
                       included := included;
                       excluded := excluded |}
             else None)))
      else Normal (currentChanges, None)
  end.

(** The projects the handler of [POST /api/applyIdea] excludes; on
    [Throw] the handler answers with status 500 and writes nothing. *)
Definition ideaExcluded (path : configPath) (reverse : dict)
    : completion (list string) :=
  bind (readConfig path) (fun config =>
  bind (computeIncluded reverse (focusedProjects config)
                        (downstreamHops config)) (fun included =>
    Normal (Idea.excludedOf included))).

(** The text the handler hands to [fs.writeFileSync]. *)
Definition applyIdea (path : configPath) (reverse : dict)
    : completion string :=
  bind (ideaExcluded path reverse) (fun excluded =>
    Normal (Idea.imlContent (join nl (map Idea.excludeEntry excluded)))).

(** Every member of a reverse adjacency list is a plain name. *)
Definition plainDependents (reverse : dict) : Prop :=
  Notions.dependentsWithin (fun x => plainName x = true) reverse.

(** A condition under which no lookup of the walk finds an inherited
    member: there is no hop to make, or the focused names are plain and,
    when more than one hop is made, so are the dependents. *)
Definition lookupsSafe (reverse : dict) (focused : list string) (hops : Z)
    : Prop :=
  (hops <= 0)%Z
  \/ ((forall s, In s focused -> plainName s = true)
      /\ ((hops <= 1)%Z \/ plainDependents reverse)).

End Strict.

(** ** The status output *)

Module WatcherNotions.

Import Js Server Notions.

Definition notSpace (c : ascii) : bool := negb (isSpace c).

(** One line of [git status --porcelain]: the two status characters, a
    blank and the path. *)
Definition statusLine (e : string * string) : string :=
  fst e ++ " " ++ snd e.

(** The output for a list of entries, each line ended by a line feed. *)
Fixpoint porcelain (entries : list (string * string)) : string :=
  match entries with
  | [] => EmptyString
  | e :: rest => statusLine e ++ nl ++ porcelain rest
  end.

(** An entry with a two-character status that is not blank and has no
    line feed, and a non-empty path without blanks. *)
Definition goodEntry (e : string * string) : Prop :=
  length (fst e) = 2%nat
  /\ occurs "010" (fst e) = false
  /\ truthy (trim (fst e)) = true
  /\ snd e <> EmptyString
  /\ every notSpace (snd e) = true.

(** A line the parser reads as it stands: no line feed inside, no blank
    at its end, not empty. *)
Definition plainLine (l : string) : Prop :=
  occurs "010" l = false /\ trimEnd l = l /\ l <> EmptyString.

(** The body of the loop over the lines in [checkGitChanges]. *)
Definition recordLine (current : list string) (line : string)
    : list string :=
  if truthy (trim (substringTo 2 line))
  then setAdd (substringFrom 3 line) current
  else current.

End WatcherNotions.

(** ** Inputs used in the examples *)

Module Fixtures.

Import Js Dict Server.

(** Five manifests: 002 depends on 001, 003 on 002, 004 on 001 and on
    003, 005 on 004; no other project has a manifest. *)
Definition ladderManifests (proj : string) : option string :=
  if String.eqb proj "project-002" then
    Some "dependencies { implementation focusedDep(':project-001') }"
  else if String.eqb proj "project-003" then
    Some "dependencies { implementation focusedDep(':project-002') }"
  else if String.eqb proj "project-004" then
    Some ("dependencies { implementation focusedDep(':project-001')" ++ nl
          ++ " implementation focusedDep(':project-003') }")
  else if String.eqb proj "project-005" then
    Some "dependencies { implementation focusedDep(':project-004') }"
  else None.

Definition ladder : dict := reverseDepMap (buildGraph ladderManifests).

(** One manifest naming a project outside the registry. *)
Definition strayManifests (proj : string) : option string :=
  if String.eqb proj "project-001" then
    Some "dependencies { implementation focusedDep(':project-999') }"
  else None.

(** A configuration file focusing project-001 with hop bound 1. *)
Definition focusOnFirst : option string :=
  Some (writeConfig ["project-001"] 1).


Definition mixedEdits : string :=
  "?? project-002/b.txt" ++ nl ++ "M  project-001/x" ++ nl.


(** The event published for [mixedEdits] under [focusOnFirst]. *)
Definition mixedEvent : ChangeEvent :=
  let inc := ["project-001"; "project-002"; "project-004"] in
  {| changedProjects := ["project-002"];
     included := inc;
     excluded := filter (fun p => negb (mem p inc)) projects |}.

(** A chain: 001 depends on 002 and 002 on 003. *)
Definition chainManifests (proj : string) : option string :=
  if String.eqb proj "project-001" then
    Some "dependencies { implementation focusedDep(':project-002') }"
  else if String.eqb proj "project-002" then
    Some "dependencies { implementation focusedDep(':project-003') }"
  else None.

Definition chain : dict := reverseDepMap (buildGraph chainManifests).

(** Two successive status outputs: one dirty path, then the same path
    and a new one. *)
Definition firstStatus : string := "?? project-001/x.txt" ++ nl.

Definition secondStatus : string :=
  "?? project-001/x.txt" ++ nl ++ "?? project-002/y.txt" ++ nl.

(** A hand-edited file: the list is not closed and there is no hop
    statement. *)
Definition unclosedList : string := "ext.focusedProjects = ['a', 'b'".

(** Hand-edited files whose statements are not what [writeConfig]
    writes and are read all the same: a list without quotes, a list that
    is closed only by the bracket of a later line, and a negative hop
    bound followed by a comment that holds a hop statement. *)
Definition bareList : string := "ext.focusedProjects = [a, b c]".

Definition runawayList : string :=
  "ext.focusedProjects = ['project-001'" ++ nl ++ "ext.other = [1]".

Definition commentedHops : string :=
  "ext.downstreamHops = -5 // was ext.downstreamHops = 3".

(** A configuration file focusing a name of [Object.prototype]. *)
Definition focusOnConstructor : option string :=
  Some (writeConfig ["constructor"] 1).

(** A hand-edited file with loose spacing and an unquoted identifier. *)
Definition looseFile : string :=
  "ext.focusedProjects = [ 'a' , b c ]" ++ nl ++ "ext.downstreamHops=3".

End Fixtures.

(** * Properties *)

(** ** Sets as lists *)

Module JsFacts.

Import Js.

Lemma mem_In (x : string) (xs : list string) : mem x xs = true <-> In x xs.
Proof.
  induction xs as [|y ys IH]; simpl.
  - split; [discriminate | tauto].
  - rewrite orb_true_iff, IH, String.eqb_eq. split; intros [H|H]; auto.
Qed.

Lemma mem_false (x : string) (xs : list string) :
  mem x xs = false <-> ~ In x xs.
Proof.
  rewrite <- mem_In. destruct (mem x xs); split; congruence.
Qed.

Lemma In_setAdd (x y : string) (xs : list string) :
  In y (setAdd x xs) <-> y = x \/ In y xs.
Proof.
  unfold setAdd. destruct (mem x xs) eqn:E.
  - apply mem_In in E. split; [auto | intros [->|H]; auto].
  - rewrite in_app_iff. simpl. split; intros H; intuition.
Qed.

Lemma NoDup_setAdd (x : string) (xs : list string) :
  NoDup xs -> NoDup (setAdd x xs).
Proof.
  intros H. unfold setAdd. destruct (mem x xs) eqn:E; [assumption|].
  apply mem_false in E.
  apply NoDup_rev in H. rewrite <- (rev_involutive (xs ++ [x])%list).
  apply NoDup_rev. rewrite rev_app_distr. simpl. constructor.
  - rewrite <- in_rev. assumption.
  - assumption.
Qed.

Lemma fold_setAdd_In (xs acc : list string) (y : string) :
  In y (fold_left (fun s x => setAdd x s) xs acc) <-> In y xs \/ In y acc.
Proof.
  revert acc. induction xs as [|x xs IH]; intros acc; simpl.
  - tauto.
  - rewrite IH, In_setAdd. intuition.
Qed.

Lemma fold_setAdd_NoDup (xs acc : list string) :
  NoDup acc -> NoDup (fold_left (fun s x => setAdd x s) xs acc).
Proof.
  revert acc. induction xs as [|x xs IH]; intros acc H; simpl; auto.
  apply IH, NoDup_setAdd, H.
Qed.

Lemma In_setOf (xs : list string) (y : string) : In y (setOf xs) <-> In y xs.
Proof.
  unfold setOf. rewrite fold_setAdd_In. simpl. tauto.
Qed.

Lemma NoDup_setOf (xs : list string) : NoDup (setOf xs).
Proof. apply fold_setAdd_NoDup. constructor. Qed.

Lemma fold_left_pointwise {A B : Type} (f g : A -> B -> A) (l : list B) :
  (forall a b, In b l -> f a b = g a b) ->
  forall a, fold_left f l a = fold_left g l a.
Proof.
  induction l as [|b l IH]; intros H a; simpl; [reflexivity|].
  rewrite H by (left; reflexivity). apply IH.
  intros a' b' Hb. apply H. right. assumption.
Qed.

End JsFacts.

(** ** The included set *)

Module IncludedFacts.

Import Js Dict Server JsFacts Reach.

Lemma addDependents_unfold reverse fuel proj hops st :
  addDependents reverse (S fuel) proj hops st =
  if (hops <? 0)%Z || mem proj (snd st) then st
  else if (0 <? hops)%Z then
    fold_left
      (fun st dep =>
         if mem dep (fst st) then st
         else addDependents reverse fuel dep (hops - 1)
                (setAdd dep (fst st), snd st))
      (getOr proj reverse) (fst st, setAdd proj (snd st))
  else (fst st, setAdd proj (snd st)).
Proof. reflexivity. Qed.

(** The fuel given by [fuelFor] is enough: any larger amount yields the
    same sets, so the bound on the recursion is never what stops it. *)
Lemma addDependents_fuel reverse :
  forall f1 f2 proj hops st,
    (Z.to_nat hops < f1)%nat -> (Z.to_nat hops < f2)%nat ->
    addDependents reverse f1 proj hops st =
    addDependents reverse f2 proj hops st.
Proof.
  induction f1 as [|f1 IH]; intros f2 proj hops st H1 H2; [lia|].
  destruct f2 as [|f2]; [lia|].
  rewrite !addDependents_unfold.
  destruct ((hops <? 0)%Z || mem proj (snd st)); [reflexivity|].
  destruct (0 <? hops)%Z eqn:Hpos; [|reflexivity].
  apply Z.ltb_lt in Hpos.
  apply fold_left_pointwise. intros a dep _.
  destruct (mem dep (fst a)); [reflexivity|].
  apply IH; lia.
Qed.

Lemma addDependents_no_hops reverse proj st :
  addDependents reverse (fuelFor 0) proj 0 st =
  if mem proj (snd st) then st else (fst st, setAdd proj (snd st)).
Proof. reflexivity. Qed.

Lemma computeIncluded_nonempty reverse focused hops :
  focused <> [] ->
  computeIncluded reverse focused hops =
  Legacy.computeIncluded reverse focused hops.
Proof.
  intros H. unfold computeIncluded, Legacy.computeIncluded.
  destruct focused; [congruence | reflexivity].
Qed.

Lemma legacy_no_hops reverse focused :
  Legacy.computeIncluded reverse focused 0 = setOf focused.
Proof.
  unfold Legacy.computeIncluded, setOf.
  apply fold_left_pointwise. intros a b _.
  rewrite addDependents_no_hops. reflexivity.
Qed.

(** The older server gives the empty set for an empty focus. *)
Lemma legacy_empty_focus reverse hops :
  Legacy.computeIncluded reverse [] hops = [].
Proof. reflexivity. Qed.

Lemma projects_registry :
  List.length projects = 100%nat
  /\ nth 0 projects "" = "project-001"
  /\ nth 99 projects "" = "project-100"
  /\ NoDup projects.
Proof.
  repeat split; try reflexivity.
  assert (H : forallb (fun p => Nat.eqb (count_occ string_dec projects p) 1)
                      projects = true) by (vm_compute; reflexivity).
  apply (NoDup_count_occ' string_dec). intros x Hx.
  rewrite forallb_forall in H. apply Nat.eqb_eq, H, Hx.
Qed.

(** C3: with an empty focused set [computeIncluded] returns the whole
    registry, project-001 to project-100 in this order, whatever the
    graph and the hop bound. *)
Theorem computeIncluded_empty_focus_is_universe :
  forall (reverse : dict) (hops : Z),
    computeIncluded reverse [] hops = projects
    /\ (forall p, In p (computeIncluded reverse [] hops) <->
                  exists i, (1 <= i <= 100)%nat /\ p = projectId i).
Proof.
  intros reverse hops.
  assert (E : computeIncluded reverse [] hops = projects)
    by (vm_compute; reflexivity).
  split; [exact E|]. intros p. rewrite E. unfold projects.
  rewrite in_map_iff. split.
  - intros [i [<- Hi]]. apply in_seq in Hi. exists i. split; [lia|reflexivity].
  - intros [i [Hi ->]]. exists i. split; [reflexivity|]. apply in_seq. lia.
Qed.

(** C4, as stated, at the empty focused set: the result is not the
    empty set. *)
Lemma computeIncluded_no_hops_empty_focus_counterexample :
  ~ (forall (reverse : dict) (focused : list string) (p : string),
       In p (computeIncluded reverse focused 0) <-> In p focused).
Proof.
  intros H. destruct (H [] [] "project-001") as [H1 _].
  assert (Hin : In "project-001" (computeIncluded [] [] 0))
    by (apply (proj1 (mem_In _ _)); vm_compute; reflexivity).
  exact (H1 Hin).
Qed.

(** C4, amended: for a non-empty focused set and hop bound 0 the result
    is the focused set itself, each identifier once in the order of its
    first occurrence, and nothing is added along the reverse adjacency. *)
Theorem computeIncluded_no_hops :
  forall (reverse : dict) (focused : list string),
    focused <> [] ->
    computeIncluded reverse focused 0 = setOf focused
    /\ (forall p, In p (computeIncluded reverse focused 0) <-> In p focused)
    /\ NoDup (computeIncluded reverse focused 0).
Proof.
  intros reverse focused H.
  rewrite (computeIncluded_nonempty _ _ _ H), legacy_no_hops.
  split; [reflexivity|]. split; [intros p; apply In_setOf | apply NoDup_setOf].
Qed.

Lemma computeIncluded_no_hops_witness :
  ["project-001"] <> []
  /\ computeIncluded Fixtures.ladder ["project-001"] 0 = ["project-001"].
Proof.
  assert (H : ["project-001"] <> []) by discriminate.
  split; [exact H|].
  exact (proj1 (computeIncluded_no_hops Fixtures.ladder ["project-001"] H)).
Defined.

(** *** What the walk does guarantee *)

Lemma fold_left_invariant {A B : Type} (Inv : A -> Prop) (f : A -> B -> A)
    (l : list B) :
  (forall a b, In b l -> Inv a -> Inv (f a b)) ->
  forall a, Inv a -> Inv (fold_left f l a).
Proof.
  induction l as [|b l IH]; intros H a Ha; simpl; [exact Ha|].
  apply IH.
  - intros a' b' Hb'. apply H. right. exact Hb'.
  - apply H; [left; reflexivity | exact Ha].
Qed.

Lemma fold_left_reaches {A B : Type} (Q : B -> A -> Prop) (f : A -> B -> A)
    (l : list B) :
  (forall a b b', Q b' a -> Q b' (f a b)) ->
  (forall a b, Q b (f a b)) ->
  forall a b, In b l -> Q b (fold_left f l a).
Proof.
  intros Keep Add. induction l as [|x l IH]; intros a b Hb; [destruct Hb|].
  simpl. destruct Hb as [<- | Hb]; [|apply IH, Hb].
  apply (fold_left_invariant (Q x)); [|apply Add].
  intros a' b' _. apply Keep.
Qed.

Lemma within_more reverse n p q :
  WithinHops reverse n p q -> forall m, (n <= m)%nat -> WithinHops reverse m p q.
Proof.
  induction 1 as [n p | n p q r Hq _ IH]; intros m Hm.
  - apply within_self.
  - destruct m as [|m]; [lia|].
    apply within_step with (q := q); [exact Hq | apply IH; lia].
Qed.

Lemma within_snoc reverse n p q r :
  WithinHops reverse n p q ->
  In r (getOr q reverse) ->
  WithinHops reverse (S n) p r.
Proof.
  induction 1 as [n p | n p q x Hq _ IH]; intros Hr.
  - apply within_step with (q := r); [exact Hr | apply within_self].
  - apply within_step with (q := q); [exact Hq | apply IH, Hr].
Qed.

(** The included set only grows. *)
Lemma addDependents_grows reverse :
  forall fuel proj hops st x,
    In x (fst st) -> In x (fst (addDependents reverse fuel proj hops st)).
Proof.
  induction fuel as [|fuel IH]; intros proj hops st x Hx; [exact Hx|].
  rewrite addDependents_unfold.
  destruct ((hops <? 0)%Z || mem proj (snd st)); [exact Hx|].
  destruct (0 <? hops)%Z; [|exact Hx].
  apply (fold_left_invariant (fun st => In x (fst st))); [|exact Hx].
  intros a dep _ Ha. destruct (mem dep (fst a)); [exact Ha|].
  apply IH. simpl. apply In_setAdd. right. exact Ha.
Qed.

Section Walk.
Variable reverse : dict.
Variable seed : string.
Variable bound : nat.
Variable P : string -> Prop.
Hypothesis P_within :
  forall k p, WithinHops reverse k seed p -> (k <= bound)%nat -> P p.

(** Whatever a walk adds is within the hops that were left when it
    started. *)
Lemma addDependents_within :
  forall fuel proj hops st k,
    WithinHops reverse k seed proj ->
    (k + Z.to_nat hops <= bound)%nat ->
    (forall x, In x (fst st) -> P x) ->
    forall x, In x (fst (addDependents reverse fuel proj hops st)) -> P x.
Proof.
  induction fuel as [|fuel IH]; intros proj hops st k Hk Hb Hst;
    [exact Hst|].
  rewrite addDependents_unfold.
  destruct ((hops <? 0)%Z || mem proj (snd st)); [exact Hst|].
  destruct (0 <? hops)%Z eqn:Hpos; [|exact Hst].
  apply Z.ltb_lt in Hpos.
  apply (fold_left_invariant (fun st => forall x, In x (fst st) -> P x));
    [|exact Hst].
  intros a dep Hdep Ha. destruct (mem dep (fst a)); [exact Ha|].
  assert (Hd : WithinHops reverse (S k) seed dep)
    by (apply within_snoc with (q := proj); assumption).
  apply (IH dep (hops - 1)%Z _ (S k) Hd); [lia|].
  simpl. intros x Hx. apply In_setAdd in Hx. destruct Hx as [-> | Hx].
  - apply (P_within (S k)); [exact Hd | lia].
  - apply Ha, Hx.
Qed.

End Walk.

(** A walk that starts with hops to spare on an unvisited project adds
    every direct dependent of that project. *)
Lemma addDependents_direct reverse fuel proj hops st dep :
  (0 < hops)%Z ->
  mem proj (snd st) = false ->
  In dep (getOr proj reverse) ->
  In dep (fst (addDependents reverse (S fuel) proj hops st)).
Proof.
  intros Hpos Hv Hdep. rewrite addDependents_unfold, Hv.
  destruct (hops <? 0)%Z eqn:Hneg; [apply Z.ltb_lt in Hneg; lia|].
  apply Z.ltb_lt in Hpos. rewrite Hpos. cbv iota. simpl orb. cbv iota.
  apply (fold_left_reaches (fun d st => In d (fst st))); [| |exact Hdep].
  - intros a b b' Hb'. destruct (mem b (fst a)); [exact Hb'|].
    apply addDependents_grows. simpl. apply In_setAdd. right. exact Hb'.
  - intros a b. destruct (mem b (fst a)) eqn:E; [apply mem_In, E|].
    apply addDependents_grows. simpl. apply In_setAdd. left. reflexivity.
Qed.

(** Soundness of [computeIncluded] for a non-empty focus: every project of
    the result is a focused project or lies within the hop bound of one
    along the reverse adjacency. *)
Lemma computeIncluded_sound reverse focused hops p :
  focused <> [] ->
  In p (computeIncluded reverse focused hops) ->
  exists seed,
    In seed focused /\ WithinHops reverse (Z.to_nat hops) seed p.
Proof.
  intros Hne. rewrite (computeIncluded_nonempty _ _ _ Hne).
  unfold Legacy.computeIncluded.
  set (Reached := fun x => exists seed,
                    In seed focused
                    /\ WithinHops reverse (Z.to_nat hops) seed x).
  revert p.
  apply (fold_left_invariant (fun inc => forall x, In x inc -> Reached x));
    [|intros x []].
  intros inc proj Hproj Hinc.
  apply (addDependents_within reverse proj (Z.to_nat hops) Reached)
    with (k := 0%nat).
  - intros k q Hq Hk. exists proj. split; [exact Hproj|].
    apply (within_more _ _ _ _ Hq), Hk.
  - apply within_self.
  - lia.
  - simpl. intros x Hx. apply In_setAdd in Hx. destruct Hx as [-> | Hx].
    + exists proj. split; [exact Hproj | apply within_self].
    + apply Hinc, Hx.
Qed.

(** Every focused project is in the result, and with a positive hop bound
    so is every direct dependent of a focused project. *)
Lemma computeIncluded_seeds_and_dependents reverse focused hops seed :
  In seed focused ->
  In seed (computeIncluded reverse focused hops)
  /\ ((0 < hops)%Z ->
      forall dep, In dep (getOr seed reverse) ->
                  In dep (computeIncluded reverse focused hops)).
Proof.
  intros Hseed.
  assert (Hne : focused <> []) by (intros ->; destruct Hseed).
  rewrite (computeIncluded_nonempty _ _ _ Hne).
  unfold Legacy.computeIncluded.
  apply (fold_left_reaches
           (fun s inc =>
              In s inc
              /\ ((0 < hops)%Z ->
                  forall dep, In dep (getOr s reverse) -> In dep inc)));
    [| |exact Hseed].
  - intros inc proj s [Hs Hd]. split.
    + apply addDependents_grows. simpl. apply In_setAdd. right. exact Hs.
    + intros Hpos dep Hdep. apply addDependents_grows. simpl.
      apply In_setAdd. right. apply Hd; assumption.
  - intros inc proj. split.
    + apply addDependents_grows. simpl. apply In_setAdd. left. reflexivity.
    + intros Hpos dep Hdep. apply addDependents_direct; auto.
Qed.

(** With hop bound 1 the result is exactly the focused projects and their
    direct dependents. *)
Lemma computeIncluded_one_hop reverse focused p :
  focused <> [] ->
  In p (computeIncluded reverse focused 1) <->
  exists seed, In seed focused /\ WithinHops reverse 1 seed p.
Proof.
  intros Hne. split.
  - intros H. exact (computeIncluded_sound reverse focused 1 p Hne H).
  - intros [seed [Hseed Hw]].
    destruct (computeIncluded_seeds_and_dependents reverse focused 1 seed Hseed)
      as [Hs Hd].
    inversion Hw as [| n a q r Hq Hr]; subst; [exact Hs|].
    inversion Hr; subst. apply Hd; [lia | exact Hq].
Qed.

(** The graph of the examples, as [buildGraph] leaves it. *)
Lemma ladder_reverse :
  Fixtures.ladder =
  [("project-001", ["project-002"; "project-004"]);
   ("project-002", ["project-003"]);
   ("project-003", ["project-004"]);
   ("project-004", ["project-005"])].
Proof. vm_compute. reflexivity. Qed.

(** C1 at a failing input: with the five manifests of [ladderManifests],
    focus project-001 and hop bound 3, project-005 is two reverse edges
    away from the seed (through project-004) and is not in the result. *)
Theorem computeIncluded_misses_near_dependent :
  computeIncluded Fixtures.ladder ["project-001"] 3 =
    ["project-001"; "project-002"; "project-003"; "project-004"]
  /\ WithinHops Fixtures.ladder 3 "project-001" "project-005"
  /\ ~ In "project-005" (computeIncluded Fixtures.ladder ["project-001"] 3).
Proof.
  assert (E : computeIncluded Fixtures.ladder ["project-001"] 3 =
              ["project-001"; "project-002"; "project-003"; "project-004"])
    by (vm_compute; reflexivity).
  split; [exact E|]. split.
  - apply within_step with (q := "project-004").
    + rewrite ladder_reverse. simpl. auto.
    + apply within_step with (q := "project-005").
      * rewrite ladder_reverse. simpl. auto.
      * apply within_self.
  - rewrite E. apply (proj1 (mem_false _ _)). vm_compute. reflexivity.
Qed.

(** C2 at a failing input: on the same graph and focus, project-005 is
    in the result for hop bound 2 and not in the result for hop bound 3. *)
Theorem computeIncluded_not_monotone :
  In "project-005" (computeIncluded Fixtures.ladder ["project-001"] 2)
  /\ ~ In "project-005" (computeIncluded Fixtures.ladder ["project-001"] 3).
Proof.
  split.
  - apply (proj1 (mem_In _ _)). vm_compute. reflexivity.
  - apply (proj1 (mem_false _ _)). vm_compute. reflexivity.
Qed.

End IncludedFacts.

(** ** The change watcher *)

Module WatcherFacts.

Import Js Dict Server JsFacts.

Lemma changed_fold_In (news acc : list string) (p : string) :
  In p (fold_left
          (fun changed change =>
             match projectOf change with
             | Some proj => setAdd proj changed
             | None => changed
             end) news acc)
  <-> In p acc \/ exists change, In change news /\ projectOf change = Some p.
Proof.
  revert acc. induction news as [|c news IH]; intros acc; simpl.
  - split; [auto | intros [H | [c [[] _]]]; exact H].
  - rewrite IH. destruct (projectOf c) as [q|] eqn:Eq.
    + rewrite In_setAdd. split.
      * intros [[-> | H] | [d [Hd Hp]]]; eauto.
      * intros [H | [d [[<- | Hd] Hp]]]; eauto.
        left. left. congruence.
    + split.
      * intros [H | [d [Hd Hp]]]; eauto.
      * intros [H | [d [[<- | Hd] Hp]]]; eauto. congruence.
Qed.

(** The changed projects of a tick are the projects named by the leading
    segment of a new path. *)
Lemma changedProjectsOf_In (news : list string) (p : string) :
  In p (changedProjectsOf news)
  <-> exists change, In change news /\ projectOf change = Some p.
Proof.
  unfold changedProjectsOf. rewrite changed_fold_In. simpl.
  split; [intros [[] | H]; exact H | auto].
Qed.

Lemma positive_length {A : Type} (l : list A) :
  (0 <? List.length l)%nat = false <-> l = [].
Proof.
  destruct l; simpl; split; intros H; try reflexivity; discriminate.
Qed.

Lemma filter_nil_iff {A : Type} (f : A -> bool) (l : list A) :
  filter f l = [] <-> forall x, In x l -> f x = false.
Proof.
  induction l as [|a l IH]; simpl.
  - split; [intros _ x [] | reflexivity].
  - destruct (f a) eqn:E.
    + split; [discriminate|]. intros H. specialize (H a (or_introl eq_refl)).
      congruence.
    + rewrite IH. split.
      * intros H x [<- | Hx]; auto.
      * intros H x Hx. apply H. right. exact Hx.
Qed.

(** The event of a tick, when there is one, is built from the projects of
    the new paths that are not focused. *)
Lemma checkGitChanges_event configFile reverse last stdout :
  snd (checkGitChanges configFile reverse last (GitOutput stdout)) =
  let config := readConfig configFile in
  let news := newChangesOf last (currentChangesOf stdout) in
  let nonFocused :=
    filter (fun proj => negb (mem proj (focusedProjects config)))
           (changedProjectsOf news) in
  let inc := computeIncluded reverse (focusedProjects config)
                             (downstreamHops config) in
  match news, nonFocused with
  | [], _ | _, [] => None
  | _, _ =>
      Some {| changedProjects := nonFocused;
              included := inc;
              excluded := filter (fun p => negb (mem p inc)) projects |}
  end.
Proof.
  unfold checkGitChanges. cbv zeta. unfold snd.
  destruct (newChangesOf last (currentChangesOf stdout)) as [|c news];
    [reflexivity|].
  change (0 <? List.length (c :: news))%nat with true. cbv iota.
  destruct (filter _ (changedProjectsOf (c :: news))); reflexivity.
Qed.


(** A tick publishes an event exactly when some new path names a project
    that is not in the focused set; the included set plays no part in the
    decision. *)
Lemma no_event_iff_new_changes_focused :
  forall configFile reverse last stdout,
    (forall change p,
        In change (newChangesOf last (currentChangesOf stdout)) ->
        projectOf change = Some p ->
        In p (focusedProjects (readConfig configFile)))
    <-> snd (checkGitChanges configFile reverse last (GitOutput stdout)) = None.
Proof.
  intros configFile reverse last stdout.
  rewrite checkGitChanges_event. cbv zeta.
  set (news := newChangesOf last (currentChangesOf stdout)).
  set (focused := focusedProjects (readConfig configFile)).
  assert (K : filter (fun proj => negb (mem proj focused))
                     (changedProjectsOf news) = []
              <-> forall change p, In change news ->
                                   projectOf change = Some p -> In p focused).
  { rewrite filter_nil_iff. split.
    - intros H change p Hc Hp. apply mem_In.
      apply negb_false_iff, H, changedProjectsOf_In. eauto.
    - intros H p Hp. apply changedProjectsOf_In in Hp.
      destruct Hp as [change [Hc Hp]].
      apply negb_false_iff, mem_In. eauto. }
  destruct news as [|c news'] eqn:En.
  - split; [reflexivity | intros _ change p []].
  - rewrite <- K.
    destruct (filter _ (changedProjectsOf (c :: news'))); split;
      congruence.
Qed.

(** A failed status query leaves the snapshot as it was and publishes
    nothing. *)
Lemma checkGitChanges_error configFile reverse last :
  checkGitChanges configFile reverse last GitError = (last, None).
Proof. reflexivity. Qed.

(** The snapshot is replaced by the current set whether or not an event
    was published. *)
Lemma checkGitChanges_snapshot configFile reverse last stdout :
  fst (checkGitChanges configFile reverse last (GitOutput stdout)) =
  currentChangesOf stdout.
Proof. reflexivity. Qed.





End WatcherFacts.

(** ** The dependency graph *)

Module GraphFacts.

Import Js Regex Dict Server Notions JsFacts.

Lemma get_set (k q : string) (v : list string) (d : dict) :
  get k (set q v d) = if String.eqb k q then Some v else get k d.
Proof.
  induction d as [|[k' v'] d IH]; simpl.
  - destruct (String.eqb k q); reflexivity.
  - destruct (String.eqb q k') eqn:Eq; simpl.
    + apply String.eqb_eq in Eq. subst k'.
      destruct (String.eqb k q); reflexivity.
    + rewrite IH. destruct (String.eqb k k') eqn:Ek; [|reflexivity].
      apply String.eqb_eq in Ek. subst k'.
      rewrite String.eqb_sym, Eq. reflexivity.
Qed.

Lemma get_In (k : string) (v : list string) (d : dict) :
  get k d = Some v -> In (k, v) d.
Proof.
  induction d as [|[k' v'] d IH]; simpl; [discriminate|].
  destruct (String.eqb k k') eqn:E.
  - apply String.eqb_eq in E. intros [= ->]. left. congruence.
  - intros H. right. apply IH, H.
Qed.

Lemma In_set (k q : string) (v w : list string) (d : dict) :
  In (k, v) (set q w d) -> (k = q /\ v = w) \/ In (k, v) d.
Proof.
  induction d as [|[k' v'] d IH]; simpl.
  - intros [[= <- <-] | []]. left. split; reflexivity.
  - destruct (String.eqb q k') eqn:E; simpl.
    + apply String.eqb_eq in E. subst k'.
      intros [[= <- <-] | H]; [left; split; reflexivity | right; right; exact H].
    + intros [H | H]; [right; left; exact H|].
      destruct (IH H) as [H' | H']; [left; exact H' | right; right; exact H'].
Qed.

Lemma visitProject_fst manifest st proj :
  fst (visitProject manifest st proj) =
  set proj (depsOf manifest proj) (fst st).
Proof.
  unfold visitProject, depsOf. destruct (manifest proj); reflexivity.
Qed.

Section Build.
Variable manifest : string -> option string.

Lemma forward_entries (l : list string) :
  forall st k v,
    In (k, v) (fst (fold_left (visitProject manifest) l st)) ->
    (In k l /\ v = depsOf manifest k) \/ In (k, v) (fst st).
Proof.
  induction l as [|proj l IH]; intros st k v H; simpl in *.
  - right. exact H.
  - destruct (IH _ _ _ H) as [[Hk Hv] | H'].
    + left. split; [right; exact Hk | exact Hv].
    + rewrite visitProject_fst in H'.
      destruct (In_set _ _ _ _ _ H') as [[-> ->] | H''].
      * left. split; [left; reflexivity | reflexivity].
      * right. exact H''.
Qed.

Lemma forward_get (l : list string) :
  forall st p,
    In p l ->
    get p (fst (fold_left (visitProject manifest) l st)) =
    Some (depsOf manifest p).
Proof.
  induction l as [|proj l IH]; intros st p H; simpl in *; [contradiction|].
  destruct (in_dec string_dec p l) as [Hl | Hl]; [apply IH, Hl|].
  destruct H as [-> | H]; [|contradiction].
  clear IH. revert st. induction l as [|q l IHl]; intros st; simpl.
  - rewrite visitProject_fst, get_set, String.eqb_refl. reflexivity.
  - assert (Hq : p <> q) by (intros ->; apply Hl; left; reflexivity).
    assert (Hl' : ~ In p l) by (intros K; apply Hl; right; exact K).
    specialize (IHl Hl').
    (* the step for [q] commutes with the step for [p] on the entry of [p] *)
    assert (G : forall st0,
               get p (fst (fold_left (visitProject manifest) l st0)) =
               get p (fst st0)).
    { clear - Hl'. induction l as [|r l IHr]; intros st0; simpl;
        [reflexivity|].
      rewrite IHr by (intros K; apply Hl'; right; exact K).
      rewrite visitProject_fst, get_set.
      destruct (String.eqb p r) eqn:E; [|reflexivity].
      apply String.eqb_eq in E. exfalso. apply Hl'. left. congruence. }
    rewrite G, visitProject_fst, get_set.
    apply String.eqb_neq in Hq. rewrite Hq.
    rewrite visitProject_fst, get_set, String.eqb_refl. reflexivity.
Qed.

Lemma pushReverse_within (S : string -> Prop) dep proj r :
  S proj -> dependentsWithin S r -> dependentsWithin S (pushReverse dep proj r).
Proof.
  intros Hp Hr. unfold pushReverse.
  set (r1 := match get dep r with Some _ => r | None => set dep [] r end).
  assert (H1 : dependentsWithin S r1).
  { unfold r1. destruct (get dep r); [exact Hr|].
    intros k l x Hk Hx. destruct (In_set _ _ _ _ _ Hk) as [[_ ->] | Hk'].
    - destruct Hx.
    - exact (Hr _ _ _ Hk' Hx). }
  intros k l x Hk Hx. destruct (In_set _ _ _ _ _ Hk) as [[_ ->] | Hk'].
  - apply in_app_or in Hx. destruct Hx as [Hx | [<- | []]]; [|exact Hp].
    unfold getOr in Hx. destruct (get dep r1) as [v|] eqn:E; [|destruct Hx].
    exact (H1 _ _ _ (get_In _ _ _ E) Hx).
  - exact (H1 _ _ _ Hk' Hx).
Qed.

Lemma visitProject_within (S : string -> Prop) st proj :
  S proj -> dependentsWithin S (snd st) ->
  dependentsWithin S (snd (visitProject manifest st proj)).
Proof.
  intros Hp Hr. unfold visitProject.
  destruct (manifest proj) as [content|]; simpl; [|exact Hr].
  generalize (parseManifest content) as deps.
  generalize (snd st) Hr. clear st Hr.
  intros r Hr deps. revert r Hr.
  induction deps as [|dep deps IH]; intros r Hr; simpl; [exact Hr|].
  apply IH, pushReverse_within; assumption.
Qed.

Lemma reverse_within (S : string -> Prop) (l : list string) :
  forall st,
    (forall p, In p l -> S p) ->
    dependentsWithin S (snd st) ->
    dependentsWithin S (snd (fold_left (visitProject manifest) l st)).
Proof.
  induction l as [|proj l IH]; intros st Hl Hr; simpl; [exact Hr|].
  apply IH.
  - intros p Hp. apply Hl. right. exact Hp.
  - apply visitProject_within; [apply Hl; left; reflexivity | exact Hr].
Qed.

End Build.

(** C6, as stated, at a manifest naming project-999: the edge from
    project-001 ends outside the registry. *)
Lemma edge_outside_registry_counterexample :
  In ("project-001", "project-999")
     (edges (buildGraph Fixtures.strayManifests))
  /\ get "project-999" (reverseDepMap (buildGraph Fixtures.strayManifests))
     = Some ["project-001"]
  /\ ~ In "project-999" projects.
Proof.
  assert (E : edges (buildGraph Fixtures.strayManifests) =
              [("project-001", "project-999")]) by (vm_compute; reflexivity).
  rewrite E. split; [left; reflexivity|].
  split; [vm_compute; reflexivity|].
  apply (proj1 (mem_false _ _)). vm_compute. reflexivity.
Qed.

Lemma buildGraph_depMap manifest :
  depMap (buildGraph manifest) =
  fst (fold_left (visitProject manifest) projects ([], [])).
Proof. reflexivity. Qed.

Lemma buildGraph_reverseDepMap manifest :
  reverseDepMap (buildGraph manifest) =
  snd (fold_left (visitProject manifest) projects ([], [])).
Proof. reflexivity. Qed.

Lemma buildGraph_edges manifest :
  edges (buildGraph manifest) =
  flat_map (fun e => map (fun to => (fst e, to)) (snd e))
           (fst (fold_left (visitProject manifest) projects ([], []))).
Proof. reflexivity. Qed.

Lemma buildGraph_forward manifest k v :
  In (k, v) (depMap (buildGraph manifest)) ->
  In k projects /\ v = depsOf manifest k.
Proof.
  rewrite buildGraph_depMap. intros H.
  destruct (forward_entries manifest projects _ _ _ H) as [K | K];
    [exact K | destruct K].
Qed.

(** C6, amended: in every graph produced by [buildGraph] the source of
    every edge, every key of the forward adjacency and every member of a
    reverse adjacency list is a registry project; the target of an edge
    is an identifier named by a directive of the source's manifest; a
    registry project without a manifest has an empty forward
    adjacency. *)
Theorem buildGraph_endpoints :
  forall (manifest : string -> option string),
    (forall from to, In (from, to) (edges (buildGraph manifest)) ->
       In from projects
       /\ exists content,
            manifest from = Some content /\ In to (parseManifest content))
    /\ (forall from deps, In (from, deps) (depMap (buildGraph manifest)) ->
          In from projects)
    /\ (forall to dependents from,
          In (to, dependents) (reverseDepMap (buildGraph manifest)) ->
          In from dependents -> In from projects)
    /\ (forall proj, In proj projects ->
          get proj (depMap (buildGraph manifest)) =
          Some (depsOf manifest proj))
    /\ (forall proj, In proj projects -> manifest proj = None ->
          get proj (depMap (buildGraph manifest)) = Some []).
Proof.
  intros manifest.
  assert (G : forall proj, In proj projects ->
                get proj (depMap (buildGraph manifest)) =
                Some (depsOf manifest proj)).
  { intros proj H. rewrite buildGraph_depMap. apply forward_get, H. }
  split; [|split; [|split; [|split]]].
  - intros from to. rewrite buildGraph_edges, <- buildGraph_depMap.
    intros H. apply in_flat_map in H. destruct H as [[k v] [Hkv Hto]].
    apply in_map_iff in Hto. destruct Hto as [t [[= <- <-] Ht]].
    destruct (buildGraph_forward _ _ _ Hkv) as [Hk ->]. split; [exact Hk|].
    unfold depsOf in Ht. destruct (manifest k) as [content|]; [|destruct Ht].
    exists content. split; [reflexivity | exact Ht].
  - intros from deps H. exact (proj1 (buildGraph_forward _ _ _ H)).
  - intros to dependents from. rewrite buildGraph_reverseDepMap.
    intros H Hin.
    refine (reverse_within manifest (fun p => In p projects) projects
              ([], []) (fun p Hp => Hp) _ _ _ _ H Hin).
    intros k l x K. destruct K.
  - exact G.
  - intros proj H Hnone. rewrite (G proj H). unfold depsOf.
    rewrite Hnone. reflexivity.
Qed.

Lemma buildGraph_endpoints_witness :
  get "project-050" (depMap (buildGraph Fixtures.ladderManifests)) = Some [].
Proof.
  apply (proj2 (proj2 (proj2 (proj2
           (buildGraph_endpoints Fixtures.ladderManifests))))).
  - apply (proj1 (mem_In _ _)). vm_compute. reflexivity.
  - reflexivity.
Defined.

End GraphFacts.

(** ** Strings *)

Module StringFacts.

Import Js Notions.

Lemma append_empty (s : string) : s ++ "" = s.
Proof. induction s as [|c s IH]; simpl; congruence. Qed.

Lemma append_assoc (a b c : string) : (a ++ b) ++ c = a ++ (b ++ c).
Proof. induction a as [|x a IH]; simpl; congruence. Qed.

Lemma append_snoc (a b : string) (c : ascii) :
  (a ++ String c "") ++ b = a ++ String c b.
Proof. rewrite append_assoc. reflexivity. Qed.

Lemma length_append (a b : string) :
  length (a ++ b) = (length a + length b)%nat.
Proof. induction a as [|x a IH]; simpl; congruence. Qed.

Lemma every_append cls (a b : string) :
  every cls (a ++ b) = every cls a && every cls b.
Proof.
  induction a as [|x a IH]; simpl; [reflexivity|].
  rewrite IH, andb_assoc. reflexivity.
Qed.

Lemma occurs_append c (a b : string) :
  occurs c (a ++ b) = occurs c a || occurs c b.
Proof.
  induction a as [|x a IH]; simpl; [reflexivity|].
  rewrite IH, orb_assoc. reflexivity.
Qed.

Lemma every_weaken (cls cls' : ascii -> bool) (s : string) :
  (forall c, cls c = true -> cls' c = true) ->
  every cls s = true -> every cls' s = true.
Proof.
  intros H. induction s as [|c s IH]; simpl; [reflexivity|].
  rewrite !andb_true_iff. intros [Hc Hs]. split; [apply H, Hc | apply IH, Hs].
Qed.

Lemma every_not_occurs cls c (s : string) :
  cls c = false -> every cls s = true -> occurs c s = false.
Proof.
  intros Hc. induction s as [|d s IH]; simpl; [reflexivity|].
  rewrite andb_true_iff. intros [Hd Hs]. rewrite (IH Hs), orb_false_r.
  destruct (Ascii.eqb_spec c d) as [-> | _]; [congruence | reflexivity].
Qed.

Lemma occurs_in_tail c (a b : string) :
  occurs c b = true -> occurs c (a ++ b) = true.
Proof. intros H. rewrite occurs_append, H. apply orb_true_r. Qed.

End StringFacts.

(** ** The matcher *)

Module RegexFacts.

Import Js Regex Notions StringFacts.

Section Repetition.
Context {R : Type}.
Variable cls : ascii -> bool.
Variable k : string -> string -> option R.

Lemma rep_unfold least taken s :
  rep cls k least taken s =
  let stop := match least with O => k taken s | S _ => None end in
  match s with
  | String c s' =>
      if cls c then
        match rep cls k (pred least) (taken ++ String c EmptyString) s' with
        | Some r => Some r
        | None => stop
        end
      else stop
  | EmptyString => stop
  end.
Proof. destruct s; reflexivity. Qed.

(** A repetition that can take the whole run [u], and whose continuation
    succeeds after it, succeeds with that result: longer runs are tried
    first. *)
Lemma rep_greedy (u : string) :
  forall least taken rest r,
    every cls u = true ->
    (least <= length u)%nat ->
    stops cls rest ->
    k (taken ++ u) rest = Some r ->
    rep cls k least taken (u ++ rest) = Some r.
Proof.
  induction u as [|a u IH]; intros least taken rest r Hu Hl Hs Hk.
  - simpl in Hl. assert (least = 0%nat) by lia. subst least.
    rewrite append_empty in Hk. simpl. rewrite rep_unfold. cbv zeta.
    destruct rest as [|c rest]; [exact Hk|].
    simpl in Hs. rewrite Hs. exact Hk.
  - simpl in Hu. apply andb_true_iff in Hu. destruct Hu as [Ha Hu].
    change (String a u ++ rest) with (String a (u ++ rest)).
    rewrite rep_unfold. cbv zeta. rewrite Ha.
    rewrite (IH (pred least) (taken ++ String a "") rest r); auto.
    + simpl in Hl. lia.
    + rewrite append_snoc. exact Hk.
Qed.

(** A successful repetition took some run of the class and handed the
    rest to its continuation. *)
Lemma rep_sound (s : string) :
  forall least taken r,
    rep cls k least taken s = Some r ->
    exists u v, s = u ++ v /\ every cls u = true
                /\ (least <= length u)%nat /\ k (taken ++ u) v = Some r.
Proof.
  induction s as [|c s IH]; intros least taken r H;
    rewrite rep_unfold in H; cbv zeta in H.
  - destruct least; [|discriminate].
    exists "", "". rewrite (append_empty taken).
    repeat split; [simpl; lia | exact H].
  - assert (Stop : match least with O => k taken (String c s) | S _ => None end
                   = Some r ->
                   exists u v, String c s = u ++ v /\ every cls u = true
                               /\ (least <= length u)%nat
                               /\ k (taken ++ u) v = Some r).
    { destruct least; [|discriminate]. intros K.
      exists "", (String c s). rewrite (append_empty taken).
      repeat split; [simpl; lia | exact K]. }
    destruct (cls c) eqn:Hc; [|exact (Stop H)].
    destruct (rep cls k (pred least) (taken ++ String c "") s) as [r'|] eqn:E;
      [|exact (Stop H)].
    injection H as ->.
    destruct (IH _ _ _ E) as [u [v [-> [Hu [Hl Hk]]]]].
    exists (String c u), v. simpl. rewrite Hc, Hu.
    rewrite append_snoc in Hk. repeat split; auto. lia.
Qed.

End Repetition.

Lemma matchHere_Lit p c cap t :
  matchHere (Lit c :: p) cap (String c t) = matchHere p cap t.
Proof. simpl. rewrite Ascii.eqb_refl. reflexivity. Qed.

Lemma matchHere_lit (a : string) p cap t :
  matchHere (lit a ++ p)%list cap (a ++ t) = matchHere p cap t.
Proof.
  induction a as [|c a IH]; [reflexivity|].
  change (matchHere (Lit c :: (lit a ++ p)%list) cap (String c (a ++ t))
          = matchHere p cap t).
  rewrite matchHere_Lit. exact IH.
Qed.

Lemma matchHere_Rep p cls least (captured : bool) cap (u rest : string) r :
  every cls u = true ->
  (least <= length u)%nat ->
  stops cls rest ->
  matchHere p (if captured then u else cap) rest = Some r ->
  matchHere (Rep cls least captured :: p) cap (u ++ rest) = Some r.
Proof.
  intros Hu Hl Hs Hk. simpl. apply rep_greedy; auto.
Qed.

(** Soundness: what [matchHere] consumes is a text of the pattern, and
    the capture it returns is the one of that text. *)
Lemma matchHere_sound (p : regex) :
  forall cap s cap' rest,
    matchHere p cap s = Some (cap', rest) ->
    exists m, s = m ++ rest /\ Parses p cap m cap'.
Proof.
  induction p as [|[c | cls least captured] p IH]; intros cap s cap' rest H.
  - injection H as <- <-. exists "". repeat split.
  - simpl in H. destruct s as [|d s]; [discriminate|].
    destruct (Ascii.eqb_spec c d) as [<- | _]; [|discriminate].
    destruct (IH _ _ _ _ H) as [m [-> Hm]].
    exists (String c m). split; [reflexivity|]. simpl. eauto.
  - simpl in H. apply rep_sound in H.
    destruct H as [u [v [-> [Hu [Hl Hk]]]]]. simpl in Hk.
    destruct (IH _ _ _ _ Hk) as [m [-> Hm]].
    exists (u ++ m). rewrite append_assoc. split; [reflexivity|].
    simpl. exists u, m. auto.
Qed.

Lemma search_sound (p : regex) (s : string) :
  forall cap rest,
    search p s = Some (cap, rest) ->
    exists pre m, s = pre ++ m ++ rest /\ Parses p "" m cap.
Proof.
  induction s as [|c s IH]; intros cap rest H; simpl in H.
  - destruct (matchHere p "" "") as [r|] eqn:E; [|discriminate].
    injection H as ->. destruct (matchHere_sound _ _ _ _ _ E) as [m [Hm Lm]].
    exists "", m. auto.
  - destruct (matchHere p "" (String c s)) as [r|] eqn:E.
    + injection H as ->.
      destruct (matchHere_sound _ _ _ _ _ E) as [m [Hm Lm]].
      exists "", m. auto.
    + destruct (IH _ _ H) as [pre [m [-> Lm]]].
      exists (String c pre), m. auto.
Qed.

Lemma search_here (p : regex) (s : string) r :
  matchHere p "" s = Some r -> search p s = Some r.
Proof. intros H. destruct s; simpl; rewrite H; reflexivity. Qed.

Lemma search_step (p : regex) (c : ascii) (s : string) :
  matchHere p "" (String c s) = None ->
  search p (String c s) = search p s.
Proof. intros H. simpl. rewrite H. reflexivity. Qed.

Lemma Parses_lit (a : string) (p : regex) (cap m cap' : string) :
  Parses (lit a ++ p)%list cap m cap' ->
  exists m', m = a ++ m' /\ Parses p cap m' cap'.
Proof.
  revert m. induction a as [|c a IH]; intros m H.
  - exists m. auto.
  - change (exists m0, m = String c m0
                       /\ Parses (lit a ++ p)%list cap m0 cap') in H.
    destruct H as [m0 [-> H]]. destruct (IH _ H) as [m' [-> H']].
    exists m'. auto.
Qed.

(** A character foreign to the pattern acts as the end of the subject. *)
Lemma matchHere_foreign (c : ascii) (t : string) (p : regex) :
  foreign c p ->
  forall cap s,
    matchHere p cap (s ++ String c t) = extend (String c t) (matchHere p cap s).
Proof.
  induction p as [|[d | cls least captured] p IH]; intros F cap s.
  - reflexivity.
  - destruct F as [Hd F]. simpl. destruct s as [|a s]; simpl.
    + destruct (Ascii.eqb_spec d c); [contradiction | reflexivity].
    + destruct (Ascii.eqb d a); [apply IH, F | reflexivity].
  - destruct F as [Hc F]. simpl.
    set (k := fun taken rest =>
                matchHere p (if captured then taken else cap) rest).
    assert (Hk : forall taken s0,
               k taken (s0 ++ String c t) = extend (String c t) (k taken s0))
      by (intros taken s0; apply IH, F).
    generalize "" as taken. revert least.
    induction s as [|a s IHs]; intros least taken.
    + simpl. rewrite Hc. destruct least; [apply (Hk taken "") | reflexivity].
    + change (String a s ++ String c t) with (String a (s ++ String c t)).
      rewrite (rep_unfold cls k least taken (String a (s ++ String c t))).
      rewrite (rep_unfold cls k least taken (String a s)). cbv zeta.
      assert (Stop : match least with
                     | O => k taken (String a (s ++ String c t))
                     | S _ => None
                     end
                     = extend (String c t)
                         (match least with
                          | O => k taken (String a s)
                          | S _ => None
                          end)).
      { destruct least; [apply (Hk taken (String a s)) | reflexivity]. }
      destruct (cls a); [|exact Stop].
      rewrite IHs.
      destruct (rep cls k (pred least) (taken ++ String a "") s) as [[? ?]|];
        [reflexivity | exact Stop].
Qed.

(** No match in [s], a foreign character, then [t]: the leftmost match is
    the one of [t]. *)
Lemma search_past_foreign (p : regex) (c : ascii) (s t : string) :
  foreign c p ->
  search p s = None ->
  matchHere p "" (String c t) = None ->
  search p (s ++ String c t) = search p t.
Proof.
  intros F. induction s as [|a s IH]; intros Hs Hc.
  - simpl. rewrite Hc. reflexivity.
  - simpl in Hs. destruct (matchHere p "" (String a s)) eqn:E; [discriminate|].
    change (String a s ++ String c t) with (String a (s ++ String c t)).
    change (search p (String a (s ++ String c t))) with
      (match matchHere p "" (String a s ++ String c t) with
       | Some r => Some r
       | None => search p (s ++ String c t)
       end).
    rewrite (matchHere_foreign c t p F "" (String a s)), E. simpl.
    apply IH; assumption.
Qed.

(** A pattern that starts with a literal finds nothing in a text without
    that character. *)
Lemma search_without_first (c : ascii) (p : regex) (s : string) :
  occurs c s = false -> search (Lit c :: p) s = None.
Proof.
  induction s as [|d s IH]; intros H; [reflexivity|].
  simpl in H. apply orb_false_iff in H. destruct H as [Hd Hs].
  simpl. rewrite Hd. apply IH, Hs.
Qed.

End RegexFacts.

(** ** Numbers and their numerals *)

Module NumberFacts.

Import Js Notions StringFacts.

#[local] Arguments digitChar : simpl never.
#[local] Arguments Z.modulo : simpl never.
#[local] Arguments Z.div : simpl never.

Lemma digitChar_spec (d : Z) :
  (0 <= d <= 9)%Z ->
  isDigit (digitChar d) = true /\ digitVal (digitChar d) = d.
Proof.
  intros H.
  assert (C : (d = 0 \/ d = 1 \/ d = 2 \/ d = 3 \/ d = 4 \/ d = 5
               \/ d = 6 \/ d = 7 \/ d = 8 \/ d = 9)%Z) by lia.
  repeat (destruct C as [-> | C]; [split; reflexivity|]).
  subst d. split; reflexivity.
Qed.

Lemma parseDigits_cons (acc : Z) (c : ascii) (s : string) :
  parseDigits acc (String c s) =
  if isDigit c then parseDigits (acc * 10 + digitVal c) s else acc.
Proof. reflexivity. Qed.

Lemma parseDigits_digit (acc d : Z) (s : string) :
  (0 <= d <= 9)%Z ->
  parseDigits acc (String (digitChar d) s) = parseDigits (acc * 10 + d) s.
Proof.
  intros H. destruct (digitChar_spec d H) as [H1 H2].
  rewrite parseDigits_cons, H1, H2. reflexivity.
Qed.

Lemma parseDigits_nonneg (s : string) :
  forall acc, (0 <= acc)%Z -> (0 <= parseDigits acc s)%Z.
Proof.
  induction s as [|c s IH]; intros acc H; [exact H|].
  rewrite parseDigits_cons. destruct (isDigit c); [|exact H].
  apply IH. unfold digitVal. lia.
Qed.

Lemma digitsOf_parse (fuel : nat) :
  forall n acc,
    (0 <= n < 2 ^ Z.of_nat fuel)%Z ->
    parseDigits 0 (digitsOf fuel n acc) = parseDigits n acc.
Proof.
  induction fuel as [|f IH]; intros n acc H.
  - simpl in *. assert (n = 0%Z) by lia. subst n. reflexivity.
  - assert (Hm : (0 <= n mod 10 <= 9)%Z)
      by (pose proof (Z.mod_pos_bound n 10); lia).
    simpl digitsOf. destruct (n <? 10)%Z eqn:E.
    + apply Z.ltb_lt in E. rewrite parseDigits_digit by exact Hm.
      rewrite Z.mod_small by lia. reflexivity.
    + apply Z.ltb_ge in E. rewrite IH.
      * rewrite parseDigits_digit by exact Hm.
        f_equal. pose proof (Z.div_mod n 10). lia.
      * rewrite Nat2Z.inj_succ, Z.pow_succ_r in H by lia.
        split; [apply Z.div_pos; lia|].
        apply Z.div_lt_upper_bound; lia.
Qed.

Lemma digitsOf_every (fuel : nat) :
  forall n acc,
    (0 <= n)%Z -> every isDigit acc = true ->
    every isDigit (digitsOf fuel n acc) = true.
Proof.
  induction fuel as [|f IH]; intros n acc Hn H; simpl; [exact H|].
  assert (Hm : (0 <= n mod 10 <= 9)%Z)
    by (pose proof (Z.mod_pos_bound n 10); lia).
  assert (K : every isDigit (String (digitChar (n mod 10)) acc) = true)
    by (change (isDigit (digitChar (n mod 10)) && every isDigit acc = true);
        rewrite (proj1 (digitChar_spec _ Hm)); exact H).
  destruct (n <? 10)%Z; [exact K|].
  apply IH; [apply Z.div_pos; lia | exact K].
Qed.

Lemma digitsOf_length (fuel : nat) :
  forall n acc, (length acc <= length (digitsOf fuel n acc))%nat.
Proof.
  induction fuel as [|f IH]; intros n acc; simpl; [lia|].
  destruct (n <? 10)%Z; [simpl; lia|].
  specialize (IH (n / 10)%Z (String (digitChar (n mod 10)) acc)).
  simpl in IH. lia.
Qed.

(** The numeral of a non-negative integer is a non-empty run of digits
    that [parseInt] reads back. *)
Lemma natural_spec (n : Z) :
  (0 <= n)%Z ->
  parseInt (natural n) = n
  /\ every isDigit (natural n) = true
  /\ (1 <= length (natural n))%nat.
Proof.
  intros H. unfold parseInt, natural. repeat split.
  - rewrite digitsOf_parse; [reflexivity|].
    split; [exact H|].
    rewrite Nat2Z.inj_succ, Z2Nat.id by apply Z.log2_nonneg.
    destruct (Z.eq_dec n 0) as [-> | Hn]; [reflexivity|].
    apply Z.log2_spec. lia.
  - apply digitsOf_every; [exact H | reflexivity].
  - simpl. destruct (n <? 10)%Z; [simpl; lia|].
    pose proof (digitsOf_length (Z.to_nat (Z.log2 n)) (n / 10)
                  (String (digitChar (n mod 10)) "")) as L.
    simpl in L. lia.
Qed.

Lemma numberToString_nonneg (n : Z) :
  (0 <= n)%Z -> numberToString n = natural n.
Proof.
  intros H. unfold numberToString.
  destruct (n <? 0)%Z eqn:E; [apply Z.ltb_lt in E; lia | reflexivity].
Qed.

Lemma numberToString_negative (n : Z) :
  (n < 0)%Z -> numberToString n = String "-"%char (natural (- n)).
Proof.
  intros H. unfold numberToString.
  destruct (n <? 0)%Z eqn:E; [reflexivity | apply Z.ltb_ge in E; lia].
Qed.

End NumberFacts.

(** ** The configuration file *)

Module ConfigFacts.

Import Js Regex Dict Server Notions StringFacts RegexFacts NumberFacts.

#[local] Arguments Ascii.eqb : simpl never.
#[local] Arguments quoted : simpl never.

Lemma writeConfig_text focused hops :
  writeConfig focused hops = configText focused (numberToString hops).
Proof. reflexivity. Qed.

Lemma join_two (sep a b : string) (l : list string) :
  join sep (a :: b :: l) = a ++ sep ++ join sep (b :: l).
Proof. reflexivity. Qed.

Lemma quoted_then (p X : string) :
  quoted p ++ X = String "'" (p ++ String "'" X).
Proof.
  change (quoted p) with (String "'" (p ++ String "'" "")).
  change (String "'" (p ++ String "'" "") ++ X)
    with (String "'" ((p ++ String "'" "") ++ X)).
  rewrite append_snoc. reflexivity.
Qed.

Lemma quoted_alone (p : string) : quoted p = String "'" (p ++ String "'" "").
Proof. reflexivity. Qed.

(** *** Reading the list back *)

Lemma split_cons (sep c : ascii) (s : string) :
  split sep (String c s) =
  if Ascii.eqb c sep then EmptyString :: split sep s
  else match split sep s with
       | h :: t => String c h :: t
       | [] => [String c EmptyString]
       end.
Proof. reflexivity. Qed.

Lemma split_plain (u : string) :
  occurs ","%char u = false -> split ","%char u = [u].
Proof.
  induction u as [|a u IH]; intros H; [reflexivity|].
  simpl in H. apply orb_false_iff in H. destruct H as [Ha Hu].
  rewrite split_cons, Ascii.eqb_sym, Ha, (IH Hu). reflexivity.
Qed.

Lemma split_at_comma (u v : string) :
  occurs ","%char u = false ->
  split ","%char (u ++ String ","%char v) = u :: split ","%char v.
Proof.
  induction u as [|a u IH]; intros H; [reflexivity|].
  simpl in H. apply orb_false_iff in H. destruct H as [Ha Hu].
  change (String a u ++ String "," v) with (String a (u ++ String "," v)).
  rewrite split_cons, Ascii.eqb_sym, Ha, (IH Hu). reflexivity.
Qed.

Lemma plain_no_comma (p : string) :
  every plainChar p = true -> occurs ","%char p = false.
Proof. apply every_not_occurs. reflexivity. Qed.

Lemma plain_no_bracket (p : string) :
  every plainChar p = true -> every notRBracket p = true.
Proof.
  apply every_weaken. intros c. unfold plainChar, notRBracket.
  destruct (Ascii.eqb c "]"); [|reflexivity].
  rewrite !orb_true_r. discriminate.
Qed.

Lemma quoted_no_comma (p : string) :
  every plainChar p = true -> occurs ","%char (quoted p) = false.
Proof.
  intros H. rewrite quoted_alone.
  change (occurs "," (String "'" (p ++ String "'" "")))
    with (occurs "," (p ++ String "'" "")).
  rewrite occurs_append, (plain_no_comma p H). reflexivity.
Qed.

Lemma split_quoted (rest : list string) :
  forall p,
    (forall q, In q (p :: rest) -> every plainChar q = true) ->
    split ","%char (join ", " (map quoted (p :: rest))) =
    quoted p :: map (fun q => " " ++ quoted q) rest.
Proof.
  induction rest as [|p2 rest IH]; intros p H.
  - apply split_plain, quoted_no_comma, H. left. reflexivity.
  - rewrite !map_cons, join_two.
    change (", " ++ join ", " (quoted p2 :: map quoted rest))
      with (String "," (String " " (join ", " (map quoted (p2 :: rest))))).
    rewrite split_at_comma by (apply quoted_no_comma, H; left; reflexivity).
    f_equal. rewrite split_cons.
    change (Ascii.eqb " " ",") with false. cbv iota.
    rewrite IH by (intros q Hq; apply H; right; exact Hq).
    reflexivity.
Qed.

Lemma trimEnd_keeps (s : string) (c : ascii) :
  isSpace c = false -> trimEnd (s ++ String c "") = s ++ String c "".
Proof.
  intros Hc. induction s as [|a s IH]; simpl.
  - rewrite Hc. reflexivity.
  - rewrite IH. destruct s; reflexivity.
Qed.

Lemma trim_quoted (p : string) : trim (quoted p) = quoted p.
Proof.
  unfold trim. change (quoted p) with (String "'" p ++ String "'" "").
  change (trimStart (String "'" p ++ String "'" ""))
    with (String "'" p ++ String "'" "").
  apply trimEnd_keeps. reflexivity.
Qed.

Lemma trim_blank_quoted (p : string) : trim (" " ++ quoted p) = quoted p.
Proof. exact (trim_quoted p). Qed.

Lemma dropLastQuote_snoc (p : string) (c : ascii) :
  isQuote c = true -> dropLastQuote (p ++ String c "") = p.
Proof.
  intros Hc. induction p as [|a p IH].
  - simpl. rewrite Hc. reflexivity.
  - change (dropLastQuote (String a (p ++ String c "")) = String a p).
    destruct p as [|b p]; simpl in *.
    + rewrite Hc. reflexivity.
    + f_equal. exact IH.
Qed.

Lemma unquote_quoted (p : string) : unquote (quoted p) = p.
Proof.
  rewrite quoted_alone.
  change (unquote (String "'" (p ++ String "'" "")))
    with (dropLastQuote (p ++ String "'" "")).
  apply dropLastQuote_snoc. reflexivity.
Qed.

(** The list read back from the text written for it. *)
Lemma parse_written_list (focused : list string) :
  (forall p, In p focused -> p <> "" /\ every plainChar p = true) ->
  filter truthy
    (map (fun s => unquote (trim s))
         (split ","%char (join ", " (map quoted focused))))
  = focused.
Proof.
  intros H. destruct focused as [|p rest]; [reflexivity|].
  rewrite split_quoted by (intros q Hq; apply H, Hq).
  rewrite map_cons, map_map.
  rewrite trim_quoted, unquote_quoted.
  assert (E : map (fun q => unquote (trim (" " ++ quoted q))) rest = rest).
  { rewrite <- (map_id rest) at 2. apply map_ext. intros q.
    rewrite trim_blank_quoted. apply unquote_quoted. }
  rewrite E.
  assert (K : forall l : list string,
             (forall q, In q l -> q <> "") -> filter truthy l = l).
  { induction l as [|q l IH]; intros Hl; [reflexivity|]. simpl.
    destruct q as [|c q]; [exfalso; apply (Hl ""); [left|]; reflexivity|].
    simpl. f_equal. apply IH. intros q' Hq'. apply Hl. right. exact Hq'. }
  apply K. intros q Hq. apply H, Hq.
Qed.

Lemma written_list_no_bracket (focused : list string) :
  (forall p, In p focused -> every plainChar p = true) ->
  every notRBracket (join ", " (map quoted focused)) = true.
Proof.
  induction focused as [|p rest IH]; intros H; [reflexivity|].
  assert (Hp : every notRBracket (quoted p) = true).
  { rewrite quoted_alone.
    change (every notRBracket (String "'" (p ++ String "'" "")))
      with (every notRBracket (p ++ String "'" "")).
    rewrite every_append, (plain_no_bracket p); [reflexivity|].
    apply H. left. reflexivity. }
  destruct rest as [|p2 rest]; [exact Hp|].
  rewrite map_cons.
  assert (IH' : every notRBracket (join ", " (map quoted (p2 :: rest))) = true)
    by (apply IH; intros q Hq; apply H; right; exact Hq).
  rewrite map_cons in IH' |- *.
  rewrite join_two, !every_append, Hp, IH'. reflexivity.
Qed.

(** *** The focused-list statement *)

Lemma focused_statement_found (body tail : string) :
  every notRBracket body = true ->
  search focusedRe ("ext.focusedProjects = [" ++ body ++ String "]" tail)
  = Some (body, tail).
Proof.
  intros H. apply search_here.
  change ("ext.focusedProjects = [" ++ body ++ String "]" tail)
    with ("ext.focusedProjects"
          ++ (" " ++ String "=" (" " ++ String "[" (body ++ String "]" tail)))).
  unfold focusedRe. rewrite matchHere_lit.
  apply matchHere_Rep; [reflexivity | simpl; lia | exact eq_refl |].
  rewrite matchHere_Lit.
  apply matchHere_Rep; [reflexivity | simpl; lia | exact eq_refl |].
  rewrite matchHere_Lit.
  apply matchHere_Rep; [exact H | simpl; lia | exact eq_refl |].
  apply matchHere_Lit.
Qed.

(** *** The hop statement *)

Lemma hops_starts_with_e : hopsRe = Lit "e" :: tl hopsRe.
Proof. reflexivity. Qed.

Lemma hops_skip (c : ascii) (t : string) :
  c <> "e"%char -> matchHere hopsRe "" (String c t) = None.
Proof.
  intros H. rewrite hops_starts_with_e.
  change (matchHere (Lit "e" :: tl hopsRe) "" (String c t))
    with (if Ascii.eqb "e" c then matchHere (tl hopsRe) "" t else None).
  destruct (Ascii.eqb_spec "e"%char c); [congruence | reflexivity].
Qed.

Lemma foreign_quote : foreign "'" hopsRe.
Proof. cbn. repeat split; discriminate. Qed.

Lemma foreign_open : foreign "[" hopsRe.
Proof. cbn. repeat split; discriminate. Qed.

Lemma foreign_close : foreign "]" hopsRe.
Proof. cbn. repeat split; discriminate. Qed.

(** No match of the hop pattern starts inside the written list when no
    identifier holds one. *)
Lemma search_hops_past_list (focused : list string) (T : string) :
  (forall p, In p focused -> search hopsRe p = None) ->
  search hopsRe (join ", " (map quoted focused) ++ String "]" T)
  = search hopsRe T.
Proof.
  induction focused as [|p rest IH]; intros H.
  - apply search_step, hops_skip. discriminate.
  - assert (Hp : search hopsRe p = None) by (apply H; left; reflexivity).
    assert (Q : forall X, search hopsRe (quoted p ++ X) = search hopsRe X).
    { intros X. rewrite quoted_then.
      rewrite search_step by (apply hops_skip; discriminate).
      apply search_past_foreign;
        [exact foreign_quote | exact Hp | apply hops_skip; discriminate]. }
    destruct rest as [|p2 rest].
    + change (join ", " (map quoted [p])) with (quoted p).
      rewrite Q. apply search_step, hops_skip. discriminate.
    + assert (IH' : search hopsRe
                      (join ", " (map quoted (p2 :: rest)) ++ String "]" T)
                    = search hopsRe T)
        by (apply IH; intros q Hq; apply H; right; exact Hq).
      rewrite map_cons in IH' |- *. rewrite map_cons.
      rewrite join_two, append_assoc, Q.
      change ((", " ++ join ", " (quoted p2 :: map quoted rest))
              ++ String "]" T)
        with (String "," (String " "
                (join ", " (quoted p2 :: map quoted rest) ++ String "]" T))).
      rewrite search_step by (apply hops_skip; discriminate).
      rewrite search_step by (apply hops_skip; discriminate).
      exact IH'.
Qed.

(** The leftmost match of the hop pattern in a written configuration is
    the leftmost match in what follows the list. *)
Lemma search_hops_configText (focused : list string) (v : string) :
  (forall p, In p focused -> search hopsRe p = None) ->
  search hopsRe (configText focused v)
  = search hopsRe ("ext.downstreamHops = " ++ v).
Proof.
  intros H. unfold configText.
  change ("ext.focusedProjects = ["
          ++ join ", " (map quoted focused) ++ "]" ++ nl
          ++ "ext.downstreamHops = " ++ v)
    with ("ext.focusedProjects = "
          ++ String "["
               (join ", " (map quoted focused)
                ++ String "]" (String "010" ("ext.downstreamHops = " ++ v)))).
  rewrite search_past_foreign;
    [| exact foreign_open | vm_compute; reflexivity
     | apply hops_skip; discriminate].
  rewrite search_hops_past_list by exact H.
  apply search_step, hops_skip. discriminate.
Qed.

Lemma digit_not_space (c : ascii) : isDigit c = true -> isSpace c = false.
Proof.
  unfold isDigit, isSpace. generalize (code c) as n. intros n H.
  apply andb_true_iff in H. destruct H as [H1 H2].
  apply Nat.leb_le in H1, H2.
  rewrite !orb_false_iff, andb_false_iff.
  repeat split;
    [right; apply Nat.leb_gt; lia | apply Nat.eqb_neq; lia
     | apply Nat.eqb_neq; lia].
Qed.

Lemma digits_stop_blanks (digits rest : string) :
  every isDigit digits = true ->
  (1 <= length digits)%nat ->
  stops isSpace (digits ++ rest).
Proof.
  destruct digits as [|d ds]; simpl; [lia|].
  rewrite andb_true_iff. intros [H _] _. apply digit_not_space, H.
Qed.

Lemma hop_statement_found (digits : string) :
  every isDigit digits = true ->
  (1 <= length digits)%nat ->
  search hopsRe ("ext.downstreamHops = " ++ digits) = Some (digits, "").
Proof.
  intros Hd Hl. apply search_here.
  pattern digits at 1. rewrite <- (append_empty digits).
  change ("ext.downstreamHops = " ++ digits ++ "")
    with ("ext.downstreamHops"
          ++ (" " ++ String "=" (" " ++ (digits ++ "")))).
  unfold hopsRe. rewrite matchHere_lit.
  apply matchHere_Rep; [reflexivity | simpl; lia | exact eq_refl |].
  rewrite matchHere_Lit.
  apply matchHere_Rep;
    [reflexivity | simpl; lia | apply digits_stop_blanks; assumption |].
  apply matchHere_Rep; [exact Hd | exact Hl | exact I | reflexivity].
Qed.

(** A value that starts with neither a digit nor a blank is not taken
    for a hop bound. *)
Lemma hop_value_rejected (v : string) :
  stops (fun c => isDigit c || isSpace c) v ->
  matchHere hopsRe "" ("ext.downstreamHops = " ++ v) = None.
Proof.
  intros H.
  change ("ext.downstreamHops = " ++ v)
    with ("ext.downstreamHops" ++ String " " (String "=" (String " " v))).
  unfold hopsRe. rewrite matchHere_lit.
  destruct v as [|c v]; [reflexivity|].
  simpl in H. apply orb_false_iff in H. destruct H as [Hd Hs].
  cbn -[isSpace isDigit]. rewrite Hs, Hd. cbn -[isSpace isDigit].
  reflexivity.
Qed.

Lemma search_after_rejected (v : string) :
  stops (fun c => isDigit c || isSpace c) v ->
  search hopsRe ("ext.downstreamHops = " ++ v) = search hopsRe v.
Proof.
  intros H. cbn [append].
  rewrite search_step by exact (hop_value_rejected v H).
  repeat (rewrite search_step by reflexivity).
  reflexivity.
Qed.

(** *** Reading a configuration *)

Lemma readConfig_focused (content : string) :
  focusedProjects (readConfig (Some content)) =
  match search focusedRe content with
  | Some (listStr, _) =>
      filter truthy (map (fun s => unquote (trim s)) (split ","%char listStr))
  | None => []
  end.
Proof. reflexivity. Qed.

Lemma readConfig_hops (content : string) :
  downstreamHops (readConfig (Some content)) =
  match search hopsRe content with
  | Some (digits, _) => parseInt digits
  | None => 1%Z
  end.
Proof. reflexivity. Qed.

Ltac flatten_appends :=
  repeat first [rewrite append_assoc | progress cbn [append]].

(** An accepted focused-list statement is a well-formed one, and the text
    handed to the list parser is what stands between its brackets. *)
Lemma focused_match_wellformed (content body rest : string) :
  search focusedRe content = Some (body, rest) ->
  FocusedLiteral content body.
Proof.
  intros E. apply search_sound in E. destruct E as [pre [m [-> P]]].
  unfold focusedRe in P. apply Parses_lit in P. destruct P as [m1 [-> P]].
  cbn [Parses] in P.
  destruct P as [ws1 [m2 [-> [Hws1 [_ [m3 [-> P]]]]]]].
  destruct P as [ws2 [m4 [-> [Hws2 [_ [m5 [-> P]]]]]]].
  destruct P as [b [m6 [-> [Hb [_ [m7 [-> [-> ->]]]]]]]].
  exists pre, ws1, ws2, rest. repeat split; try assumption.
  flatten_appends. reflexivity.
Qed.

(** An accepted hop statement is the literal, blanks, [=], blanks and a
    non-empty run of digits; the digits are what [parseInt] receives. *)
Lemma hops_match_wellformed (content digits rest : string) :
  search hopsRe content = Some (digits, rest) ->
  HopLiteral content digits.
Proof.
  intros E. apply search_sound in E. destruct E as [pre [m [-> P]]].
  unfold hopsRe in P. apply Parses_lit in P. destruct P as [m1 [-> P]].
  cbn [Parses] in P.
  destruct P as [ws1 [m2 [-> [Hws1 [_ [m3 [-> P]]]]]]].
  destruct P as [ws2 [m4 [-> [Hws2 [_ [d [m5 [-> [Hd [Hl [-> ->]]]]]]]]]]].
  exists pre, ws1, ws2, rest. repeat split; try assumption.
  - flatten_appends. reflexivity.
  - intros ->. simpl in Hl. lia.
Qed.

(** C5, as stated, at two configurations with identifiers free of
    quotes, commas and brackets: the empty identifier is lost, and an
    identifier that reads like a hop statement replaces the hop bound. *)
Lemma roundtrip_counterexample :
  (every plainChar "" = true
   /\ In "" [""]
   /\ ~ In "" (focusedProjects (readConfig (Some (writeConfig [""] 1)))))
  /\ (every plainChar "ext.downstreamHops=7" = true
      /\ downstreamHops
           (readConfig (Some (writeConfig ["ext.downstreamHops=7"] 2))) = 7%Z).
Proof.
  split.
  - split; [reflexivity|]. split; [left; reflexivity|].
    assert (E : focusedProjects (readConfig (Some (writeConfig [""] 1))) = [])
      by (vm_compute; reflexivity).
    rewrite E. intros [].
  - split; vm_compute; reflexivity.
Qed.

(** C5, amended: when every identifier is non-empty, has no quote, comma
    or bracket and holds no text that the hop pattern matches, and the hop
    bound is a non-negative safe integer, reading the file written by
    [writeConfig] gives back the same identifiers, in the same order, and
    the same hop bound. *)
Theorem config_roundtrip :
  forall (focused : list string) (hops : Z),
    (forall p, In p focused ->
       p <> "" /\ every plainChar p = true /\ search hopsRe p = None) ->
    (0 <= hops <= MAX_SAFE_INTEGER)%Z ->
    readConfig (Some (writeConfig focused hops)) =
    {| focusedProjects := focused; downstreamHops := hops |}.
Proof.
  intros focused hops Hids [Hh _].
  rewrite writeConfig_text, (numberToString_nonneg hops Hh).
  destruct (natural_spec hops Hh) as [Hparse [Hdigits Hlen]].
  assert (E1 : search focusedRe (configText focused (natural hops)) =
               Some (join ", " (map quoted focused),
                     nl ++ "ext.downstreamHops = " ++ natural hops)).
  { apply focused_statement_found, written_list_no_bracket.
    intros p Hp. apply Hids, Hp. }
  assert (E2 : search hopsRe (configText focused (natural hops)) =
               Some (natural hops, "")).
  { rewrite search_hops_configText by (intros p Hp; apply Hids, Hp).
    apply hop_statement_found; assumption. }
  unfold readConfig. rewrite E1, E2, Hparse.
  rewrite parse_written_list; [reflexivity|].
  intros p Hp. destruct (Hids p Hp) as [H1 [H2 _]]. split; assumption.
Qed.

Lemma config_roundtrip_witness :
  readConfig (Some (writeConfig ["project-001"; "project-007"] 2)) =
  {| focusedProjects := ["project-001"; "project-007"];
     downstreamHops := 2 |}.
Proof.
  apply config_roundtrip.
  - intros p [<- | [<- | []]]; repeat split;
      (discriminate || (vm_compute; reflexivity)).
  - unfold MAX_SAFE_INTEGER. lia.
Defined.

End ConfigFacts.

(** ** What the loader accepts *)

Module LoadFacts.

Import Js Regex Dict Server Notions ConfigNotions StringFacts RegexFacts
       NumberFacts ConfigFacts.

#[local] Arguments Ascii.eqb : simpl never.

(** *** Completeness of the matcher *)

Section Completeness.
Context {R : Type}.
Variable cls : ascii -> bool.
Variable k : string -> string -> option R.

(** A repetition succeeds as soon as its continuation succeeds after
    some run of the class that is long enough. *)
Lemma rep_complete (u : string) :
  forall least taken rest,
    every cls u = true ->
    (least <= length u)%nat ->
    k (taken ++ u) rest <> None ->
    rep cls k least taken (u ++ rest) <> None.
Proof.
  induction u as [|a u IH]; intros least taken rest Hu Hl Hk.
  - simpl in Hl. assert (least = 0%nat) by lia. subst least.
    rewrite (append_empty taken) in Hk. simpl append.
    rewrite rep_unfold. cbv zeta.
    destruct rest as [|c rest]; [exact Hk|].
    destruct (cls c); [|exact Hk].
    destruct (rep cls k (pred 0) (taken ++ String c "") rest);
      [discriminate | exact Hk].
  - simpl in Hu. apply andb_true_iff in Hu. destruct Hu as [Ha Hu].
    change (String a u ++ rest) with (String a (u ++ rest)).
    rewrite rep_unfold. cbv zeta. rewrite Ha.
    assert (G : rep cls k (pred least) (taken ++ String a "") (u ++ rest)
                <> None).
    { apply IH; [exact Hu | simpl in Hl; lia|].
      rewrite append_snoc. exact Hk. }
    destruct (rep cls k (pred least) (taken ++ String a "") (u ++ rest));
      [discriminate | contradiction].
Qed.

End Completeness.

(** Whenever some start of the subject is a text of the pattern, the
    matcher finds a match. *)
Lemma matchHere_complete (p : regex) :
  forall cap m cap' t,
    Parses p cap m cap' -> matchHere p cap (m ++ t) <> None.
Proof.
  induction p as [|[c | cls least captured] p IH]; intros cap m cap' t H.
  - destruct H as [-> _]. discriminate.
  - destruct H as [m' [-> H]].
    change (String c m' ++ t) with (String c (m' ++ t)).
    rewrite matchHere_Lit. exact (IH _ _ _ _ H).
  - destruct H as [u [m' [-> [Hu [Hl H]]]]]. rewrite append_assoc.
    change (rep cls
              (fun taken rest =>
                 matchHere p (if captured then taken else cap) rest)
              least "" (u ++ m' ++ t) <> None).
    apply rep_complete; [exact Hu | exact Hl|].
    exact (IH _ _ _ _ H).
Qed.

Lemma search_complete (p : regex) (pre m cap' t : string) :
  Parses p "" m cap' -> search p (pre ++ m ++ t) <> None.
Proof.
  intros H. induction pre as [|c pre IH].
  - pose proof (matchHere_complete p "" m cap' t H) as G.
    destruct (matchHere p "" (m ++ t)) as [r|] eqn:E; [|contradiction].
    simpl append. rewrite (search_here _ _ _ E). discriminate.
  - change (String c pre ++ m ++ t) with (String c (pre ++ m ++ t)).
    cbn [search].
    destruct (matchHere p "" (String c (pre ++ m ++ t)));
      [discriminate | exact IH].
Qed.

Lemma Parses_lit_intro (a : string) (p : regex) (cap m cap' : string) :
  Parses p cap m cap' -> Parses (lit a ++ p)%list cap (a ++ m) cap'.
Proof.
  intros H. induction a as [|c a IH]; [exact H|].
  change (exists m0, String c (a ++ m) = String c m0
                     /\ Parses (lit a ++ p)%list cap m0 cap').
  exists (a ++ m). split; [reflexivity | exact IH].
Qed.

(** *** The shape of the statements *)

Lemma hop_text_parses (ws1 ws2 digits : string) :
  every isSpace ws1 = true -> every isSpace ws2 = true ->
  digits <> "" -> every isDigit digits = true ->
  Parses hopsRe "" (hopsKey ++ ws1 ++ "=" ++ ws2 ++ digits) digits.
Proof.
  intros H1 H2 Hne Hd. unfold hopsRe, hopsKey. apply Parses_lit_intro.
  cbn [Parses]. exists ws1, ("=" ++ ws2 ++ digits).
  repeat split; [exact H1 | lia|].
  exists (ws2 ++ digits). split; [reflexivity|].
  exists ws2, digits. repeat split; [exact H2 | lia|].
  exists digits, "". rewrite append_empty.
  repeat split; [exact Hd|]. destruct digits; [contradiction | simpl; lia].
Qed.

Lemma focused_text_parses (ws1 ws2 body : string) :
  every isSpace ws1 = true -> every isSpace ws2 = true ->
  every notRBracket body = true ->
  Parses focusedRe ""
    (focusedKey ++ ws1 ++ "=" ++ ws2 ++ "[" ++ body ++ "]") body.
Proof.
  intros H1 H2 Hb. unfold focusedRe, focusedKey. apply Parses_lit_intro.
  cbn [Parses]. exists ws1, ("=" ++ ws2 ++ "[" ++ body ++ "]").
  repeat split; [exact H1 | lia|].
  exists (ws2 ++ "[" ++ body ++ "]"). split; [reflexivity|].
  exists ws2, ("[" ++ body ++ "]"). repeat split; [exact H2 | lia|].
  exists (body ++ "]"). split; [reflexivity|].
  exists body, "]". repeat split; [exact Hb | lia|].
  exists "". repeat split.
Qed.

Lemma statement_found (s digits : string) :
  HopStatementAt s digits -> matchHere hopsRe "" s <> None.
Proof.
  intros [ws1 [ws2 [post [-> [H1 [H2 [Hne Hd]]]]]]].
  replace (hopsKey ++ ws1 ++ "=" ++ ws2 ++ digits ++ post)
    with ((hopsKey ++ ws1 ++ "=" ++ ws2 ++ digits) ++ post)
    by (unfold hopsKey; flatten_appends; reflexivity).
  apply (matchHere_complete hopsRe "" _ digits).
  apply hop_text_parses; assumption.
Qed.

Lemma matched_statement (s digits rest : string) :
  matchHere hopsRe "" s = Some (digits, rest) -> HopStatementAt s digits.
Proof.
  intros E. apply matchHere_sound in E. destruct E as [m [-> P]].
  unfold hopsRe in P. apply Parses_lit in P. destruct P as [m1 [-> P]].
  cbn [Parses] in P.
  destruct P as [ws1 [m2 [-> [Hws1 [_ [m3 [-> P]]]]]]].
  destruct P as [ws2 [m4 [-> [Hws2 [_ [d [m5 [-> [Hd [Hl [-> ->]]]]]]]]]]].
  exists ws1, ws2, rest. repeat split; try assumption.
  - unfold hopsKey. flatten_appends. reflexivity.
  - intros ->. simpl in Hl. lia.
Qed.

Lemma hop_literal_found (content digits : string) :
  HopLiteral content digits -> search hopsRe content <> None.
Proof.
  intros [pre [ws1 [ws2 [post [-> [H1 [H2 [Hne Hd]]]]]]]].
  replace (pre ++ "ext.downstreamHops" ++ ws1 ++ "=" ++ ws2 ++ digits ++ post)
    with (pre ++ (hopsKey ++ ws1 ++ "=" ++ ws2 ++ digits) ++ post)
    by (unfold hopsKey; flatten_appends; reflexivity).
  apply (search_complete hopsRe pre _ digits).
  apply hop_text_parses; assumption.
Qed.

Lemma focused_literal_found (content body : string) :
  FocusedLiteral content body -> search focusedRe content <> None.
Proof.
  intros [pre [ws1 [ws2 [post [-> [H1 [H2 Hb]]]]]]].
  replace (pre ++ "ext.focusedProjects" ++ ws1 ++ "=" ++ ws2 ++ "[" ++ body
               ++ "]" ++ post)
    with (pre ++ (focusedKey ++ ws1 ++ "=" ++ ws2 ++ "[" ++ body ++ "]")
              ++ post)
    by (unfold focusedKey; flatten_appends; reflexivity).
  apply (search_complete focusedRe pre _ body).
  apply focused_text_parses; assumption.
Qed.

(** *** Plain conditions under which no statement is found *)

Lemma prefix_append (k x : string) : String.prefix k (k ++ x) = true.
Proof.
  induction k as [|c k IH]; [destruct x; reflexivity|].
  simpl. destruct (ascii_dec c c) as [_ | N]; [exact IH | contradiction].
Qed.

Lemma contains_append (k pre x : string) : contains k (pre ++ k ++ x) = true.
Proof.
  induction pre as [|c pre IH].
  - simpl append. pose proof (prefix_append k x) as H.
    destruct (k ++ x); cbn [contains]; rewrite H; reflexivity.
  - change (String c pre ++ k ++ x) with (String c (pre ++ k ++ x)).
    cbn [contains]. rewrite IH. apply orb_true_r.
Qed.

Lemma focused_literal_plain (content body : string) :
  FocusedLiteral content body ->
  contains focusedKey content = true /\ occurs "]" content = true.
Proof.
  intros [pre [ws1 [ws2 [post [-> _]]]]]. split.
  - apply (contains_append focusedKey pre).
  - rewrite !occurs_append. simpl. rewrite !orb_true_r. reflexivity.
Qed.

Lemma hop_literal_plain (content digits : string) :
  HopLiteral content digits -> contains hopsKey content = true.
Proof.
  intros [pre [ws1 [ws2 [post [-> _]]]]].
  apply (contains_append hopsKey pre).
Qed.

(** *** The first statement *)

Lemma tails_In (pre a b : string) :
  pre = a ++ b -> b <> "" -> In b (tails pre).
Proof.
  revert pre. induction a as [|c a IH]; intros pre -> Hb.
  - simpl. destruct b; [contradiction | left; reflexivity].
  - change (String c a ++ b) with (String c (a ++ b)). cbn [tails].
    right. apply IH; [reflexivity | exact Hb].
Qed.

(** A prefix none of whose positions starts a match holds no
    statement. *)
Lemma statements_checked (pre s : string) :
  (forall b, In b (tails pre) -> matchHere hopsRe "" (b ++ s) = None) ->
  noStatementBefore pre s.
Proof.
  intros H a b digits E Hb K.
  apply (statement_found _ _ K), H, (tails_In pre a b E Hb).
Qed.

Lemma search_first_statement (pre s : string) r :
  noStatementBefore pre s ->
  matchHere hopsRe "" s = Some r ->
  search hopsRe (pre ++ s) = Some r.
Proof.
  intros H E. induction pre as [|c pre IH].
  - apply search_here, E.
  - change (String c pre ++ s) with (String c (pre ++ s)).
    rewrite search_step.
    + apply IH. intros a b digits -> Hb.
      apply (H (String c a) b digits); [reflexivity | exact Hb].
    + destruct (matchHere hopsRe "" (String c (pre ++ s)))
        as [[digits rest]|] eqn:M; [|reflexivity].
      destruct (H "" (String c pre) digits eq_refl); [discriminate|].
      exact (matched_statement _ _ _ M).
Qed.

Lemma statement_read (ws1 ws2 digits post : string) :
  every isSpace ws1 = true -> every isSpace ws2 = true ->
  digits <> "" -> every isDigit digits = true ->
  stops isDigit post ->
  matchHere hopsRe "" (hopsKey ++ ws1 ++ "=" ++ ws2 ++ digits ++ post)
  = Some (digits, post).
Proof.
  intros H1 H2 Hne Hd Hp.
  assert (Hl : (1 <= length digits)%nat)
    by (destruct digits; [contradiction | simpl; lia]).
  unfold hopsRe, hopsKey. rewrite matchHere_lit.
  apply matchHere_Rep; [exact H1 | simpl; lia | exact eq_refl|].
  change ("=" ++ ws2 ++ digits ++ post)
    with (String "=" (ws2 ++ digits ++ post)).
  rewrite matchHere_Lit.
  apply matchHere_Rep;
    [exact H2 | simpl; lia | apply digits_stop_blanks; assumption|].
  apply matchHere_Rep; [exact Hd | exact Hl | exact Hp | reflexivity].
Qed.

(** C8, as stated, at literals that are not what [writeConfig] writes
    and that the loader reads all the same: a list without quotes, a
    list closed only by the bracket of a later line, a hop bound with a
    fraction; and at a path that cannot be read, where the loader
    throws. *)
Lemma defaults_counterexample :
  focusedProjects (readConfig (Some "ext.focusedProjects = [a, b c]"))
  = ["a"; "b c"]
  /\ focusedProjects (readConfig (Some Fixtures.runawayList))
     = ["project-001'" ++ nl ++ "ext.other = [1"]
  /\ downstreamHops (readConfig (Some "ext.downstreamHops = 3.9")) = 3%Z
  /\ Strict.readConfig Strict.Unreadable = Strict.Throw.
Proof. repeat split; vm_compute; reflexivity. Qed.

(** C8, amended: without a file the loader returns the default
    configuration; it throws exactly when the path exists and cannot be
    read.  For a file that is read, the focused list is empty when no
    text of the file has the shape of a focused-list statement, in
    particular when the file does not hold the key or holds no closing
    bracket, and the hop bound is 1 when no text of the file has the
    shape of a hop statement, in particular when the file does not hold
    the key.  A text of the shape of a statement is read, whatever it
    holds: the focused list is then made of the items of such a text,
    and the hop bound, within the exact range, is the number of such a
    text. *)
Theorem readConfig_defaults :
  Strict.readConfig Strict.Missing
  = Strict.Normal {| focusedProjects := []; downstreamHops := 1 |}
  /\ (forall path,
        Strict.readConfig path = Strict.Throw <-> path = Strict.Unreadable)
  /\ (forall content,
        (forall body, ~ FocusedLiteral content body) ->
        focusedProjects (readConfig (Some content)) = [])
  /\ (forall content,
        (forall digits, ~ HopLiteral content digits) ->
        downstreamHops (readConfig (Some content)) = 1%Z)
  /\ (forall content,
        contains focusedKey content = false \/ occurs "]" content = false ->
        focusedProjects (readConfig (Some content)) = [])
  /\ (forall content,
        contains hopsKey content = false ->
        downstreamHops (readConfig (Some content)) = 1%Z)
  /\ (forall content body,
        FocusedLiteral content body ->
        exists body',
          FocusedLiteral content body'
          /\ focusedProjects (readConfig (Some content)) = items body')
  /\ (forall content digits,
        HopLiteral content digits ->
        (downstreamHops (readConfig (Some content)) <= MAX_SAFE_INTEGER)%Z ->
        exists digits',
          HopLiteral content digits'
          /\ downstreamHops (readConfig (Some content)) = parseInt digits').
Proof.
  assert (F : forall content,
             (forall body, ~ FocusedLiteral content body) ->
             focusedProjects (readConfig (Some content)) = []).
  { intros content H. rewrite readConfig_focused.
    destruct (search focusedRe content) as [[body rest]|] eqn:E;
      [|reflexivity].
    destruct (H body (focused_match_wellformed _ _ _ E)). }
  assert (G : forall content,
             (forall digits, ~ HopLiteral content digits) ->
             downstreamHops (readConfig (Some content)) = 1%Z).
  { intros content H. rewrite readConfig_hops.
    destruct (search hopsRe content) as [[digits rest]|] eqn:E;
      [|reflexivity].
    destruct (H digits (hops_match_wellformed _ _ _ E)). }
  split; [reflexivity|]. split; [|split; [exact F|]; split; [exact G|]].
  { intros path. destruct path; split; intros H;
      (discriminate || reflexivity). }
  split; [|split; [|split]].
  - intros content H. apply F. intros body L.
    destruct (focused_literal_plain _ _ L) as [L1 L2].
    destruct H as [H | H]; congruence.
  - intros content H. apply G. intros digits L.
    rewrite (hop_literal_plain _ _ L) in H. discriminate.
  - intros content body L. rewrite readConfig_focused.
    destruct (search focusedRe content) as [[body' rest]|] eqn:E.
    + exists body'. split; [|reflexivity].
      exact (focused_match_wellformed _ _ _ E).
    + destruct (focused_literal_found _ _ L E).
  - intros content digits L _. rewrite readConfig_hops.
    destruct (search hopsRe content) as [[digits' rest]|] eqn:E.
    + exists digits'. split; [|reflexivity].
      exact (hops_match_wellformed _ _ _ E).
    + destruct (hop_literal_found _ _ L E).
Qed.

Lemma readConfig_defaults_witness :
  focusedProjects (readConfig (Some Fixtures.unclosedList)) = []
  /\ downstreamHops (readConfig (Some Fixtures.unclosedList)) = 1%Z
  /\ exists body,
       FocusedLiteral Fixtures.bareList body
       /\ focusedProjects (readConfig (Some Fixtures.bareList)) = items body.
Proof.
  destruct readConfig_defaults as [_ [_ [_ [_ [F [G [L _]]]]]]].
  split; [|split].
  - apply F. right. reflexivity.
  - apply G. reflexivity.
  - apply (L Fixtures.bareList "a, b c").
    exists "", " ", " ", "". repeat split.
Defined.

(** C10, as stated, at two hand-edited files: a hop value that is not a
    number loads as its leading digits, and a negative hop value
    followed by a comment loads as the number of the comment. *)
Lemma loaded_hops_counterexample :
  downstreamHops (readConfig (Some "ext.downstreamHops = 5x")) = 5%Z
  /\ downstreamHops
       (readConfig
          (Some "ext.downstreamHops = -5 // was ext.downstreamHops = 3"))
     = 3%Z.
Proof. split; vm_compute; reflexivity. Qed.

(** C10, amended: the hop bound of a loaded configuration is never
    negative.  Within the exact range it is 1 when no text of the file
    has the shape of a hop statement, and the number of such a text
    otherwise: the number read is the longest run of digits of the first
    hop statement of the file, whatever follows the digits and whatever
    stands before the statement.  A file of the layout [writeConfig]
    writes whose hop value starts with neither a digit nor a blank, a
    negative number in particular, and holds no hop statement further on
    loads with hop bound 1. *)
Theorem loaded_hops_nonnegative :
  (forall file, (0 <= downstreamHops (readConfig file))%Z)
  /\ (forall content,
        (downstreamHops (readConfig (Some content)) <= MAX_SAFE_INTEGER)%Z ->
        ((forall digits, ~ HopLiteral content digits)
         /\ downstreamHops (readConfig (Some content)) = 1%Z)
        \/ exists digits,
             HopLiteral content digits
             /\ downstreamHops (readConfig (Some content)) = parseInt digits)
  /\ (forall pre ws1 ws2 digits post,
        every isSpace ws1 = true -> every isSpace ws2 = true ->
        digits <> "" -> every isDigit digits = true ->
        stops isDigit post ->
        noStatementBefore pre
          (hopsKey ++ ws1 ++ "=" ++ ws2 ++ digits ++ post) ->
        (parseInt digits <= MAX_SAFE_INTEGER)%Z ->
        downstreamHops
          (readConfig
             (Some (pre ++ hopsKey ++ ws1 ++ "=" ++ ws2 ++ digits ++ post)))
        = parseInt digits)
  /\ (forall focused v,
        (forall p, In p focused -> search hopsRe p = None) ->
        stops (fun c => isDigit c || isSpace c) v ->
        search hopsRe v = None ->
        downstreamHops (readConfig (Some (configText focused v))) = 1%Z)
  /\ (forall focused hops,
        (forall p, In p focused -> search hopsRe p = None) ->
        (hops < 0)%Z ->
        downstreamHops (readConfig (Some (writeConfig focused hops))) = 1%Z).
Proof.
  assert (Rejected : forall focused v,
             (forall p, In p focused -> search hopsRe p = None) ->
             stops (fun c => isDigit c || isSpace c) v ->
             search hopsRe v = None ->
             downstreamHops (readConfig (Some (configText focused v))) = 1%Z).
  { intros focused v Hids Hv Hnone.
    rewrite readConfig_hops, (search_hops_configText _ _ Hids).
    rewrite (search_after_rejected _ Hv), Hnone. reflexivity. }
  split; [|split; [|split; [|split]]].
  - intros [content|]; [|discriminate].
    rewrite readConfig_hops.
    destruct (search hopsRe content) as [[digits rest]|]; [|discriminate].
    apply parseDigits_nonneg. lia.
  - intros content _. rewrite readConfig_hops.
    destruct (search hopsRe content) as [[digits rest]|] eqn:E.
    + right. exists digits. split; [|reflexivity].
      exact (hops_match_wellformed _ _ _ E).
    + left. split; [|reflexivity].
      intros digits L. exact (hop_literal_found _ _ L E).
  - intros pre ws1 ws2 digits post H1 H2 Hne Hd Hp Hfirst _.
    rewrite readConfig_hops.
    rewrite (search_first_statement pre _ (digits, post) Hfirst);
      [reflexivity|].
    apply statement_read; assumption.
  - exact Rejected.
  - intros focused hops Hids Hneg.
    rewrite writeConfig_text, (numberToString_negative hops Hneg).
    apply Rejected; [exact Hids | reflexivity |].
    rewrite search_step by (apply hops_skip; discriminate).
    rewrite hops_starts_with_e. apply search_without_first.
    apply (every_not_occurs isDigit); [reflexivity|].
    apply natural_spec. lia.
Qed.

Lemma loaded_hops_nonnegative_witness :
  downstreamHops (readConfig (Some Fixtures.commentedHops)) = 3%Z
  /\ downstreamHops (readConfig (Some (writeConfig ["project-001"] (-5))))
     = 1%Z.
Proof.
  destruct loaded_hops_nonnegative as [_ [_ [First [_ Negative]]]].
  split.
  - assert (Hfirst : noStatementBefore "ext.downstreamHops = -5 // was "
                       (hopsKey ++ " " ++ "=" ++ " " ++ "3" ++ "")).
    { apply statements_checked. intros b Hb. cbn [tails In] in Hb.
      repeat (destruct Hb as [<- | Hb]; [vm_compute; reflexivity|]).
      destruct Hb. }
    assert (Hrange : (parseInt "3" <= MAX_SAFE_INTEGER)%Z)
      by (vm_compute; discriminate).
    assert (Hdigits : "3" <> "") by discriminate.
    exact (First "ext.downstreamHops = -5 // was " " " " " "3" ""
             eq_refl eq_refl Hdigits eq_refl I Hfirst Hrange).
  - apply Negative.
    + intros p [<- | []]. vm_compute. reflexivity.
    + lia.
Defined.

End LoadFacts.

(** ** The examples of the specification *)

Module SpecExamples.

Import Js Regex Dict Server Notions.

Example save_text :
  writeConfig ["A"; "C"] 2 =
  "ext.focusedProjects = ['A', 'C']" ++ nl ++ "ext.downstreamHops = 2".
Proof. vm_compute. reflexivity. Qed.

Example load_tolerant :
  readConfig (Some ("ext.focusedProjects=[ 'a' , b,, 'c'  ]" ++ nl
                    ++ "ext.downstreamHops   =007")) =
  {| focusedProjects := ["a"; "b"; "c"]; downstreamHops := 7 |}.
Proof. vm_compute. reflexivity. Qed.

Example chain_one_hop :
  computeIncluded Fixtures.chain ["project-003"] 1 =
  ["project-003"; "project-002"].
Proof. vm_compute. reflexivity. Qed.

Example chain_two_hops :
  computeIncluded Fixtures.chain ["project-003"] 2 =
  ["project-003"; "project-002"; "project-001"].
Proof. vm_compute. reflexivity. Qed.

Example manifest_directives :
  parseManifest
    ("plugins { id 'java' }" ++ nl
     ++ "dependencies {" ++ nl
     ++ "  implementation focusedDep(':project-7')" ++ nl
     ++ "  implementation focusedDep(':project-012')" ++ nl
     ++ "  implementation project(':project-020')" ++ nl
     ++ "}") =
  ["project-007"; "project-012"].
Proof. vm_compute. reflexivity. Qed.

Example status_paths :
  currentChangesOf ("M  project-001/a.txt" ++ nl ++ "?? project-002/b.txt"
                    ++ nl ++ "A  README.md" ++ nl) =
  ["project-001/a.txt"; "project-002/b.txt"; "README.md"].
Proof. vm_compute. reflexivity. Qed.

(** A path that stays dirty is reported once: on the second tick only
    the project of the new path is in the payload. *)
Example second_tick_reports_new_path_only :
  let tick1 := checkGitChanges None [] [] (GitOutput Fixtures.firstStatus) in
  let tick2 :=
    checkGitChanges None [] (fst tick1) (GitOutput Fixtures.secondStatus) in
  option_map changedProjects (snd tick1) = Some ["project-001"]
  /\ option_map changedProjects (snd tick2) = Some ["project-002"]
  /\ fst tick2 = ["project-001/x.txt"; "project-002/y.txt"].
Proof. vm_compute. repeat split. Qed.

End SpecExamples.

(** * Further properties of the code *)

(** ** The program with its exceptions *)

Module StrictFacts.

Import Js Dict Server Notions JsFacts IncludedFacts GraphFacts.

Lemma dependentsOf_plain (reverse : dict) (proj : string) :
  Strict.plainName proj = true ->
  Strict.dependentsOf reverse proj = Some (getOr proj reverse).
Proof.
  unfold Strict.plainName, Strict.dependentsOf, getOr. intros H.
  apply negb_true_iff in H. rewrite H.
  destruct (get proj reverse); reflexivity.
Qed.

Lemma dependentsOf_inherited (reverse : dict) (proj : string) :
  mem proj Strict.prototypeMembers = true ->
  get proj reverse = None ->
  Strict.dependentsOf reverse proj = None.
Proof.
  unfold Strict.dependentsOf. intros Hm Hg. rewrite Hg, Hm. reflexivity.
Qed.

Lemma getOr_within (S : string -> Prop) (reverse : dict) (proj x : string) :
  dependentsWithin S reverse -> In x (getOr proj reverse) -> S x.
Proof.
  unfold getOr. intros H.
  destruct (get proj reverse) as [l|] eqn:E; [|intros []].
  intros Hx. exact (H _ _ _ (get_In _ _ _ E) Hx).
Qed.

Lemma strict_addDependents_unfold reverse fuel proj hops st :
  Strict.addDependents reverse (S fuel) proj hops st =
  if (hops <? 0)%Z || mem proj (snd st) then Strict.Normal st
  else if (0 <? hops)%Z then
    match Strict.dependentsOf reverse proj with
    | Some dependents =>
        fold_left
          (fun acc dep =>
             Strict.bind acc (fun st =>
               if mem dep (fst st) then Strict.Normal st
               else Strict.addDependents reverse fuel dep (hops - 1)
                      (setAdd dep (fst st), snd st)))
          dependents (Strict.Normal (fst st, setAdd proj (snd st)))
    | None => Strict.Throw
    end
  else Strict.Normal (fst st, setAdd proj (snd st)).
Proof. reflexivity. Qed.

(** Where no lookup finds an inherited member the walk returns, and
    returns what [Server.addDependents] computes. *)
Lemma strict_addDependents (reverse : dict) :
  forall fuel proj hops st,
    (hops <= 0)%Z
    \/ (Strict.plainName proj = true
        /\ ((hops <= 1)%Z \/ Strict.plainDependents reverse)) ->
    Strict.addDependents reverse fuel proj hops st =
    Strict.Normal (addDependents reverse fuel proj hops st).
Proof.
  induction fuel as [|fuel IH]; intros proj hops st H; [reflexivity|].
  rewrite strict_addDependents_unfold, addDependents_unfold.
  destruct ((hops <? 0)%Z || mem proj (snd st)); [reflexivity|].
  destruct (0 <? hops)%Z eqn:Hpos; [|reflexivity].
  apply Z.ltb_lt in Hpos.
  destruct H as [H | [Hp Hd]]; [lia|].
  rewrite (dependentsOf_plain _ _ Hp).
  assert (Hdeps : forall dep, In dep (getOr proj reverse) ->
                    (hops - 1 <= 0)%Z
                    \/ (Strict.plainName dep = true
                        /\ ((hops - 1 <= 1)%Z
                            \/ Strict.plainDependents reverse))).
  { intros dep Hin. destruct Hd as [Hd | Hd]; [left; lia|].
    right. split; [|right; exact Hd].
    exact (getOr_within _ _ _ _ Hd Hin). }
  revert Hdeps. generalize (fst st, setAdd proj (snd st)).
  induction (getOr proj reverse) as [|dep l IHl]; intros st0 Hdeps;
    [reflexivity|].
  cbn [fold_left Strict.bind].
  rewrite (IH dep (hops - 1)%Z (setAdd dep (fst st0), snd st0))
    by (apply Hdeps; left; reflexivity).
  replace (if mem dep (fst st0) then Strict.Normal st0
           else Strict.Normal
                  (addDependents reverse fuel dep (hops - 1)
                     (setAdd dep (fst st0), snd st0)))
    with (Strict.Normal
            (if mem dep (fst st0) then st0
             else addDependents reverse fuel dep (hops - 1)
                    (setAdd dep (fst st0), snd st0)))
    by (destruct (mem dep (fst st0)); reflexivity).
  apply IHl. intros d Hd'. apply Hdeps. right. exact Hd'.
Qed.

Lemma strict_computeIncluded (reverse : dict) (focused : list string)
    (hops : Z) :
  Strict.lookupsSafe reverse focused hops ->
  Strict.computeIncluded reverse focused hops =
  Strict.Normal (computeIncluded reverse focused hops).
Proof.
  intros H. unfold Strict.computeIncluded, computeIncluded.
  destruct (List.length focused =? 0)%nat; [reflexivity|].
  assert (Hs : forall s, In s focused ->
                 (hops <= 0)%Z
                 \/ (Strict.plainName s = true
                     /\ ((hops <= 1)%Z \/ Strict.plainDependents reverse))).
  { intros s Hin. destruct H as [H | [Hp Hd]]; [left; exact H|].
    right. split; [apply Hp, Hin | exact Hd]. }
  clear H.
  enough (G : forall included,
             fold_left
               (fun acc proj =>
                  Strict.bind acc (fun included =>
                    Strict.bind
                      (Strict.addDependents reverse (fuelFor hops) proj hops
                         (setAdd proj included, []))
                      (fun st => Strict.Normal (fst st))))
               focused (Strict.Normal included)
             = Strict.Normal
                 (fold_left
                    (fun included proj =>
                       fst (addDependents reverse (fuelFor hops) proj hops
                              (setAdd proj included, [])))
                    focused included))
    by apply G.
  induction focused as [|proj l IHl]; intros included; [reflexivity|].
  cbn [fold_left Strict.bind].
  rewrite strict_addDependents by (apply Hs; left; reflexivity).
  cbn [Strict.bind]. apply IHl. intros s Hin. apply Hs. right. exact Hin.
Qed.

Lemma fold_bind_throw {A B : Type} (f : A -> B -> Strict.completion A)
    (l : list B) :
  fold_left (fun acc x => Strict.bind acc (fun a => f a x)) l Strict.Throw
  = Strict.Throw.
Proof. induction l as [|x l IH]; [reflexivity | exact IH]. Qed.

(** A focused name that the reverse adjacency inherits from
    [Object.prototype] makes the walk throw as soon as a hop is to be
    made. *)
Lemma computeIncluded_throws (reverse : dict) (focused : list string)
    (hops : Z) (seed : string) :
  (0 < hops)%Z ->
  In seed focused ->
  mem seed Strict.prototypeMembers = true ->
  get seed reverse = None ->
  Strict.computeIncluded reverse focused hops = Strict.Throw.
Proof.
  intros Hpos Hin Hm Hg. unfold Strict.computeIncluded.
  destruct focused as [|s0 rest] eqn:Ef; [destruct Hin|].
  rewrite <- Ef in *. clear Ef s0 rest.
  replace (List.length focused =? 0)%nat with false
    by (destruct focused; [destruct Hin | reflexivity]).
  generalize (Strict.Normal (@nil string)).
  induction focused as [|proj l IHl]; intros acc; [destruct Hin|].
  cbn [fold_left].
  destruct Hin as [-> | Hin]; [|apply IHl, Hin].
  destruct acc as [included|]; cbn [Strict.bind];
    [|apply (fold_bind_throw
               (fun included proj =>
                  Strict.bind
                    (Strict.addDependents reverse (fuelFor hops) proj hops
                       (setAdd proj included, []))
                    (fun st => Strict.Normal (fst st))))].
  unfold fuelFor. rewrite strict_addDependents_unfold.
  cbn [snd mem]. rewrite orb_false_r.
  replace (hops <? 0)%Z with false by (symmetry; apply Z.ltb_ge; lia).
  replace (0 <? hops)%Z with true by (symmetry; apply Z.ltb_lt; lia).
  rewrite (dependentsOf_inherited _ _ Hm Hg). cbn [Strict.bind].
  apply (fold_bind_throw
           (fun included proj =>
              Strict.bind
                (Strict.addDependents reverse (S (Z.to_nat hops)) proj hops
                   (setAdd proj included, []))
                (fun st => Strict.Normal (fst st)))).
Qed.

(** The reverse adjacency built by [buildGraph] lists registry projects
    only, none of which is a name of [Object.prototype]. *)
Lemma registry_plain (p : string) :
  In p projects -> Strict.plainName p = true.
Proof.
  assert (H : forallb Strict.plainName projects = true)
    by (vm_compute; reflexivity).
  rewrite forallb_forall in H. apply H.
Qed.

Lemma buildGraph_plainDependents (manifest : string -> option string) :
  Strict.plainDependents (reverseDepMap (buildGraph manifest)).
Proof.
  unfold Strict.plainDependents. rewrite buildGraph_reverseDepMap.
  apply (reverse_within manifest (fun x => Strict.plainName x = true)
           projects ([], [])).
  - exact registry_plain.
  - intros k l x K. destruct K.
Qed.

Lemma strict_readConfig (file : option string) :
  Strict.readConfig (Strict.onDisk file) = Strict.Normal (readConfig file).
Proof. destruct file; reflexivity. Qed.

Lemma strict_checkGitChanges file reverse last result :
  Strict.lookupsSafe reverse (focusedProjects (readConfig file))
                     (downstreamHops (readConfig file)) ->
  Strict.checkGitChanges (Strict.onDisk file) reverse last result =
  Strict.Normal (checkGitChanges file reverse last result).
Proof.
  intros H. destruct result as [|stdout]; [reflexivity|].
  unfold Strict.checkGitChanges, checkGitChanges. cbv zeta.
  destruct (0 <? List.length (newChangesOf last (currentChangesOf stdout)))%nat;
    [|reflexivity].
  rewrite strict_readConfig. cbn [Strict.bind].
  rewrite (strict_computeIncluded _ _ _ H). reflexivity.
Qed.

Lemma strict_ideaExcluded file reverse :
  Strict.lookupsSafe reverse (focusedProjects (readConfig file))
                     (downstreamHops (readConfig file)) ->
  Strict.ideaExcluded (Strict.onDisk file) reverse =
  Strict.Normal (Idea.ideaExcluded file reverse).
Proof.
  intros H. unfold Strict.ideaExcluded, Idea.ideaExcluded.
  rewrite strict_readConfig. cbn [Strict.bind].
  rewrite (strict_computeIncluded _ _ _ H). reflexivity.
Qed.

End StrictFacts.


(** ** The included set of the two servers *)

Module ReachExtras.

Import Js Dict Server JsFacts Reach IncludedFacts.

(** X1: for a non-empty focus, every project returned by
    [computeIncluded] is a focused project or is reached from one along
    at most [hops] edges of the reverse adjacency. *)
Theorem server_result_within_hops :
  forall (reverse : dict) (focused : list string) (hops : Z) (p : string),
    focused <> [] ->
    In p (computeIncluded reverse focused hops) ->
    exists seed,
      In seed focused /\ WithinHops reverse (Z.to_nat hops) seed p.
Proof.
  intros reverse focused hops p Hne Hp.
  exact (computeIncluded_sound reverse focused hops p Hne Hp).
Qed.

Lemma server_result_within_hops_witness :
  exists seed,
    In seed ["project-001"]
    /\ WithinHops Fixtures.ladder (Z.to_nat 3) seed "project-004".
Proof.
  apply (server_result_within_hops Fixtures.ladder ["project-001"] 3).
  - discriminate.
  - apply (proj1 (mem_In _ _)). vm_compute. reflexivity.
Defined.

(** X2: with hop bound 1 and a non-empty focus none of whose names is
    inherited from [Object.prototype], [computeIncluded] returns, and
    its result is exactly the focused projects and their direct
    dependents. *)
Theorem server_one_hop_exact :
  forall (reverse : dict) (focused : list string),
    focused <> [] ->
    (forall s, In s focused -> Strict.plainName s = true) ->
    exists result,
      Strict.computeIncluded reverse focused 1 = Strict.Normal result
      /\ forall p,
           In p result <->
           In p focused
           \/ exists seed, In seed focused /\ In p (getOr seed reverse).
Proof.
  intros reverse focused Hne Hplain.
  exists (computeIncluded reverse focused 1). split.
  - apply StrictFacts.strict_computeIncluded. right.
    split; [exact Hplain | left; lia].
  - intros p. rewrite (computeIncluded_one_hop reverse focused p Hne). split.
    + intros [seed [Hs Hw]].
      inversion Hw as [| n a q r Hq Hr]; subst; [left; exact Hs|].
      inversion Hr; subst. right. exists seed. split; assumption.
    + intros [Hp | [seed [Hs Hd]]].
      * exists p. split; [exact Hp | apply within_self].
      * exists seed. split; [exact Hs|].
        apply within_step with (q := p); [exact Hd | apply within_self].
Qed.

Lemma server_one_hop_exact_witness :
  exists result,
    Strict.computeIncluded Fixtures.ladder ["project-001"] 1
    = Strict.Normal result
    /\ forall p,
         In p result <->
         In p ["project-001"]
         \/ exists seed,
              In seed ["project-001"] /\ In p (getOr seed Fixtures.ladder).
Proof.
  assert (Hne : ["project-001"] <> []) by discriminate.
  assert (Hplain : forall s, In s ["project-001"] ->
                     Strict.plainName s = true)
    by (intros s [<- | []]; reflexivity).
  exact (server_one_hop_exact Fixtures.ladder ["project-001"] Hne Hplain).
Defined.

(** X3: when no lookup of the walk finds a member inherited from
    [Object.prototype] (there is no hop to make, or the focused names
    are plain and, beyond one hop, the dependents too),
    [computeIncluded] returns and every focused project is in its
    result; when the hop bound is positive, so is every direct dependent
    of a focused project. *)
Theorem server_keeps_focus_and_direct_dependents :
  forall (reverse : dict) (focused : list string) (hops : Z) (seed : string),
    Strict.lookupsSafe reverse focused hops ->
    In seed focused ->
    exists result,
      Strict.computeIncluded reverse focused hops = Strict.Normal result
      /\ In seed result
      /\ ((0 < hops)%Z ->
          forall dep, In dep (getOr seed reverse) -> In dep result).
Proof.
  intros reverse focused hops seed Hsafe Hs.
  exists (computeIncluded reverse focused hops). split.
  - apply StrictFacts.strict_computeIncluded, Hsafe.
  - exact (computeIncluded_seeds_and_dependents reverse focused hops seed Hs).
Qed.

Lemma server_keeps_focus_and_direct_dependents_witness :
  exists result,
    Strict.computeIncluded Fixtures.ladder ["project-001"] 3
    = Strict.Normal result
    /\ In "project-001" result
    /\ ((0 < 3)%Z ->
        forall dep, In dep (getOr "project-001" Fixtures.ladder) ->
                    In dep result).
Proof.
  assert (Hsafe : Strict.lookupsSafe Fixtures.ladder ["project-001"] 3).
  { right. split; [intros s [<- | []]; reflexivity|]. right.
    exact (StrictFacts.buildGraph_plainDependents Fixtures.ladderManifests). }
  assert (H : In "project-001" ["project-001"]) by (left; reflexivity).
  exact (server_keeps_focus_and_direct_dependents
           Fixtures.ladder ["project-001"] 3 "project-001" Hsafe H).
Defined.

(** X24: a focused name that the reverse adjacency inherits from
    [Object.prototype] ([constructor], [toString], [__proto__] and the
    like) makes [computeIncluded] throw as soon as the hop bound is
    positive: [reverseDepMap[proj] || []] is then not an array and has no
    [forEach].  The handler of [POST /api/applyIdea] then writes nothing,
    and a tick of the watcher with a new change ends in the exception,
    without an event and without taking the snapshot. *)
Theorem focus_on_inherited_name_throws :
  forall (configFile : option string) (reverse : dict) (seed : string),
    let config := readConfig configFile in
    (0 < downstreamHops config)%Z ->
    In seed (focusedProjects config) ->
    mem seed Strict.prototypeMembers = true ->
    get seed reverse = None ->
    Strict.computeIncluded reverse (focusedProjects config)
                           (downstreamHops config) = Strict.Throw
    /\ Strict.applyIdea (Strict.onDisk configFile) reverse = Strict.Throw
    /\ (forall last stdout,
          newChangesOf last (currentChangesOf stdout) <> [] ->
          Strict.checkGitChanges (Strict.onDisk configFile) reverse last
                                 (GitOutput stdout) = Strict.Throw).
Proof.
  intros configFile reverse seed config Hpos Hin Hm Hg.
  assert (E : Strict.computeIncluded reverse (focusedProjects config)
                                     (downstreamHops config) = Strict.Throw)
    by exact (StrictFacts.computeIncluded_throws _ _ _ seed Hpos Hin Hm Hg).
  split; [exact E|]. split.
  - unfold Strict.applyIdea, Strict.ideaExcluded.
    rewrite StrictFacts.strict_readConfig. cbn [Strict.bind].
    fold config. rewrite E. reflexivity.
  - intros last stdout Hnew.
    unfold Strict.checkGitChanges. cbv zeta.
    destruct (newChangesOf last (currentChangesOf stdout)) as [|c l];
      [contradiction|].
    cbn [List.length Nat.ltb Nat.leb].
    rewrite StrictFacts.strict_readConfig. cbn [Strict.bind].
    fold config. rewrite E. reflexivity.
Qed.

Lemma focus_on_inherited_name_throws_witness :
  Strict.computeIncluded Fixtures.ladder ["constructor"] 1 = Strict.Throw.
Proof.
  assert (Hpos : (0 < downstreamHops (readConfig Fixtures.focusOnConstructor))%Z)
    by (vm_compute; reflexivity).
  assert (Hin : In "constructor"
                   (focusedProjects (readConfig Fixtures.focusOnConstructor)))
    by (apply (proj1 (mem_In _ _)); vm_compute; reflexivity).
  assert (Hm : mem "constructor" Strict.prototypeMembers = true)
    by reflexivity.
  assert (Hg : get "constructor" Fixtures.ladder = None)
    by (vm_compute; reflexivity).
  exact (proj1 (focus_on_inherited_name_throws
                  Fixtures.focusOnConstructor Fixtures.ladder "constructor"
                  Hpos Hin Hm Hg)).
Defined.

(** X4: the older server never returns a project that is not a focused
    project or within [hops] reverse edges of one; for an empty focus it
    returns nothing. *)
Theorem legacy_result_within_hops :
  forall (reverse : dict) (focused : list string) (hops : Z) (p : string),
    In p (Legacy.computeIncluded reverse focused hops) ->
    exists seed,
      In seed focused /\ WithinHops reverse (Z.to_nat hops) seed p.
Proof.
  intros reverse focused hops p Hp.
  destruct focused as [|s rest]; [destruct Hp|].
  assert (Hne : s :: rest <> []) by discriminate.
  rewrite <- (computeIncluded_nonempty reverse _ hops Hne) in Hp.
  exact (computeIncluded_sound reverse _ hops p Hne Hp).
Qed.

Lemma legacy_result_within_hops_witness :
  exists seed,
    In seed ["project-001"]
    /\ WithinHops Fixtures.ladder (Z.to_nat 2) seed "project-005".
Proof.
  apply (legacy_result_within_hops Fixtures.ladder ["project-001"] 2).
  apply (proj1 (mem_In _ _)). vm_compute. reflexivity.
Defined.

End ReachExtras.

(** ** The change watcher, continued *)

Module WatcherExtras.

Import Js Regex Dict Server Notions JsFacts StringFacts RegexFacts
       WatcherFacts.

(** On the runs without exception a tick publishes an event exactly when
    some new path names a project that is not in the focused list of the
    configuration. *)
Lemma emitted_iff_unfocused_change :
  forall configFile reverse last stdout,
    (exists ev,
        snd (checkGitChanges configFile reverse last (GitOutput stdout))
        = Some ev)
    <->
    (exists change p,
        In change (newChangesOf last (currentChangesOf stdout))
        /\ projectOf change = Some p
        /\ ~ In p (focusedProjects (readConfig configFile))).
Proof.
  intros configFile reverse last stdout.
  rewrite checkGitChanges_event. cbv zeta.
  set (news := newChangesOf last (currentChangesOf stdout)).
  set (focused := focusedProjects (readConfig configFile)).
  assert (K : forall p,
             In p (filter (fun proj => negb (mem proj focused))
                          (changedProjectsOf news))
             <-> (exists change, In change news /\ projectOf change = Some p)
                 /\ ~ In p focused).
  { intros p. rewrite filter_In, changedProjectsOf_In, negb_true_iff,
      mem_false. reflexivity. }
  split.
  - intros [ev H]. destruct news as [|c news'] eqn:En; [discriminate|].
    destruct (filter _ (changedProjectsOf (c :: news'))) as [|p l] eqn:F;
      [discriminate|].
    destruct (proj1 (K p) (or_introl eq_refl)) as [[change [Hc Hq]] Hf].
    exists change, p. auto.
  - intros [change [p [Hc [Hq Hf]]]].
    assert (Hp : In p (filter (fun proj => negb (mem proj focused))
                              (changedProjectsOf news)))
      by (apply K; eauto).
    destruct news as [|c news'] eqn:En; [destruct Hc|].
    destruct (filter _ (changedProjectsOf (c :: news'))) as [|q l];
      [destruct Hp | eexists; reflexivity].
Qed.



Lemma fold_setAdd_NoDup_option {A : Type} (f : A -> option string)
    (l : list A) :
  forall acc,
    NoDup acc ->
    NoDup (fold_left
             (fun s x => match f x with
                         | Some p => setAdd p s
                         | None => s
                         end) l acc).
Proof.
  induction l as [|x l IH]; intros acc H; simpl; [exact H|].
  apply IH. destruct (f x); [apply NoDup_setAdd, H | exact H].
Qed.

(** X7: in a published event [included] is the included set of the
    current configuration, [excluded] holds exactly the registry projects
    that are not in it, and [changedProjects] is non-empty and lists no
    project twice. *)
Theorem event_payload_shape :
  forall configFile reverse last result ev,
    snd (checkGitChanges configFile reverse last result) = Some ev ->
    included ev =
      computeIncluded reverse (focusedProjects (readConfig configFile))
                      (downstreamHops (readConfig configFile))
    /\ (forall p, In p (excluded ev) <->
                  In p projects /\ ~ In p (included ev))
    /\ changedProjects ev <> []
    /\ NoDup (changedProjects ev).
Proof.
  intros configFile reverse last [|stdout] ev H; [discriminate|].
  rewrite checkGitChanges_event in H. cbv zeta in H.
  set (inc := computeIncluded reverse
                (focusedProjects (readConfig configFile))
                (downstreamHops (readConfig configFile))) in *.
  set (news := newChangesOf last (currentChangesOf stdout)) in *.
  assert (N : NoDup (filter
                       (fun proj =>
                          negb (mem proj
                                  (focusedProjects (readConfig configFile))))
                       (changedProjectsOf news))).
  { apply NoDup_filter. unfold changedProjectsOf.
    apply fold_setAdd_NoDup_option. constructor. }
  destruct news as [|c news']; [discriminate|].
  destruct (filter _ (changedProjectsOf (c :: news'))) as [|q l] eqn:F;
    [discriminate|].
  assert (E : ev = {| changedProjects := q :: l;
                      included := inc;
                      excluded :=
                        filter (fun p => negb (mem p inc)) projects |})
    by congruence.
  rewrite E. cbv beta iota delta [included excluded changedProjects].
  split; [reflexivity|]. split; [|split; [discriminate | exact N]].
  intros p. rewrite filter_In, negb_true_iff, mem_false. reflexivity.
Qed.

Lemma event_payload_shape_witness :
  included Fixtures.mixedEvent =
    computeIncluded Fixtures.ladder
      (focusedProjects (readConfig Fixtures.focusOnFirst))
      (downstreamHops (readConfig Fixtures.focusOnFirst))
  /\ (forall p, In p (excluded Fixtures.mixedEvent) <->
                In p projects /\ ~ In p (included Fixtures.mixedEvent))
  /\ changedProjects Fixtures.mixedEvent <> []
  /\ NoDup (changedProjects Fixtures.mixedEvent).
Proof.
  apply (event_payload_shape Fixtures.focusOnFirst Fixtures.ladder []
           (GitOutput Fixtures.mixedEdits)).
  vm_compute. reflexivity.
Defined.

(** *** The project of a path *)

Section Longest.
Context {R : Type}.
Variable cls : ascii -> bool.
Variable k : string -> string -> option R.
Hypothesis k_total : forall taken rest, k taken rest <> None.

Lemma rep_total (s : string) :
  forall taken, rep cls k 0 taken s <> None.
Proof.
  induction s as [|c s IH]; intros taken; rewrite rep_unfold; cbv zeta.
  - apply k_total.
  - destruct (cls c); [|apply k_total].
    destruct (rep cls k (pred 0) (taken ++ String c "") s) eqn:E;
      [discriminate | apply k_total].
Qed.

(** When the continuation cannot fail, a repetition takes the whole run
    of its class. *)
Lemma rep_longest (s : string) :
  forall least taken r,
    rep cls k least taken s = Some r ->
    exists u v,
      s = u ++ v /\ every cls u = true /\ (least <= length u)%nat
      /\ stops cls v /\ k (taken ++ u) v = Some r.
Proof.
  induction s as [|c s IH]; intros least taken r H;
    rewrite rep_unfold in H; cbv zeta in H.
  - destruct least; [|discriminate].
    exists "", "". rewrite (append_empty taken).
    repeat split; [simpl; lia | exact H].
  - destruct (cls c) eqn:Hc.
    + destruct (rep cls k (pred least) (taken ++ String c "") s)
        as [r'|] eqn:E.
      * injection H as ->.
        destruct (IH _ _ _ E) as [u [v [-> [Hu [Hl [Hs Hk]]]]]].
        exists (String c u), v. rewrite append_snoc in Hk.
        simpl. rewrite Hc, Hu. repeat split; auto. lia.
      * destruct least as [|least]; [|discriminate].
        exfalso. exact (rep_total s _ E).
    + destruct least; [|discriminate].
      exists "", (String c s). rewrite (append_empty taken).
      repeat split; [simpl; lia | exact Hc | exact H].
Qed.

End Longest.

Lemma matchHere_lit_inv (a : string) (p : regex) (cap s : string) r :
  matchHere (lit a ++ p)%list cap s = Some r ->
  exists t, s = a ++ t /\ matchHere p cap t = Some r.
Proof.
  revert s. induction a as [|c a IH]; intros s H.
  - exists s. split; [reflexivity | exact H].
  - change (matchHere (Lit c :: (lit a ++ p)%list) cap s = Some r) in H.
    simpl in H. destruct s as [|d s]; [discriminate|].
    destruct (Ascii.eqb_spec c d) as [<- | _]; [|discriminate].
    destruct (IH _ H) as [t [-> Ht]]. exists t. split; [reflexivity | exact Ht].
Qed.

Lemma substringTo_prefix (a b : string) :
  substringTo (length a) (a ++ b) = a.
Proof. induction a as [|c a IH]; simpl; [destruct b|]; congruence. Qed.

Lemma matched_prefix (a b : string) : matched (a ++ b) b = a.
Proof.
  unfold matched.
  replace (length (a ++ b) - length b)%nat with (length a)
    by (rewrite length_append; lia).
  apply substringTo_prefix.
Qed.

(** X8: the project of a changed path is its leading [project-] followed
    by the longest run of digits that follows, and a path has a project
    exactly when it starts that way. *)
Theorem projectOf_longest_prefix :
  forall (change p : string),
    projectOf change = Some p <->
    exists digits rest,
      change = "project-" ++ digits ++ rest
      /\ every isDigit digits = true
      /\ (1 <= length digits)%nat
      /\ stops isDigit rest
      /\ p = "project-" ++ digits.
Proof.
  intros change p. unfold projectOf, projectRe. split.
  - destruct (matchHere _ "" change) as [[cap rest]|] eqn:E; [|discriminate].
    intros [= <-]. apply matchHere_lit_inv in E.
    destruct E as [t [-> E]]. simpl in E.
    apply rep_longest in E; [|discriminate].
    destruct E as [u [v [-> [Hu [Hl [Hs Hk]]]]]].
    injection Hk as _ <-.
    exists u, v. repeat split; auto.
    rewrite <- (append_assoc "project-" u v). apply matched_prefix.
  - intros [digits [rest [-> [Hd [Hl [Hs ->]]]]]].
    rewrite matchHere_lit.
    rewrite (matchHere_Rep [] isDigit 1 false "" digits rest ("", rest)
               Hd Hl Hs eq_refl).
    rewrite <- (append_assoc "project-" digits rest), matched_prefix.
    reflexivity.
Qed.

End WatcherExtras.

(** ** The dependency graph, continued *)

Module GraphExtras.

Import Js Regex Dict Server Notions JsFacts StringFacts RegexFacts
       IncludedFacts GraphFacts.

Lemma get_app_none (k : string) (d d' : dict) :
  get k d = None -> get k (d ++ d')%list = get k d'.
Proof.
  induction d as [|[k' v'] d IH]; simpl; [reflexivity|].
  destruct (String.eqb k k'); [discriminate | exact IH].
Qed.

Lemma set_new (k : string) (v : list string) (d : dict) :
  get k d = None -> set k v d = (d ++ [(k, v)])%list.
Proof.
  induction d as [|[k' v'] d IH]; simpl; [reflexivity|].
  destruct (String.eqb k k') eqn:E; [discriminate|].
  intros H. rewrite IH by exact H. reflexivity.
Qed.

Lemma forward_layout manifest (l : list string) :
  forall st,
    NoDup l ->
    (forall p, In p l -> get p (fst st) = None) ->
    fst (fold_left (visitProject manifest) l st) =
    (fst st ++ map (fun p => (p, depsOf manifest p)) l)%list.
Proof.
  induction l as [|proj l IH]; intros st Hnd Hnew; simpl.
  - rewrite app_nil_r. reflexivity.
  - inversion Hnd as [|x xs Hx Hl]; subst.
    rewrite IH; [|exact Hl|].
    + rewrite visitProject_fst, set_new by (apply Hnew; left; reflexivity).
      rewrite <- app_assoc. reflexivity.
    + intros p Hp. rewrite visitProject_fst, get_set.
      destruct (String.eqb_spec p proj) as [-> | _]; [contradiction|].
      apply Hnew. right. exact Hp.
Qed.

(** X10: the forward adjacency built by [buildGraph] lists the registry
    projects in registry order, each with the identifiers named in its
    manifest, and the returned edges are these pairs in the same order:
    by source in registry order, then by position in the manifest. *)
Theorem buildGraph_forward_layout :
  forall (manifest : string -> option string),
    depMap (buildGraph manifest) =
      map (fun p => (p, depsOf manifest p)) projects
    /\ edges (buildGraph manifest) =
         flat_map (fun p => map (fun to => (p, to)) (depsOf manifest p))
                  projects
    /\ nodes (buildGraph manifest) = map (fun p => (p, p)) projects.
Proof.
  intros manifest.
  assert (E : fst (fold_left (visitProject manifest) projects ([], [])) =
              map (fun p => (p, depsOf manifest p)) projects).
  { rewrite forward_layout; [reflexivity | apply projects_registry|].
    intros p _. reflexivity. }
  split; [rewrite buildGraph_depMap; exact E|]. split; [|reflexivity].
  rewrite buildGraph_edges, E.
  generalize projects as l. induction l as [|p l IH]; [reflexivity|].
  simpl. rewrite IH. reflexivity.
Qed.

(** *** The reverse adjacency *)

Lemma getOr_pushReverse (k dep proj : string) (r : dict) :
  getOr k (pushReverse dep proj r) =
  if String.eqb k dep then (getOr dep r ++ [proj])%list else getOr k r.
Proof.
  unfold pushReverse, getOr at 1. rewrite get_set.
  destruct (String.eqb k dep) eqn:E.
  - f_equal. unfold getOr. destruct (get dep r) eqn:G; [rewrite G|].
    + reflexivity.
    + rewrite get_set, String.eqb_refl. reflexivity.
  - unfold getOr. destruct (get dep r); [reflexivity|].
    rewrite get_set, E. reflexivity.
Qed.

Lemma visitProject_snd manifest st proj :
  snd (visitProject manifest st proj) =
  fold_left (fun r dep => pushReverse dep proj r) (depsOf manifest proj)
            (snd st).
Proof.
  unfold visitProject, depsOf. destruct (manifest proj); reflexivity.
Qed.

Lemma count_pushes (deps : list string) (proj k x : string) :
  forall r,
    count_occ string_dec
      (getOr k (fold_left (fun r dep => pushReverse dep proj r) deps r)) x =
    (count_occ string_dec (getOr k r) x
     + if string_dec proj x then count_occ string_dec deps k else 0)%nat.
Proof.
  induction deps as [|dep deps IH]; intros r; simpl.
  - destruct (string_dec proj x); lia.
  - rewrite IH, getOr_pushReverse.
    destruct (String.eqb_spec k dep) as [-> | Hk].
    + rewrite count_occ_app. simpl.
      destruct (string_dec dep dep) as [_ | N]; [|contradiction].
      destruct (string_dec proj x); lia.
    + destruct (string_dec dep k) as [-> | _]; [contradiction|].
      reflexivity.
Qed.

Lemma count_reverse manifest (l : list string) (k x : string) :
  forall st,
    count_occ string_dec
      (getOr k (snd (fold_left (visitProject manifest) l st))) x =
    (count_occ string_dec (getOr k (snd st)) x
     + count_occ string_dec l x
       * count_occ string_dec (depsOf manifest x) k)%nat.
Proof.
  induction l as [|proj l IH]; intros st; simpl; [lia|].
  rewrite IH, visitProject_snd, count_pushes.
  destruct (string_dec proj x) as [-> | _]; lia.
Qed.

(** X9: the reverse adjacency built by [buildGraph] is the transpose of
    the forward one, with multiplicities: a registry project occurs among
    the dependents of an identifier as many times as its manifest names
    that identifier, and nothing else occurs there. *)
Theorem reverse_is_transpose :
  forall (manifest : string -> option string) (from to : string),
    count_occ string_dec
      (getOr to (reverseDepMap (buildGraph manifest))) from =
    (if mem from projects
     then count_occ string_dec (depsOf manifest from) to
     else 0%nat)
    /\ (In from (getOr to (reverseDepMap (buildGraph manifest))) <->
        In from projects /\ In to (depsOf manifest from)).
Proof.
  intros manifest from to.
  assert (C : count_occ string_dec
                (getOr to (reverseDepMap (buildGraph manifest))) from =
              if mem from projects
              then count_occ string_dec (depsOf manifest from) to
              else 0%nat).
  { rewrite buildGraph_reverseDepMap, count_reverse.
    change (count_occ string_dec
              (getOr to (snd (@nil (string * list string),
                              @nil (string * list string)))) from)
      with 0%nat.
    destruct (mem from projects) eqn:M.
    - apply mem_In in M.
      rewrite (proj1 (NoDup_count_occ' string_dec projects)
                 (proj2 (proj2 (proj2 projects_registry))) from M).
      lia.
    - apply mem_false in M.
      rewrite (proj1 (count_occ_not_In string_dec projects from) M). lia. }
  split; [exact C|].
  rewrite (count_occ_In string_dec), C.
  destruct (mem from projects) eqn:M.
  - apply mem_In in M. rewrite <- (count_occ_In string_dec). tauto.
  - apply mem_false in M. split; [lia | tauto].
Qed.

(** *** The identifiers named by a manifest *)

Lemma matchAll_sound (p : regex) (s : string) :
  forall skip cap,
    In cap (matchAll p skip s) ->
    exists pre t rest,
      s = pre ++ t /\ matchHere p "" t = Some (cap, rest).
Proof.
  induction s as [|c s IH]; intros skip cap H.
  - simpl in H. destruct skip; [|destruct H].
    destruct (matchHere p "" "") as [[cp rest]|] eqn:E; [|destruct H].
    destruct H as [<- | []]. exists "", "", rest. split; [reflexivity|exact E].
  - assert (Tail : forall n, In cap (matchAll p n s) ->
                     exists pre t rest,
                       String c s = pre ++ t
                       /\ matchHere p "" t = Some (cap, rest)).
    { intros n Hn. destruct (IH _ _ Hn) as [pre [t [rest [-> Ht]]]].
      exists (String c pre), t, rest. split; [reflexivity | exact Ht]. }
    simpl in H. destruct skip as [|n]; [|exact (Tail _ H)].
    destruct (matchHere p "" (String c s)) as [[cp rest]|] eqn:E;
      [|exact (Tail _ H)].
    destruct H as [<- | H]; [|exact (Tail _ H)].
    exists "", (String c s), rest. split; [reflexivity | exact E].
Qed.

Lemma every_repeatChar cls c n :
  cls c = true -> every cls (repeatChar c n) = true.
Proof. intros H. induction n; simpl; [reflexivity | rewrite H; exact IHn]. Qed.

Lemma length_repeatChar c n : length (repeatChar c n) = n.
Proof. induction n; simpl; congruence. Qed.

(** X11: every identifier [parseManifest] returns is [project-] followed
    by at least three digits, obtained by padding to three places the
    digits of a directive [focusedDep(':project-<digits>'] that occurs in
    the manifest. *)
Theorem parseManifest_names_directives :
  forall (content id : string),
    In id (parseManifest content) ->
    exists digits pre post,
      id = "project-" ++ padStart 3 "0" digits
      /\ content = pre ++ "focusedDep(':project-" ++ digits ++ "'" ++ post
      /\ every isDigit digits = true
      /\ (1 <= length digits)%nat
      /\ every isDigit (padStart 3 "0" digits) = true
      /\ (3 <= length (padStart 3 "0" digits))%nat.
Proof.
  intros content id H. unfold parseManifest in H.
  apply in_map_iff in H. destruct H as [digits [<- H]].
  apply matchAll_sound in H. destruct H as [pre [t [rest [-> H]]]].
  apply matchHere_sound in H. destruct H as [m [-> P]].
  unfold depRe in P. apply Parses_lit in P. destruct P as [m1 [-> P]].
  cbn [Parses] in P.
  destruct P as [u [m2 [-> [Hu [Hl [m3 [-> [-> ->]]]]]]]].
  exists u, pre, rest. repeat split; auto.
  - repeat first [rewrite append_assoc | progress cbn [append]]. reflexivity.
  - unfold padStart. rewrite every_append, Hu, every_repeatChar; reflexivity.
  - unfold padStart. rewrite length_append, length_repeatChar. lia.
Qed.

Lemma parseManifest_names_directives_witness :
  exists digits pre post,
    "project-007" = "project-" ++ padStart 3 "0" digits
    /\ "implementation focusedDep(':project-7')" =
       pre ++ "focusedDep(':project-" ++ digits ++ "'" ++ post
    /\ every isDigit digits = true
    /\ (1 <= length digits)%nat
    /\ every isDigit (padStart 3 "0" digits) = true
    /\ (3 <= length (padStart 3 "0" digits))%nat.
Proof.
  apply (parseManifest_names_directives
           "implementation focusedDep(':project-7')" "project-007").
  left. reflexivity.
Defined.

End GraphExtras.

(** ** The configuration file, continued *)

Module ConfigExtras.

Import Js Regex Dict Server Notions JsFacts StringFacts RegexFacts
       NumberFacts ConfigFacts.

#[local] Arguments Ascii.eqb : simpl never.
#[local] Arguments quoted : simpl never.

(** *** What survives splitting, trimming and unquoting *)

Lemma split_nonempty (sep : ascii) (s : string) : split sep s <> [].
Proof.
  destruct s as [|c s]; simpl; [discriminate|].
  destruct (Ascii.eqb c sep); [discriminate|].
  destruct (split sep s); discriminate.
Qed.

Lemma every_split cls (sep : ascii) (s : string) :
  every cls s = true ->
  forall piece, In piece (split sep s) -> every cls piece = true.
Proof.
  induction s as [|c s IH]; intros H piece Hp.
  - destruct Hp as [<- | []]. reflexivity.
  - simpl in H. apply andb_true_iff in H. destruct H as [Hc Hs].
    rewrite split_cons in Hp. destruct (Ascii.eqb c sep).
    + destruct Hp as [<- | Hp]; [reflexivity | exact (IH Hs _ Hp)].
    + destruct (split sep s) as [|h t] eqn:E.
      * destruct Hp as [<- | []]. simpl. rewrite Hc. reflexivity.
      * destruct Hp as [<- | Hp].
        -- simpl. rewrite Hc. apply (IH Hs). left. reflexivity.
        -- apply (IH Hs). right. exact Hp.
Qed.

Lemma split_pieces_plain (sep : ascii) (s : string) :
  forall piece, In piece (split sep s) -> occurs sep piece = false.
Proof.
  induction s as [|c s IH]; intros piece Hp.
  - destruct Hp as [<- | []]. reflexivity.
  - rewrite split_cons in Hp. destruct (Ascii.eqb c sep) eqn:Ec.
    + destruct Hp as [<- | Hp]; [reflexivity | exact (IH _ Hp)].
    + destruct (split sep s) as [|h t] eqn:E.
      * destruct Hp as [<- | []]. simpl.
        rewrite Ascii.eqb_sym, Ec. reflexivity.
      * destruct Hp as [<- | Hp].
        -- simpl. rewrite Ascii.eqb_sym, Ec. apply IH. left. reflexivity.
        -- apply IH. right. exact Hp.
Qed.

Lemma occurs_every (c : ascii) (s : string) :
  occurs c s = false <-> every (fun d => negb (Ascii.eqb c d)) s = true.
Proof.
  induction s as [|d s IH]; simpl; [tauto|].
  rewrite orb_false_iff, andb_true_iff, negb_true_iff, IH. reflexivity.
Qed.

Lemma every_trimStart cls (s : string) :
  every cls s = true -> every cls (trimStart s) = true.
Proof.
  induction s as [|c s IH]; intros H; [reflexivity|].
  simpl. destruct (isSpace c); [|exact H].
  simpl in H. apply andb_true_iff in H. apply IH, H.
Qed.

Lemma every_trimEnd cls (s : string) :
  every cls s = true -> every cls (trimEnd s) = true.
Proof.
  induction s as [|c s IH]; intros H; [reflexivity|].
  simpl in H. apply andb_true_iff in H. destruct H as [Hc Hs]. simpl.
  destruct (isEmpty (trimEnd s) && isSpace c); [reflexivity|].
  simpl. rewrite Hc. apply IH, Hs.
Qed.

Lemma every_dropLastQuote cls (s : string) :
  every cls s = true -> every cls (dropLastQuote s) = true.
Proof.
  induction s as [|c s IH]; intros H; [reflexivity|].
  simpl in H. apply andb_true_iff in H. destruct H as [Hc Hs].
  destruct s as [|d s].
  - simpl. destruct (isQuote c); [reflexivity|]. simpl. rewrite Hc.
    reflexivity.
  - change (every cls (String c (dropLastQuote (String d s))) = true).
    simpl every. rewrite Hc. apply IH, Hs.
Qed.

Lemma every_unquote_trim cls (s : string) :
  every cls s = true -> every cls (unquote (trim s)) = true.
Proof.
  intros H. unfold trim.
  assert (T : every cls (trimEnd (trimStart s)) = true)
    by apply every_trimEnd, every_trimStart, H.
  destruct (trimEnd (trimStart s)) as [|c t]; [reflexivity|].
  unfold unquote. destruct (isQuote c).
  - apply every_dropLastQuote. simpl in T. apply andb_true_iff in T.
    exact (proj2 T).
  - apply every_dropLastQuote, T.
Qed.

Lemma bracket_every (s : string) :
  every notRBracket s = true <-> occurs "]" s = false.
Proof.
  induction s as [|d s IH]; simpl; [tauto|].
  rewrite orb_false_iff, andb_true_iff, <- IH. unfold notRBracket.
  rewrite negb_true_iff, Ascii.eqb_sym. reflexivity.
Qed.

Lemma loaded_identifier_clean (file : option string) (p : string) :
  In p (focusedProjects (readConfig file)) ->
  p <> "" /\ occurs "," p = false /\ occurs "]" p = false.
Proof.
  destruct file as [content|]; [|intros []].
  rewrite readConfig_focused.
  destruct (search focusedRe content) as [[body rest]|] eqn:E; [|intros []].
  destruct (focused_match_wellformed _ _ _ E)
    as [pre [ws1 [ws2 [post [_ [_ [_ Hb]]]]]]].
  intros H. apply filter_In in H. destruct H as [H Hne].
  apply in_map_iff in H. destruct H as [piece [<- Hpiece]].
  split; [|split].
  - intros K. rewrite K in Hne. discriminate.
  - apply occurs_every, every_unquote_trim, occurs_every.
    exact (split_pieces_plain _ _ _ Hpiece).
  - apply bracket_every, every_unquote_trim.
    exact (every_split _ _ _ Hb _ Hpiece).
Qed.

(** X12: every identifier of a loaded configuration is non-empty and
    holds neither a comma nor a closing bracket, whatever the file
    contains. *)
Theorem loaded_identifiers_are_clean :
  forall (file : option string) (p : string),
    In p (focusedProjects (readConfig file)) ->
    p <> "" /\ occurs "," p = false /\ occurs "]" p = false.
Proof. exact loaded_identifier_clean. Qed.

Lemma loaded_identifiers_are_clean_witness :
  "b c" <> "" /\ occurs "," "b c" = false /\ occurs "]" "b c" = false.
Proof.
  apply (loaded_identifiers_are_clean
           (Some "ext.focusedProjects = ['a', b c ,, ]")).
  apply (proj1 (mem_In _ _)). vm_compute. reflexivity.
Defined.

(** *** Writing and reading back, with quotes allowed *)

Lemma quoted_keeps_no_comma (p : string) :
  occurs "," p = false -> occurs "," (quoted p) = false.
Proof.
  intros H. rewrite quoted_alone.
  change (occurs "," (String "'" (p ++ String "'" "")))
    with (occurs "," (p ++ String "'" "")).
  rewrite occurs_append, H. reflexivity.
Qed.

Lemma split_quoted_list (rest : list string) :
  forall p,
    (forall q, In q (p :: rest) -> occurs "," q = false) ->
    split ","%char (join ", " (map quoted (p :: rest))) =
    quoted p :: map (fun q => " " ++ quoted q) rest.
Proof.
  induction rest as [|p2 rest IH]; intros p H.
  - apply split_plain, quoted_keeps_no_comma, H. left. reflexivity.
  - rewrite !map_cons, join_two.
    change (", " ++ join ", " (quoted p2 :: map quoted rest))
      with (String "," (String " " (join ", " (map quoted (p2 :: rest))))).
    rewrite split_at_comma
      by (apply quoted_keeps_no_comma, H; left; reflexivity).
    f_equal. rewrite split_cons.
    change (Ascii.eqb " " ",") with false. cbv iota.
    rewrite IH by (intros q Hq; apply H; right; exact Hq).
    reflexivity.
Qed.

Lemma parse_written (focused : list string) :
  (forall p, In p focused -> p <> "" /\ occurs "," p = false) ->
  filter truthy
    (map (fun s => unquote (trim s))
         (split ","%char (join ", " (map quoted focused))))
  = focused.
Proof.
  intros H. destruct focused as [|p rest]; [reflexivity|].
  rewrite split_quoted_list by (intros q Hq; apply H, Hq).
  rewrite map_cons, map_map, trim_quoted, unquote_quoted.
  assert (E : map (fun q => unquote (trim (" " ++ quoted q))) rest = rest).
  { rewrite <- (map_id rest) at 2. apply map_ext. intros q.
    rewrite trim_blank_quoted. apply unquote_quoted. }
  rewrite E. clear E.
  assert (K : forall l : list string,
             (forall q, In q l -> q <> "") -> filter truthy l = l).
  { induction l as [|q l IH]; intros Hl; [reflexivity|]. simpl.
    destruct q as [|c q]; [exfalso; apply (Hl ""); [left|]; reflexivity|].
    simpl. f_equal. apply IH. intros q' Hq'. apply Hl. right. exact Hq'. }
  apply K. intros q Hq. apply H, Hq.
Qed.

Lemma written_no_bracket (focused : list string) :
  (forall p, In p focused -> occurs "]" p = false) ->
  every notRBracket (join ", " (map quoted focused)) = true.
Proof.
  induction focused as [|p rest IH]; intros H; [reflexivity|].
  assert (Hp : every notRBracket (quoted p) = true).
  { rewrite quoted_alone.
    change (every notRBracket (String "'" (p ++ String "'" "")))
      with (every notRBracket (p ++ String "'" "")).
    rewrite every_append, (proj2 (bracket_every p)); [reflexivity|].
    apply H. left. reflexivity. }
  destruct rest as [|p2 rest]; [exact Hp|].
  rewrite map_cons.
  assert (IH' : every notRBracket (join ", " (map quoted (p2 :: rest))) = true)
    by (apply IH; intros q Hq; apply H; right; exact Hq).
  rewrite map_cons in IH' |- *.
  rewrite join_two, !every_append, Hp, IH'. reflexivity.
Qed.

Lemma roundtrip_with_quotes (focused : list string) (hops : Z) :
  (forall p, In p focused ->
     p <> "" /\ occurs "," p = false /\ occurs "]" p = false
     /\ search hopsRe p = None) ->
  (0 <= hops <= MAX_SAFE_INTEGER)%Z ->
  readConfig (Some (writeConfig focused hops)) =
  {| focusedProjects := focused; downstreamHops := hops |}.
Proof.
  intros Hids [Hh _].
  rewrite writeConfig_text, (numberToString_nonneg hops Hh).
  destruct (natural_spec hops Hh) as [Hparse [Hdigits Hlen]].
  assert (E1 : search focusedRe (configText focused (natural hops)) =
               Some (join ", " (map quoted focused),
                     nl ++ "ext.downstreamHops = " ++ natural hops)).
  { apply focused_statement_found, written_no_bracket.
    intros p Hp. apply Hids, Hp. }
  assert (E2 : search hopsRe (configText focused (natural hops)) =
               Some (natural hops, "")).
  { rewrite search_hops_configText by (intros p Hp; apply Hids, Hp).
    apply hop_statement_found; assumption. }
  unfold readConfig. rewrite E1, E2, Hparse.
  rewrite parse_written; [reflexivity|].
  intros p Hp. destruct (Hids p Hp) as [H1 [H2 _]]. split; assumption.
Qed.

(** X13: the round trip through the file holds for identifiers that
    contain quotes, opening brackets or blanks: it is enough that every
    identifier is non-empty, has no comma and no closing bracket, and
    holds no text that the hop pattern matches. *)
Theorem roundtrip_tolerates_quotes :
  forall (focused : list string) (hops : Z),
    (forall p, In p focused ->
       p <> "" /\ occurs "," p = false /\ occurs "]" p = false
       /\ search hopsRe p = None) ->
    (0 <= hops <= MAX_SAFE_INTEGER)%Z ->
    readConfig (Some (writeConfig focused hops)) =
    {| focusedProjects := focused; downstreamHops := hops |}.
Proof. exact roundtrip_with_quotes. Qed.

Lemma roundtrip_tolerates_quotes_witness :
  readConfig (Some (writeConfig ["it's"; " a[0"] 4)) =
  {| focusedProjects := ["it's"; " a[0"]; downstreamHops := 4 |}.
Proof.
  apply roundtrip_tolerates_quotes.
  - intros p [<- | [<- | []]]; repeat split;
      (discriminate || (vm_compute; reflexivity)).
  - unfold MAX_SAFE_INTEGER. lia.
Defined.

Lemma loaded_hops_not_negative (file : option string) :
  (0 <= downstreamHops (readConfig file))%Z.
Proof.
  destruct file as [content|]; [|discriminate].
  rewrite readConfig_hops.
  destruct (search hopsRe content) as [[digits rest]|]; [|discriminate].
  apply parseDigits_nonneg. lia.
Qed.

(** X14: a configuration that was loaded from any file, saved and loaded
    again is unchanged, provided none of its identifiers holds a text
    that the hop pattern matches and its hop bound is a safe integer. *)
Theorem reload_after_save :
  forall (file : option string),
    let config := readConfig file in
    (forall p, In p (focusedProjects config) -> search hopsRe p = None) ->
    (downstreamHops config <= MAX_SAFE_INTEGER)%Z ->
    readConfig (Some (writeConfig (focusedProjects config)
                                  (downstreamHops config))) = config.
Proof.
  intros file config Hids Hmax.
  rewrite roundtrip_with_quotes.
  - destruct config; reflexivity.
  - intros p Hp.
    destruct (loaded_identifier_clean file p Hp) as [H1 [H2 H3]].
    repeat split; auto.
  - split; [|exact Hmax].
    apply loaded_hops_not_negative.
Qed.

Lemma reload_after_save_witness :
  readConfig
    (Some (writeConfig
             (focusedProjects (readConfig (Some Fixtures.looseFile)))
             (downstreamHops (readConfig (Some Fixtures.looseFile)))))
  = readConfig (Some Fixtures.looseFile).
Proof.
  apply (reload_after_save (Some Fixtures.looseFile)).
  - intros p H. vm_compute in H.
    destruct H as [<- | [<- | []]]; vm_compute; reflexivity.
  - vm_compute. discriminate.
Defined.

End ConfigExtras.

(** ** The module file of the IDE *)

Module IdeaFacts.

Import Js Dict Server Idea JsFacts IncludedFacts.

Lemma excludedOf_In (included : list string) (p : string) :
  In p (excludedOf included) <-> In p projects /\ ~ In p included.
Proof.
  unfold excludedOf. rewrite filter_In, negb_true_iff, mem_false.
  reflexivity.
Qed.

(** X15: when the configuration has no focused project (in particular
    when the configuration file is absent) the handler excludes nothing:
    the module file it writes is the bare template. *)
Theorem no_focus_no_exclusion :
  forall (configFile : option string) (reverse : dict),
    focusedProjects (readConfig configFile) = [] ->
    ideaExcluded configFile reverse = []
    /\ applyIdea configFile reverse = imlContent "".
Proof.
  intros configFile reverse H.
  assert (E : ideaExcluded configFile reverse = []).
  { unfold ideaExcluded. cbv zeta. rewrite H.
    generalize (downstreamHops (readConfig configFile)) as hops.
    intros hops. vm_compute. reflexivity. }
  split; [exact E|]. unfold applyIdea. cbv zeta. rewrite E. reflexivity.
Qed.

Lemma no_focus_no_exclusion_witness :
  ideaExcluded None Fixtures.ladder = []
  /\ applyIdea None Fixtures.ladder = imlContent "".
Proof. apply no_focus_no_exclusion. reflexivity. Defined.

(** X16: when no lookup of the walk finds a member inherited from
    [Object.prototype], the handler gets through the computation of the
    included set; it excludes only registry projects, each at most once,
    and exactly those that are not in the included set; it never
    excludes a focused project, nor, when the hop bound is positive, a
    direct dependent of a focused project; the text it writes has one
    [excludeFolder] element for each excluded project. *)
Theorem exclusions_spare_the_focus :
  forall (configFile : option string) (reverse : dict),
    let config := readConfig configFile in
    Strict.lookupsSafe reverse (focusedProjects config)
                       (downstreamHops config) ->
    exists excluded,
      Strict.ideaExcluded (Strict.onDisk configFile) reverse
      = Strict.Normal excluded
      /\ Strict.applyIdea (Strict.onDisk configFile) reverse
         = Strict.Normal (imlContent (join nl (map excludeEntry excluded)))
      /\ (forall p, In p excluded <->
                    In p projects
                    /\ ~ In p (computeIncluded reverse (focusedProjects config)
                                               (downstreamHops config)))
      /\ NoDup excluded
      /\ (forall seed, In seed (focusedProjects config) ->
                       ~ In seed excluded)
      /\ ((0 < downstreamHops config)%Z ->
          forall seed dep,
            In seed (focusedProjects config) ->
            In dep (getOr seed reverse) ->
            ~ In dep excluded).
Proof.
  intros configFile reverse config Hsafe.
  assert (E : Strict.ideaExcluded (Strict.onDisk configFile) reverse
              = Strict.Normal (ideaExcluded configFile reverse))
    by exact (StrictFacts.strict_ideaExcluded configFile reverse Hsafe).
  assert (K : forall p, In p (ideaExcluded configFile reverse) <->
                In p projects
                /\ ~ In p (computeIncluded reverse (focusedProjects config)
                                           (downstreamHops config)))
    by (intros p; apply excludedOf_In).
  exists (ideaExcluded configFile reverse).
  split; [exact E|]. split; [|split; [exact K|]; split; [|split]].
  - unfold Strict.applyIdea. rewrite E. reflexivity.
  - unfold ideaExcluded, excludedOf. apply NoDup_filter, projects_registry.
  - intros seed Hs Hx. apply K in Hx. destruct Hx as [_ Hx]. apply Hx.
    exact (proj1 (computeIncluded_seeds_and_dependents
                    reverse _ (downstreamHops config) seed Hs)).
  - intros Hpos seed dep Hs Hd Hx. apply K in Hx. destruct Hx as [_ Hx].
    apply Hx.
    exact (proj2 (computeIncluded_seeds_and_dependents
                    reverse _ (downstreamHops config) seed Hs) Hpos dep Hd).
Qed.

Lemma exclusions_spare_the_focus_witness :
  exists excluded,
    Strict.ideaExcluded (Strict.onDisk Fixtures.focusOnFirst) Fixtures.ladder
    = Strict.Normal excluded
    /\ ~ In "project-001" excluded.
Proof.
  assert (Hsafe : Strict.lookupsSafe Fixtures.ladder
                    (focusedProjects (readConfig Fixtures.focusOnFirst))
                    (downstreamHops (readConfig Fixtures.focusOnFirst))).
  { right. split; [|right;
      exact (StrictFacts.buildGraph_plainDependents Fixtures.ladderManifests)].
    assert (F : focusedProjects (readConfig Fixtures.focusOnFirst)
                = ["project-001"]) by (vm_compute; reflexivity).
    rewrite F. intros s [<- | []]. reflexivity. }
  destruct (exclusions_spare_the_focus Fixtures.focusOnFirst Fixtures.ladder
              Hsafe) as [excluded [E [_ [_ [_ [Hseed _]]]]]].
  exists excluded. split; [exact E|].
  apply Hseed. apply (proj1 (mem_In _ _)). vm_compute. reflexivity.
Defined.

End IdeaFacts.

(** ** The dashboard *)

Module ClientFacts.

Import Js Dict Server Reach Client Notions ClientNotions JsFacts StringFacts
       NumberFacts IncludedFacts GraphFacts.

(** *** The keys of the visited set *)

Lemma split_at_last (c : ascii) (a : string) :
  forall a' x y,
    occurs c x = false -> occurs c y = false ->
    a ++ String c x = a' ++ String c y ->
    a = a' /\ x = y.
Proof.
  induction a as [|d a IH]; intros a' x y Hx Hy E.
  - destruct a' as [|d' a']; simpl in E.
    + injection E as ->. split; reflexivity.
    + injection E as <- ->.
      rewrite occurs_in_tail in Hx; [discriminate|].
      simpl. rewrite Ascii.eqb_refl. reflexivity.
  - destruct a' as [|d' a']; simpl in E.
    + injection E as -> <-.
      rewrite occurs_in_tail in Hy; [discriminate|].
      simpl. rewrite Ascii.eqb_refl. reflexivity.
    + injection E as -> E. destruct (IH _ _ _ Hx Hy E) as [-> ->].
      split; reflexivity.
Qed.

Lemma natural_no_dash (h : Z) : (0 <= h)%Z -> occurs "-" (natural h) = false.
Proof.
  intros H. apply (every_not_occurs isDigit); [reflexivity|].
  apply natural_spec, H.
Qed.

(** Two walks have the same key only if they start at the same project
    with the same number of hops. *)
Lemma visitKey_injective (p q : string) (h k : Z) :
  (0 <= h)%Z -> (0 <= k)%Z ->
  visitKey p h = visitKey q k -> p = q /\ h = k.
Proof.
  intros Hh Hk E. unfold visitKey in E.
  rewrite !numberToString_nonneg in E by assumption.
  change (p ++ String "-" (natural h) = q ++ String "-" (natural k)) in E.
  destruct (split_at_last _ _ _ _ _ (natural_no_dash h Hh)
              (natural_no_dash k Hk) E) as [-> N].
  split; [reflexivity|].
  rewrite <- (proj1 (natural_spec h Hh)), <- (proj1 (natural_spec k Hk)), N.
  reflexivity.
Qed.

(** *** The walk *)

Lemma client_addDependents_unfold dependents fuel proj hops st :
  Client.addDependents dependents (S fuel) proj hops st =
  if (hops <? 0)%Z || mem (visitKey proj hops) (snd st) then st
  else
    fold_left
      (fun st dep => Client.addDependents dependents fuel dep (hops - 1) st)
      (getOr proj dependents)
      (if negb (mem proj (fst st)) then setAdd proj (fst st) else fst st,
       setAdd (visitKey proj hops) (snd st)).
Proof. reflexivity. Qed.

Lemma covered_grows dependents h q inc inc' :
  incl inc inc' -> Covered dependents h q inc -> Covered dependents h q inc'.
Proof. intros Hi Hc n r Hw Hn. apply Hi, (Hc n r Hw Hn). Qed.

Lemma within_first_step dependents n p r :
  WithinHops dependents n p r ->
  r = p
  \/ exists m dep,
       n = S m /\ In dep (getOr p dependents)
       /\ WithinHops dependents m dep r.
Proof.
  intros H. inversion H as [|m a q b Hq Hr]; subst.
  - left. reflexivity.
  - right. exists m, q. auto.
Qed.

Section Walk.
Variable dependents : dict.

Lemma children_spec (fuel : nat) (h : Z) :
  WalkSpec dependents fuel ->
  (Z.to_nat (h + 1) < fuel)%nat ->
  forall deps st,
    VisitedCovered dependents h st ->
    let st' := fold_left (walkStep dependents fuel h) deps st in
    incl (fst st) (fst st') /\ incl (snd st) (snd st')
    /\ VisitedCovered dependents h st'
    /\ ((0 <= h)%Z ->
        forall dep, In dep deps -> Covered dependents h dep (fst st'))
    /\ HigherKeysKept h st st'.
Proof.
  intros Spec Hf. induction deps as [|dep deps IH]; intros st Hv; simpl.
  - repeat split; try apply incl_refl; auto.
    + intros _ dep [].
    + intros q k _ H. exact H.
  - destruct (Spec dep h st Hf Hv) as [I1 [V1 [C1 [D1 K1]]]].
    fold (walkStep dependents fuel h st dep) in I1, V1, C1, D1, K1 |- *.
    destruct (IH (walkStep dependents fuel h st dep) C1)
      as [I2 [V2 [C2 [D2 K2]]]].
    repeat split.
    + exact (incl_tran I1 I2).
    + exact (incl_tran V1 V2).
    + exact C2.
    + intros Hh d [<- | Hd]; [|exact (D2 Hh d Hd)].
      exact (covered_grows _ _ _ _ _ I2 (D1 Hh)).
    + intros q k Hk H. exact (K1 q k Hk (K2 q k Hk H)).
Qed.

Lemma walk_spec : forall fuel, WalkSpec dependents fuel.
Proof.
  induction fuel as [|fuel IH]; intros p h st Hf Hv; [lia|].
  cbv zeta. rewrite client_addDependents_unfold.
  destruct (Z.lt_ge_cases h 0) as [Hneg | Hpos].
  - rewrite (proj2 (Z.ltb_lt h 0) Hneg). simpl orb. cbv iota.
    repeat split; try apply incl_refl; auto.
    + intros Hh. lia.
    + intros q k _ H. exact H.
  - rewrite (proj2 (Z.ltb_ge h 0) Hpos). simpl orb.
    destruct (mem (visitKey p h) (snd st)) eqn:Hm.
    + repeat split; try apply incl_refl; auto.
      * intros _. apply (Hv p h); [lia | apply mem_In, Hm].
      * intros q k _ H. exact H.
    + set (inc1 := if negb (mem p (fst st)) then setAdd p (fst st)
                   else fst st).
      set (vis1 := setAdd (visitKey p h) (snd st)).
      assert (Ii : incl (fst st) inc1).
      { unfold inc1. destruct (mem p (fst st)); simpl;
          [apply incl_refl|].
        intros x Hx. apply In_setAdd. right. exact Hx. }
      assert (Ip : In p inc1).
      { unfold inc1. destruct (mem p (fst st)) eqn:E; simpl.
        - apply mem_In, E.
        - apply In_setAdd. left. reflexivity. }
      assert (Iv : incl (snd st) vis1).
      { intros x Hx. apply In_setAdd. right. exact Hx. }
      assert (V1 : VisitedCovered dependents (h - 1) (inc1, vis1)).
      { intros q k Hk Hq. simpl in *. apply In_setAdd in Hq.
        destruct Hq as [Hq | Hq].
        - apply visitKey_injective in Hq; lia.
        - apply (covered_grows _ _ _ _ _ Ii), (Hv q k); [lia | exact Hq]. }
      assert (Hf' : (Z.to_nat (h - 1 + 1) < fuel)%nat) by lia.
      destruct (children_spec fuel (h - 1) IH Hf'
                  (getOr p dependents) (inc1, vis1) V1)
        as [I2 [V2 [C2 [D2 K2]]]].
      unfold walkStep in I2, V2, C2, D2, K2.
      simpl fst in *. simpl snd in *.
      set (st' := fold_left _ (getOr p dependents) (inc1, vis1)) in *.
      assert (Cp : Covered dependents h p (fst st')).
      { intros n r Hw Hn.
        destruct (within_first_step _ _ _ _ Hw) as [-> | [m [dep [-> [Hd Hr]]]]].
        - apply I2, Ip.
        - apply (D2 ltac:(lia) dep Hd m r Hr). lia. }
      repeat split.
      * exact (incl_tran Ii I2).
      * exact (incl_tran Iv V2).
      * intros q k Hk Hq.
        destruct (Z.eq_dec k h) as [-> | Hne].
        -- apply (K2 q h ltac:(lia)) in Hq. apply In_setAdd in Hq.
           destruct Hq as [Hq | Hq].
           ++ apply visitKey_injective in Hq; try lia.
              destruct Hq as [-> _]. exact Cp.
           ++ apply (covered_grows _ _ _ _ _ (incl_tran Ii I2)),
                (Hv q h); [lia | exact Hq].
        -- apply (C2 q k); [lia | exact Hq].
      * intros _. exact Cp.
      * intros q k Hk Hq. apply (K2 q k ltac:(lia)) in Hq.
        apply In_setAdd in Hq. destruct Hq as [Hq | Hq]; [|exact Hq].
        apply visitKey_injective in Hq; lia.
Qed.

End Walk.

Section Sound.
Variable dependents : dict.
Variable seed : string.
Variable bound : nat.
Variable P : string -> Prop.
Hypothesis P_within :
  forall k p, WithinHops dependents k seed p -> (k <= bound)%nat -> P p.

(** A walk adds only what lies within the hops it was given. *)
Lemma client_walk_within :
  forall fuel proj h st k,
    ((0 <= h)%Z ->
     WithinHops dependents k seed proj /\ (k + Z.to_nat h <= bound)%nat) ->
    (forall x, In x (fst st) -> P x) ->
    forall x,
      In x (fst (Client.addDependents dependents fuel proj h st)) -> P x.
Proof.
  induction fuel as [|fuel IH]; intros proj h st k Hk Hst; [exact Hst|].
  rewrite client_addDependents_unfold.
  destruct (Z.lt_ge_cases h 0) as [Hneg | Hpos].
  - rewrite (proj2 (Z.ltb_lt h 0) Hneg). exact Hst.
  - rewrite (proj2 (Z.ltb_ge h 0) Hpos). simpl orb.
    destruct (mem (visitKey proj h) (snd st)); [exact Hst|].
    destruct (Hk Hpos) as [Hw Hb].
    apply (fold_left_invariant (fun st => forall x, In x (fst st) -> P x)).
    + intros a dep Hdep Ha. apply (IH dep (h - 1)%Z a (S k)); [|exact Ha].
      intros Hh. split; [|lia].
      apply within_snoc with (q := proj); assumption.
    + simpl. intros x Hx.
      destruct (mem proj (fst st)); simpl in Hx; [exact (Hst x Hx)|].
      apply In_setAdd in Hx. destruct Hx as [-> | Hx]; [|exact (Hst x Hx)].
      apply (P_within k); [exact Hw | lia].
Qed.

End Sound.

Lemma visitedCovered_grows dependents k inc inc' vis :
  incl inc inc' ->
  VisitedCovered dependents k (inc, vis) ->
  VisitedCovered dependents k (inc', vis).
Proof.
  intros Hi Hv q h Hh Hq. simpl in *.
  exact (covered_grows _ _ _ _ _ Hi (Hv q h Hh Hq)).
Qed.

Lemma seeds_complete dependents hops (focused : list string) :
  forall st,
    VisitedCovered dependents hops st ->
    let st' :=
      fold_left
        (fun st proj =>
           Client.addDependents dependents (Client.fuelFor hops) proj hops
             (setAdd proj (fst st), snd st))
        focused st in
    incl (fst st) (fst st')
    /\ VisitedCovered dependents hops st'
    /\ forall seed,
         In seed focused ->
         In seed (fst st')
         /\ ((0 <= hops)%Z -> Covered dependents hops seed (fst st')).
Proof.
  induction focused as [|proj rest IH]; intros st Hv; simpl.
  - repeat split; [apply incl_refl | exact Hv | destruct H | destruct H].
  - assert (Ig : incl (fst st) (setAdd proj (fst st)))
      by (intros x Hx; apply In_setAdd; right; exact Hx).
    assert (V1 : VisitedCovered dependents hops
                   (setAdd proj (fst st), snd st)).
    { apply (visitedCovered_grows _ _ (fst st)); [exact Ig|].
      destruct st; exact Hv. }
    assert (Hf : (Z.to_nat (hops + 1) < Client.fuelFor hops)%nat)
      by (unfold Client.fuelFor; lia).
    destruct (walk_spec dependents (Client.fuelFor hops) proj hops _ Hf V1)
      as [I1 [_ [C1 [D1 _]]]].
    simpl fst in I1.
    set (st1 := Client.addDependents dependents (Client.fuelFor hops)
                  proj hops (setAdd proj (fst st), snd st)) in *.
    destruct (IH st1 C1) as [I2 [C2 S2]].
    repeat split.
    + exact (incl_tran Ig (incl_tran I1 I2)).
    + exact C2.
    + destruct H as [<- | H]; [|apply S2, H].
      apply I2, I1, In_setAdd. left. reflexivity.
    + intros Hh. destruct H as [<- | H]; [|apply S2; assumption].
      exact (covered_grows _ _ _ _ _ I2 (D1 Hh)).
Qed.

Lemma client_included_spec dependents nodes focused hops p :
  focused <> [] ->
  In p (includedProjects nodes dependents focused hops) <->
  exists seed,
    In seed focused /\ WithinHops dependents (Z.to_nat hops) seed p.
Proof.
  intros Hne. unfold includedProjects.
  destruct focused as [|s0 rest] eqn:Ef; [congruence|].
  change (List.length (s0 :: rest) =? 0)%nat with false. cbv iota.
  rewrite <- Ef in *. clear Ef s0 rest Hne. split.
  - set (Reached := fun x => exists seed,
                      In seed focused
                      /\ WithinHops dependents (Z.to_nat hops) seed x).
    revert p.
    apply (fold_left_invariant
             (fun st => forall x, In x (fst st) -> Reached x));
      [|intros x []].
    intros st proj Hproj Hst.
    apply (client_walk_within dependents proj (Z.to_nat hops) Reached)
      with (k := 0%nat).
    + intros k q Hq Hk. exists proj. split; [exact Hproj|].
      apply (within_more _ _ _ _ Hq), Hk.
    + intros _. split; [apply within_self | lia].
    + simpl. intros x Hx. apply In_setAdd in Hx.
      destruct Hx as [-> | Hx]; [|exact (Hst x Hx)].
      exists proj. split; [exact Hproj | apply within_self].
  - intros [seed [Hs Hw]].
    assert (V0 : VisitedCovered dependents hops ([], []))
      by (intros q h _ []).
    destruct (seeds_complete dependents hops focused ([], []) V0)
      as [_ [_ S]].
    destruct (S seed Hs) as [Hin Hc].
    destruct (Z.lt_ge_cases hops 0) as [Hneg | Hpos].
    + replace (Z.to_nat hops) with 0%nat in Hw by lia.
      inversion Hw; subst. exact Hin.
    + apply (Hc Hpos (Z.to_nat hops) p Hw). lia.
Qed.

(** X17: for a non-empty focus the set shown as included by the dashboard
    is exactly the focused projects and everything reached from one of
    them along at most [hops] edges of the dependents map: nothing more
    and nothing less, whatever the graph, cycles included. *)
Theorem client_included_exact :
  forall (nodes : list (string * string)) (dependents : dict)
         (focused : list string) (hops : Z) (p : string),
    focused <> [] ->
    (In p (includedProjects nodes dependents focused hops) <->
     exists seed,
       In seed focused /\ WithinHops dependents (Z.to_nat hops) seed p).
Proof.
  intros nodes dependents focused hops p Hne.
  exact (client_included_spec dependents nodes focused hops p Hne).
Qed.

Lemma client_included_exact_witness :
  In "project-005"
     (includedProjects [] Fixtures.ladder ["project-001"] 3).
Proof.
  assert (Hne : ["project-001"] <> []) by discriminate.
  assert (Hw : exists seed,
             In seed ["project-001"]
             /\ WithinHops Fixtures.ladder (Z.to_nat 3) seed "project-005").
  { exists "project-001". split; [left; reflexivity|].
    apply within_step with (q := "project-004").
    - apply (proj1 (mem_In _ _)). vm_compute. reflexivity.
    - apply within_step with (q := "project-005").
      + apply (proj1 (mem_In _ _)). vm_compute. reflexivity.
      + apply within_self. }
  exact (proj2 (client_included_exact [] Fixtures.ladder ["project-001"] 3
                  "project-005" Hne) Hw).
Defined.

(** X18: the set shown by the dashboard never shrinks when the hop bound
    grows. *)
Theorem client_included_monotone :
  forall (nodes : list (string * string)) (dependents : dict)
         (focused : list string) (h h' : Z) (p : string),
    (h <= h')%Z ->
    In p (includedProjects nodes dependents focused h) ->
    In p (includedProjects nodes dependents focused h').
Proof.
  intros nodes dependents focused h h' p Hle Hp.
  destruct focused as [|s rest]; [exact Hp|].
  assert (Hne : s :: rest <> []) by discriminate.
  apply (client_included_spec dependents nodes _ h' p Hne).
  apply (client_included_spec dependents nodes _ h p Hne) in Hp.
  destruct Hp as [seed [Hs Hw]]. exists seed. split; [exact Hs|].
  apply (within_more _ _ _ _ Hw). lia.
Qed.

Lemma client_included_monotone_witness :
  In "project-005"
     (includedProjects [] Fixtures.ladder ["project-001"] 3).
Proof.
  apply (client_included_monotone [] Fixtures.ladder ["project-001"] 2 3).
  - lia.
  - apply (proj1 (mem_In _ _)). vm_compute. reflexivity.
Defined.

(** *** The dependents map *)

Lemma sourcesInto_cons (k : string) (e : string * string) es :
  sourcesInto k (e :: es) =
  if String.eqb k (snd e) then fst e :: sourcesInto k es
  else sourcesInto k es.
Proof.
  unfold sourcesInto. simpl. rewrite (String.eqb_sym (snd e) k).
  destruct (String.eqb k (snd e)); reflexivity.
Qed.

Lemma getOr_fold_push (step : dict -> string * string -> dict) :
  (forall m e k,
      getOr k (step m e) =
      if String.eqb k (snd e) then (getOr k m ++ [fst e])%list
      else getOr k m) ->
  forall l m k,
    getOr k (fold_left step l m) = (getOr k m ++ sourcesInto k l)%list.
Proof.
  intros Hstep. induction l as [|e es IH]; intros m k; simpl.
  - unfold sourcesInto. simpl. rewrite app_nil_r. reflexivity.
  - rewrite IH, Hstep, sourcesInto_cons.
    destruct (String.eqb k (snd e)); [|reflexivity].
    rewrite <- app_assoc. reflexivity.
Qed.

Lemma getOr_set (k q : string) (v : list string) (m : dict) :
  getOr k (set q v m) = if String.eqb k q then v else getOr k m.
Proof.
  unfold getOr. rewrite get_set. destruct (String.eqb k q); reflexivity.
Qed.

Lemma getOr_addEdge (m : dict) (e : string * string) (k : string) :
  getOr k (addEdge m e) =
  if String.eqb k (snd e) then (getOr k m ++ [fst e])%list else getOr k m.
Proof.
  unfold addEdge. destruct (get (snd e) m) as [l|] eqn:G.
  - rewrite G, getOr_set.
    destruct (String.eqb_spec k (snd e)) as [-> | _]; [|reflexivity].
    unfold getOr. rewrite G. reflexivity.
  - rewrite get_set, String.eqb_refl, !getOr_set.
    destruct (String.eqb_spec k (snd e)) as [-> | _]; [|reflexivity].
    unfold getOr. rewrite G. reflexivity.
Qed.

Lemma getOr_nodes (nodes : list (string * string)) :
  forall m,
    (forall k, getOr k m = []) ->
    forall k, getOr k (fold_left (fun m n => set (fst n) [] m) nodes m) = [].
Proof.
  induction nodes as [|n nodes IH]; intros m H k; simpl; [apply H|].
  apply IH. intros k'. rewrite getOr_set.
  destruct (String.eqb k' (fst n)); [reflexivity | apply H].
Qed.

Lemma dependentsMap_sources nodes edges (to : string) :
  getOr to (dependentsMap nodes edges) = sourcesInto to edges.
Proof.
  unfold dependentsMap.
  rewrite (getOr_fold_push addEdge getOr_addEdge).
  rewrite getOr_nodes; [reflexivity|]. intros k. reflexivity.
Qed.

(** X19: in the dependents map of the dashboard the entry of a project
    lists the sources of the edges that end at it, in the order of the
    edges and with their multiplicity; a project no edge ends at has no
    dependents, whether it is a node or not. *)
Theorem client_map_lists_edge_sources :
  forall (nodes edges : list (string * string)) (to : string),
    getOr to (dependentsMap nodes edges) = sourcesInto to edges
    /\ (forall from,
          In from (getOr to (dependentsMap nodes edges)) <->
          In (from, to) edges).
Proof.
  intros nodes edges to. rewrite dependentsMap_sources.
  split; [reflexivity|]. intros from. unfold sourcesInto.
  rewrite in_map_iff. split.
  - intros [[f t] [<- H]]. apply filter_In in H. destruct H as [H E].
    simpl in *. apply String.eqb_eq in E. subst t. exact H.
  - intros H. exists (from, to). split; [reflexivity|].
    apply filter_In. split; [exact H|]. simpl. apply String.eqb_refl.
Qed.

(** *** The dashboard and the server on the same graph *)

Lemma fold_left_map {A B C : Type} (f : A -> B -> A) (g : C -> B)
    (l : list C) :
  forall a, fold_left f (map g l) a = fold_left (fun a x => f a (g x)) l a.
Proof. induction l as [|x l IH]; intros a; simpl; [reflexivity | apply IH]. Qed.

Lemma reverse_as_edge_fold manifest (l : list string) :
  forall st,
    snd (fold_left (visitProject manifest) l st) =
    fold_left (fun r e => pushReverse (snd e) (fst e) r)
      (flat_map (fun p => map (fun to => (p, to)) (depsOf manifest p)) l)
      (snd st).
Proof.
  induction l as [|proj l IH]; intros st; simpl; [reflexivity|].
  rewrite IH, fold_left_app, GraphExtras.visitProject_snd, fold_left_map.
  reflexivity.
Qed.

Lemma edges_as_flat_map manifest :
  edges (buildGraph manifest) =
  flat_map (fun p => map (fun to => (p, to)) (depsOf manifest p)) projects.
Proof.
  rewrite buildGraph_edges, GraphExtras.forward_layout;
    [|apply projects_registry | intros p _; reflexivity].
  cbn [fst app].
  generalize projects as l. induction l as [|p l IH]; [reflexivity|].
  simpl. rewrite IH. reflexivity.
Qed.

Lemma reverseDepMap_sources manifest (to : string) :
  getOr to (reverseDepMap (buildGraph manifest)) =
  sourcesInto to (edges (buildGraph manifest)).
Proof.
  rewrite buildGraph_reverseDepMap, reverse_as_edge_fold, edges_as_flat_map.
  rewrite (getOr_fold_push
             (fun r e => pushReverse (snd e) (fst e) r)).
  - reflexivity.
  - intros m e k. rewrite GraphExtras.getOr_pushReverse.
    destruct (String.eqb_spec k (snd e)) as [-> | _]; reflexivity.
Qed.

(** X20: from the nodes and edges that [buildGraph] returns the
    dashboard rebuilds, project by project, the same list of dependents
    that the server keeps in its reverse adjacency. *)
Theorem client_map_agrees_with_server :
  forall (manifest : string -> option string) (to : string),
    getOr to (dependentsMap (nodes (buildGraph manifest))
                            (edges (buildGraph manifest)))
    = getOr to (reverseDepMap (buildGraph manifest)).
Proof.
  intros manifest to.
  rewrite dependentsMap_sources, reverseDepMap_sources. reflexivity.
Qed.

Lemma buildGraph_nodes manifest :
  nodes (buildGraph manifest) = map (fun p => (p, p)) projects.
Proof. reflexivity. Qed.

Lemma within_ext (d1 d2 : dict) :
  (forall k, getOr k d1 = getOr k d2) ->
  forall n a b, WithinHops d1 n a b -> WithinHops d2 n a b.
Proof.
  intros H n a b W. induction W as [n p | n p q r Hq _ IH].
  - apply within_self.
  - apply within_step with (q := q); [rewrite <- H; exact Hq | exact IH].
Qed.

Lemma nodes_fold_In (nodes : list (string * string)) (p : string) :
  forall acc,
    In p (fold_left (fun inc n => setAdd (fst n) inc) nodes acc) <->
    In p (map fst nodes) \/ In p acc.
Proof.
  induction nodes as [|n nodes IH]; intros acc; simpl; [tauto|].
  rewrite IH, In_setAdd. intuition.
Qed.

(** X21: on the graph served by [buildGraph], every project the server
    puts in its included set is also shown as included by the dashboard
    for the same focus and hop bound; the dashboard may show more, since
    the walk of the server can stop short. *)
Theorem server_included_shown_by_client :
  forall (manifest : string -> option string) (focused : list string)
         (hops : Z) (p : string),
    In p (Server.computeIncluded (reverseDepMap (buildGraph manifest))
                                 focused hops) ->
    In p (includedProjects
            (nodes (buildGraph manifest))
            (dependentsMap (nodes (buildGraph manifest))
                           (edges (buildGraph manifest)))
            focused hops).
Proof.
  intros manifest focused hops p Hp.
  destruct focused as [|s rest].
  - assert (E : Server.computeIncluded
                  (reverseDepMap (buildGraph manifest)) [] hops = projects)
      by (generalize (reverseDepMap (buildGraph manifest)) as r;
          intros r; vm_compute; reflexivity).
    rewrite E in Hp. unfold includedProjects.
    change (List.length (@nil string) =? 0)%nat with true. cbv iota.
    apply (proj2 (nodes_fold_In _ _ _)). left.
    rewrite buildGraph_nodes, map_map.
    change (map (fun x : string => fst (x, x)) projects)
      with (map (fun x : string => x) projects).
    rewrite map_id. exact Hp.
  - assert (Hne : s :: rest <> []) by discriminate.
    apply (client_included_spec _ _ _ hops p Hne).
    destruct (computeIncluded_sound _ _ _ _ Hne Hp) as [seed [Hs Hw]].
    exists seed. split; [exact Hs|].
    apply (within_ext (reverseDepMap (buildGraph manifest))); [|exact Hw].
    intros k. rewrite dependentsMap_sources, reverseDepMap_sources.
    reflexivity.
Qed.

Lemma server_included_shown_by_client_witness :
  In "project-004"
     (includedProjects
        (nodes (buildGraph Fixtures.ladderManifests))
        (dependentsMap (nodes (buildGraph Fixtures.ladderManifests))
                       (edges (buildGraph Fixtures.ladderManifests)))
        ["project-001"] 3).
Proof.
  apply server_included_shown_by_client.
  apply (proj1 (mem_In _ _)). vm_compute. reflexivity.
Defined.

End ClientFacts.

(** ** Reading the status output *)

Module PorcelainFacts.

Import Js Regex Dict Server Notions WatcherNotions JsFacts StringFacts
       RegexFacts WatcherFacts.

#[local] Arguments Ascii.eqb : simpl never.

Lemma currentChangesOf_fold (stdout : string) :
  currentChangesOf stdout =
  fold_left recordLine
    (filter (fun line => truthy (trim line)) (split "010" (trim stdout))) [].
Proof. reflexivity. Qed.

(** *** Trimming *)

Lemma trimEnd_cons (c : ascii) (s : string) :
  trimEnd (String c s) =
  if isEmpty (trimEnd s) && isSpace c then "" else String c (trimEnd s).
Proof. reflexivity. Qed.

Lemma trimEnd_blank (w : string) : every isSpace w = true -> trimEnd w = "".
Proof.
  induction w as [|c w IH]; intros H; [reflexivity|].
  simpl in H. apply andb_true_iff in H. destruct H as [Hc Hw].
  rewrite trimEnd_cons, (IH Hw), Hc. reflexivity.
Qed.

Lemma trimEnd_drops_blanks (b w : string) :
  every isSpace w = true -> trimEnd (b ++ w) = trimEnd b.
Proof.
  intros H. induction b as [|c b IH]; [apply trimEnd_blank, H|].
  change (String c b ++ w) with (String c (b ++ w)).
  rewrite !trimEnd_cons, IH. reflexivity.
Qed.

Lemma trimEnd_keeps_tail (a b : string) :
  trimEnd b = b -> b <> "" -> trimEnd (a ++ b) = a ++ b.
Proof.
  intros Hb Hne. induction a as [|c a IH]; [exact Hb|].
  change (String c a ++ b) with (String c (a ++ b)).
  rewrite trimEnd_cons, IH.
  destruct (a ++ b) eqn:E; [|reflexivity].
  destruct a; simpl in E; [contradiction | discriminate].
Qed.

Lemma trimEnd_plain (s : string) :
  every notSpace s = true -> trimEnd s = s.
Proof.
  induction s as [|c s IH]; intros H; [reflexivity|].
  simpl in H. apply andb_true_iff in H. destruct H as [Hc Hs].
  unfold notSpace in Hc. apply negb_true_iff in Hc.
  rewrite trimEnd_cons, (IH Hs), Hc, andb_false_r. reflexivity.
Qed.

Lemma trimEnd_fixed_inv (c : ascii) (s : string) :
  trimEnd (String c s) = String c s ->
  (s = "" /\ isSpace c = false) \/ (trimEnd s = s /\ s <> "").
Proof.
  rewrite trimEnd_cons. destruct (trimEnd s) as [|d r] eqn:E; simpl.
  - destruct (isSpace c); [discriminate|]. intros [= <-]. left. auto.
  - intros [= <-]. right. split; [reflexivity | discriminate].
Qed.

Lemma trim_of_plain (l : string) :
  trimEnd l = l -> l <> "" -> truthy (trim l) = true.
Proof.
  unfold trim. induction l as [|c l IH]; intros Hf Hne; [contradiction|].
  destruct (trimEnd_fixed_inv _ _ Hf) as [[-> Hc] | [Hl Hn]].
  - simpl. rewrite Hc. simpl. rewrite Hc. reflexivity.
  - simpl trimStart. destruct (isSpace c); [exact (IH Hl Hn)|].
    rewrite Hf. reflexivity.
Qed.

(** *** Splitting into lines *)

Lemma split_line (sep : ascii) (u : string) :
  occurs sep u = false -> split sep u = [u].
Proof.
  induction u as [|a u IH]; intros H; [reflexivity|].
  simpl in H. apply orb_false_iff in H. destruct H as [Ha Hu].
  rewrite ConfigFacts.split_cons, Ascii.eqb_sym, Ha, (IH Hu). reflexivity.
Qed.

Lemma split_first_line (sep : ascii) (u v : string) :
  occurs sep u = false ->
  split sep (u ++ String sep v) = u :: split sep v.
Proof.
  induction u as [|a u IH]; intros H.
  - simpl append. rewrite ConfigFacts.split_cons, Ascii.eqb_refl.
    reflexivity.
  - simpl in H. apply orb_false_iff in H. destruct H as [Ha Hu].
    change (String a u ++ String sep v) with (String a (u ++ String sep v)).
    rewrite ConfigFacts.split_cons, Ascii.eqb_sym, Ha, (IH Hu). reflexivity.
Qed.

Lemma split_joined_lines (lines : list string) :
  lines <> [] ->
  (forall l, In l lines -> occurs "010" l = false) ->
  split "010" (join nl lines) = lines.
Proof.
  induction lines as [|l rest IH]; intros Hne H; [contradiction|].
  destruct rest as [|l2 rest].
  - apply split_line, H. left. reflexivity.
  - rewrite ConfigFacts.join_two.
    change (nl ++ join nl (l2 :: rest))
      with (String "010" (join nl (l2 :: rest))).
    rewrite split_first_line by (apply H; left; reflexivity).
    rewrite IH; [reflexivity | discriminate|].
    intros x Hx. apply H. right. exact Hx.
Qed.

Lemma joined_lines_fixed (lines : list string) :
  lines <> [] ->
  (forall l, In l lines -> plainLine l) ->
  trimEnd (join nl lines) = join nl lines /\ join nl lines <> "".
Proof.
  induction lines as [|l rest IH]; intros Hne H; [contradiction|].
  destruct rest as [|l2 rest].
  - destruct (H l (or_introl eq_refl)) as [_ [Hf Hn]]. split; assumption.
  - rewrite ConfigFacts.join_two.
    destruct IH as [Hf Hn]; [discriminate | |].
    + intros x Hx. apply H. right. exact Hx.
    + split.
      * rewrite <- append_assoc. apply trimEnd_keeps_tail; assumption.
      * rewrite <- append_assoc. intros E.
        destruct (l ++ nl); simpl in E; [contradiction | discriminate].
Qed.

(** The lines of an output are read one by one when the output does not
    start with a blank. *)
Lemma lines_read (lines : list string) :
  lines <> [] ->
  (forall l, In l lines -> plainLine l) ->
  trimStart (join nl lines ++ nl) = join nl lines ++ nl ->
  currentChangesOf (join nl lines ++ nl) = fold_left recordLine lines [].
Proof.
  intros Hne H Hs. rewrite currentChangesOf_fold. unfold trim.
  rewrite Hs, trimEnd_drops_blanks by reflexivity.
  rewrite (proj1 (joined_lines_fixed lines Hne H)).
  rewrite split_joined_lines by (try exact Hne; intros l Hl; apply H, Hl).
  f_equal. clear Hne Hs. induction lines as [|l rest IH]; [reflexivity|].
  simpl. destruct (H l (or_introl eq_refl)) as [_ [Hf Hn]].
  fold (trim l). rewrite (trim_of_plain l Hf Hn). f_equal.
  apply IH. intros x Hx. apply H. right. exact Hx.
Qed.

(** *** Entries *)

Lemma substringFrom_prefix (a b : string) :
  substringFrom (length a) (a ++ b) = b.
Proof. induction a as [|c a IH]; simpl; [destruct b; reflexivity | exact IH]. Qed.

Lemma plain_no_line_feed (s : string) :
  every notSpace s = true -> occurs "010" s = false.
Proof. apply every_not_occurs. reflexivity. Qed.

Lemma statusLine_plain (e : string * string) :
  goodEntry e -> plainLine (statusLine e).
Proof.
  intros [_ [Hnl [_ [Hne Hp]]]]. unfold statusLine, plainLine.
  repeat split.
  - rewrite occurs_append, Hnl. simpl.
    change (Ascii.eqb "010" " ") with false.
    rewrite (plain_no_line_feed _ Hp). reflexivity.
  - rewrite <- append_assoc.
    apply trimEnd_keeps_tail; [apply trimEnd_plain, Hp | exact Hne].
  - destruct (fst e); discriminate.
Qed.

Lemma recordLine_entry (current : list string) (e : string * string) :
  goodEntry e ->
  recordLine current (statusLine e) = setAdd (snd e) current.
Proof.
  intros [Hl [_ [Ht _]]]. unfold recordLine, statusLine.
  rewrite <- Hl at 1. rewrite WatcherExtras.substringTo_prefix, Ht.
  replace 3%nat with (length (fst e ++ " "))
    by (rewrite length_append, Hl; reflexivity).
  rewrite <- append_assoc, substringFrom_prefix. reflexivity.
Qed.

Lemma porcelain_lines (e : string * string) (rest : list (string * string)) :
  porcelain (e :: rest) = join nl (map statusLine (e :: rest)) ++ nl.
Proof.
  revert e. induction rest as [|e2 rest IH]; intros e.
  - reflexivity.
  - change (porcelain (e :: e2 :: rest))
      with (statusLine e ++ nl ++ porcelain (e2 :: rest)).
    rewrite IH, !map_cons, ConfigFacts.join_two, !append_assoc.
    reflexivity.
Qed.

Lemma fold_entries (entries : list (string * string)) :
  (forall e, In e entries -> goodEntry e) ->
  forall acc,
    fold_left recordLine (map statusLine entries) acc =
    fold_left (fun s x => setAdd x s) (map snd entries) acc.
Proof.
  induction entries as [|e rest IH]; intros H acc; [reflexivity|].
  simpl. rewrite recordLine_entry by (apply H; left; reflexivity).
  apply IH. intros x Hx. apply H. right. exact Hx.
Qed.

(** X22: a status output made of well-formed lines (two status
    characters that are not both blank, a blank, a non-empty path without
    blanks, a line feed) whose first character is not a blank is read
    back exactly: the current changes are the paths of the lines, each
    once, in order of first occurrence. *)
Theorem status_output_parsed :
  forall (entries : list (string * string)),
    (forall e, In e entries -> goodEntry e) ->
    trimStart (porcelain entries) = porcelain entries ->
    currentChangesOf (porcelain entries) = setOf (map snd entries).
Proof.
  intros entries H Hs. destruct entries as [|e rest]; [reflexivity|].
  rewrite porcelain_lines in Hs |- *.
  rewrite lines_read.
  - apply fold_entries, H.
  - discriminate.
  - intros l Hl. apply in_map_iff in Hl. destruct Hl as [x [<- Hx]].
    apply statusLine_plain, H, Hx.
  - exact Hs.
Qed.

Lemma status_output_parsed_witness :
  currentChangesOf
    (porcelain [("M ", "project-001/a.txt"); ("??", "project-002/b.txt");
                (" M", "project-001/a.txt")])
  = setOf ["project-001/a.txt"; "project-002/b.txt"; "project-001/a.txt"].
Proof.
  apply (status_output_parsed
           [("M ", "project-001/a.txt"); ("??", "project-002/b.txt");
            (" M", "project-001/a.txt")]).
  - intros e [<- | [<- | [<- | []]]]; repeat split;
      (discriminate || reflexivity).
  - reflexivity.
Defined.

(** With a blank in front of the first line, the first path is read one
    character late. *)
Lemma leading_blank_read
    (c a : ascii) (path : string) (rest : list (string * string)) :
  isSpace c = false ->
  every notSpace (String a path) = true ->
  (forall e, In e rest -> goodEntry e) ->
  currentChangesOf
    (porcelain ((String " " (String c ""), String a path) :: rest))
  = setOf (path :: map snd rest).
Proof.
  intros Hc Hp Hrest.
  set (first := String c (String " " (String a path))).
  assert (Hfirst : plainLine first).
  { unfold plainLine, first. repeat split; [| |discriminate].
    - change (String c (String " " (String a path)))
        with (String c (String " " "") ++ String a path).
      rewrite occurs_append, (plain_no_line_feed _ Hp), orb_false_r.
      cbn [occurs]. change (Ascii.eqb "010" " ") with false.
      destruct (Ascii.eqb_spec "010" c) as [<- | _]; [discriminate|].
      reflexivity.
    - change (String c (String " " (String a path)))
        with (String c (String " " "") ++ String a path).
      apply trimEnd_keeps_tail; [apply trimEnd_plain, Hp | discriminate]. }
  assert (T : trim (porcelain ((String " " (String c ""), String a path)
                                 :: rest))
              = trim (join nl (first :: map statusLine rest) ++ nl)).
  { rewrite porcelain_lines. unfold trim. f_equal.
    rewrite map_cons.
    destruct (map statusLine rest) as [|l2 ls];
      [|rewrite !ConfigFacts.join_two];
      unfold statusLine, first; simpl; reflexivity. }
  rewrite currentChangesOf_fold, T, <- currentChangesOf_fold.
  rewrite lines_read.
  - simpl fold_left. unfold recordLine at 2, first.
    change (substringTo 2 (String c (String " " (String a path))))
      with (String c (String " " "")).
    change (substringFrom 3 (String c (String " " (String a path))))
      with path.
    assert (Ht : truthy (trim (String c (String " " ""))) = true)
      by (unfold trim; simpl; rewrite Hc; simpl; rewrite Hc; reflexivity).
    rewrite Ht. unfold setOf. simpl fold_left.
    apply fold_entries, Hrest.
  - discriminate.
  - intros l [<- | Hl]; [exact Hfirst|].
    apply in_map_iff in Hl. destruct Hl as [x [<- Hx]].
    apply statusLine_plain, Hrest, Hx.
  - destruct (map statusLine rest) as [|l2 ls];
      [|rewrite ConfigFacts.join_two]; unfold first; simpl;
      rewrite Hc; reflexivity.
Qed.

(** X23: when the output starts with a line whose status begins with a
    blank (an unstaged change), trimming the whole output removes that
    blank and the path recorded for the first line lacks its first
    character, the other lines being read as they are; so an unstaged
    change in a project directory that is the only line of the output is
    attributed to no project and no event is emitted for it, whatever
    the configuration. *)
Theorem leading_blank_shifts_first_path :
  forall (c a : ascii) (path : string) (rest : list (string * string)),
    isSpace c = false ->
    every notSpace (String a path) = true ->
    (forall e, In e rest -> goodEntry e) ->
    currentChangesOf
      (porcelain ((String " " (String c ""), String a path) :: rest))
    = setOf (path :: map snd rest)
    /\ (forall tail configFile reverse last,
          String a path = "project-" ++ tail ->
          snd (checkGitChanges configFile reverse last
                 (GitOutput
                    (porcelain [(String " " (String c ""), String a path)])))
          = None).
Proof.
  intros c a path rest Hc Hp Hrest.
  split; [apply leading_blank_read; assumption|].
  intros tail configFile reverse last Hpath.
  apply no_event_iff_new_changes_focused.
  intros change p Hin Hproj.
  unfold newChangesOf in Hin. apply filter_In in Hin. destruct Hin as [Hin _].
  rewrite (leading_blank_read c a path [] Hc Hp) in Hin
    by (intros e []).
  destruct Hin as [<- | []].
  injection Hpath as _ ->. discriminate Hproj.
Qed.

Lemma leading_blank_shifts_first_path_witness :
  currentChangesOf
    (porcelain [(" M", "project-001/a.txt"); ("M ", "project-002/b.txt")])
  = ["roject-001/a.txt"; "project-002/b.txt"]
  /\ snd (checkGitChanges None [] []
            (GitOutput (porcelain [(" M", "project-001/a.txt")]))) = None.
Proof.
  assert (G : forall e, In e [("M ", "project-002/b.txt")] -> goodEntry e).
  { intros e [<- | []]; repeat split; (discriminate || reflexivity). }
  pose proof (leading_blank_shifts_first_path
                "M" "p" "roject-001/a.txt" [("M ", "project-002/b.txt")]
                eq_refl eq_refl G) as [E N].
  split; [exact E|].
  exact (N "001/a.txt" None [] [] eq_refl).
Defined.

End PorcelainFacts.

(** ** A tick of the watcher, from the status output to the event *)

Module TickFacts.

Import Js Regex Dict Server Notions WatcherNotions JsFacts StringFacts
       WatcherFacts PorcelainFacts.

Lemma porcelain_read (entries : list (string * string)) :
  (forall e, In e entries -> goodEntry e) ->
  trimStart (porcelain entries) = porcelain entries ->
  currentChangesOf (porcelain entries) = setOf (map snd entries).
Proof.
  intros H Hs. destruct entries as [|e rest]; [reflexivity|].
  rewrite porcelain_lines in Hs |- *.
  rewrite lines_read.
  - apply fold_entries, H.
  - discriminate.
  - intros l Hl. apply in_map_iff in Hl. destruct Hl as [x [<- Hx]].
    apply statusLine_plain, H, Hx.
  - exact Hs.
Qed.

Lemma In_newChangesOf (last current : list string) (change : string) :
  In change (newChangesOf last current)
  <-> In change current /\ ~ In change last.
Proof.
  unfold newChangesOf. rewrite filter_In, negb_true_iff, mem_false.
  reflexivity.
Qed.

(** X5: on a tick whose status query succeeds and on which no lookup of
    the walk finds a member inherited from [Object.prototype], the
    callback runs to its end, takes the paths read from the output as
    the snapshot, and publishes an event exactly when some path read
    from the output, not in the previous snapshot, starts with
    [project-] and digits that name a project outside the focused list.
    The paths are those the parser records; for an output made of
    well-formed lines that does not start with a blank they are the
    paths of the lines. *)
Theorem event_iff_unfocused_change :
  forall (configFile : option string) (reverse : dict)
         (last : list string) (stdout : string),
    let config := readConfig configFile in
    Strict.lookupsSafe reverse (focusedProjects config)
                       (downstreamHops config) ->
    exists emitted,
      Strict.checkGitChanges (Strict.onDisk configFile) reverse last
                             (GitOutput stdout)
      = Strict.Normal (currentChangesOf stdout, emitted)
      /\ ((exists ev, emitted = Some ev) <->
          (exists change p,
              In change (currentChangesOf stdout)
              /\ ~ In change last
              /\ projectOf change = Some p
              /\ ~ In p (focusedProjects config)))
      /\ (forall entries,
            stdout = porcelain entries ->
            (forall e, In e entries -> goodEntry e) ->
            trimStart stdout = stdout ->
            ((exists ev, emitted = Some ev) <->
             (exists e p,
                 In e entries
                 /\ ~ In (snd e) last
                 /\ projectOf (snd e) = Some p
                 /\ ~ In p (focusedProjects config)))).
Proof.
  intros configFile reverse last stdout config Hsafe.
  exists (snd (checkGitChanges configFile reverse last (GitOutput stdout))).
  assert (K : (exists ev,
                  snd (checkGitChanges configFile reverse last
                         (GitOutput stdout)) = Some ev) <->
              (exists change p,
                  In change (currentChangesOf stdout)
                  /\ ~ In change last
                  /\ projectOf change = Some p
                  /\ ~ In p (focusedProjects config))).
  { rewrite (WatcherExtras.emitted_iff_unfocused_change
               configFile reverse last stdout).
    split; intros [change [p [H1 [H2 H3]]]]; exists change, p.
    - apply In_newChangesOf in H1. tauto.
    - split; [apply In_newChangesOf; tauto | tauto]. }
  split; [|split; [exact K|]].
  - rewrite (StrictFacts.strict_checkGitChanges _ _ _ _ Hsafe).
    rewrite (surjective_pairing (checkGitChanges _ _ _ _)) at 1.
    rewrite checkGitChanges_snapshot. reflexivity.
  - intros entries -> Hgood Hstart. rewrite K.
    rewrite (porcelain_read entries Hgood Hstart). split.
    + intros [change [p [H1 [H2 [H3 H4]]]]].
      apply In_setOf, in_map_iff in H1. destruct H1 as [e [<- He]].
      exists e, p. auto.
    + intros [e [p [H1 [H2 [H3 H4]]]]].
      exists (snd e), p. split; [|auto].
      apply In_setOf, in_map_iff. exists e. auto.
Qed.

Lemma event_iff_unfocused_change_witness :
  exists emitted,
    Strict.checkGitChanges (Strict.onDisk Fixtures.focusOnFirst)
                           Fixtures.ladder [] (GitOutput Fixtures.mixedEdits)
    = Strict.Normal (currentChangesOf Fixtures.mixedEdits, emitted)
    /\ exists ev, emitted = Some ev.
Proof.
  assert (Hsafe : Strict.lookupsSafe Fixtures.ladder
                    (focusedProjects (readConfig Fixtures.focusOnFirst))
                    (downstreamHops (readConfig Fixtures.focusOnFirst))).
  { right. split; [|right;
      exact (StrictFacts.buildGraph_plainDependents Fixtures.ladderManifests)].
    assert (F : focusedProjects (readConfig Fixtures.focusOnFirst)
                = ["project-001"]) by (vm_compute; reflexivity).
    rewrite F. intros s [<- | []]. reflexivity. }
  destruct (event_iff_unfocused_change Fixtures.focusOnFirst Fixtures.ladder
              [] Fixtures.mixedEdits Hsafe) as [emitted [E [K _]]].
  exists emitted. split; [exact E|]. apply K.
  exists "project-002/b.txt", "project-002".
  assert (C : currentChangesOf Fixtures.mixedEdits
              = ["project-002/b.txt"; "project-001/x"])
    by (vm_compute; reflexivity).
  assert (F : focusedProjects (readConfig Fixtures.focusOnFirst)
              = ["project-001"]) by (vm_compute; reflexivity).
  rewrite C, F. repeat split.
  - left. reflexivity.
  - intros [].
  - intros [H | []]. discriminate H.
Defined.

End TickFacts.
